(** * webgl-particles: the GPU particle simulation of [src/Simulation.tsx]

    A shallow embedding of the simulation core: the fragment shader that
    advances one particle (the "force kernel"), the double-buffered data
    textures that hold the particle state, and the host code that seeds the
    textures and drives one simulation step.

    Numbers.  GLSL [float]s and JavaScript numbers are embedded as real
    numbers.  A real number stands for a finite value: the embedding has no
    NaN and no infinity, and it does not round.  An equality between
    computed values is therefore an equality up to the rounding of the
    operations involved.  Where a statement needs the values of the program
    to be finite, it is made on the ranges on which the 32-bit arithmetic
    of the shader stays finite (positions in the box, colour components in
    [0,1], a pointer strength between -1 and 1), with these ranges as
    hypotheses.  What rounding to 32 bits itself does to the friction
    product is looked at in [Binary32].  GLSL [int]s and JavaScript array
    indices are embedded as [Z]; the indices of a grid are far below 2^31,
    and a statement about an index outside the grid is made for a row and
    a column that fit in 32 bits.

    WebGL.  The part of the WebGL state the simulation touches is a record:
    the texture objects (a finite map from texture names to texel arrays), the
    texture units, the colour attachments of the simulation's framebuffer and
    the uniforms of the simulation program, with what the platform decides:
    whether the context is lost when the simulation is created, whether a
    [create...] call returns null and whether a shader compiles.  The loss
    of the context of a running simulation is not described: [update] and
    [getParticleState] are those of a live context.  The context is taken
    to offer the extension [EXT_color_buffer_float] that [createParticles]
    asks for, to return the framebuffer and the vertex buffers asked for, to
    accept the texture sizes, and to link the programs (the program looks
    at none of these results); the JavaScript engine is taken to have the
    memory for the arrays. *)

From Stdlib Require Import Reals Lra Lia ZArith.
From Stdlib Require Floats.SpecFloat.
From stdpp Require Import base option list gmap.

(** ** GLSL vectors and built-ins *)

Module Glsl.
Local Open Scope R_scope.

Record vec2 := Vec2 { x2 : R; y2 : R }.
Record vec3 := Vec3 { x3 : R; y3 : R; z3 : R }.
Record vec4 := Vec4 { x4 : R; y4 : R; z4 : R; w4 : R }.

Definition zero4 : vec4 := Vec4 0 0 0 0.

(** Swizzles. *)
Definition xy (v : vec4) : vec2 := Vec2 (x4 v) (y4 v).
Definition zw (v : vec4) : vec2 := Vec2 (z4 v) (w4 v).
Definition rgb (v : vec4) : vec3 := Vec3 (x4 v) (y4 v) (z4 v).
Definition gbr (c : vec3) : vec3 := Vec3 (y3 c) (z3 c) (x3 c).
Definition brg (c : vec3) : vec3 := Vec3 (z3 c) (x3 c) (y3 c).
Definition xy3 (v : vec3) : vec2 := Vec2 (x3 v) (y3 v).

(** Component-wise arithmetic. *)
Definition add2 (a b : vec2) : vec2 := Vec2 (x2 a + x2 b) (y2 a + y2 b).
Definition sub2 (a b : vec2) : vec2 := Vec2 (x2 a - x2 b) (y2 a - y2 b).
Definition scale2 (a : vec2) (k : R) : vec2 := Vec2 (x2 a * k) (y2 a * k).
Definition div2 (a : vec2) (k : R) : vec2 := Vec2 (x2 a / k) (y2 a / k).
Definition sub3 (a b : vec3) : vec3 :=
  Vec3 (x3 a - x3 b) (y3 a - y3 b) (z3 a - z3 b).

(** [length] on [vec2] and on [vec3]. *)
Definition length2 (v : vec2) : R := sqrt (x2 v * x2 v + y2 v * y2 v).
Definition length3 (v : vec3) : R :=
  sqrt (x3 v * x3 v + y3 v * y3 v + z3 v * z3 v).

(** [pow(x, y)].  GLSL defines it as x to the power y for [0 < x], as 0 for
    [x = 0] and [0 < y], and leaves the result undefined otherwise; the
    embedding returns 0 on the undefined part.  Every theorem below that
    evaluates [pow] stays on the defined part or does not depend on the
    value. *)
Definition pow (x y : R) : R :=
  if Rlt_dec 0 x then Rpower x y else 0.

End Glsl.
Export Glsl.

(** ** The friction product in 32-bit floats

    [vel *= friction] on one component of the velocity, as the arithmetic
    of the shader computes it: the product of two IEEE 754 binary32
    numbers, rounded to the nearest one, ties to even.  [friction] is the
    binary32 number nearest to 0.9.  A GPU may also replace a subnormal
    result by zero; [damp_flushed] is the product on such a GPU. *)
Module Binary32.
Import SpecFloat.

Definition prec : Z := 24.
Definition emax : Z := 128.

(** 1.0 and 0.9 in binary32: 2^23 * 2^-23 and 15099494 * 2^-24. *)
Definition one : spec_float := S754_finite false 8388608 (-23).
Definition friction : spec_float := S754_finite false 15099494 (-24).

Definition damp (v : spec_float) : spec_float := SFmul prec emax v friction.

Definition flush (v : spec_float) : spec_float :=
  match v with
  | S754_finite s m e =>
      if (Z.pos (digits2_pos m) <? prec)%Z then S754_zero s else v
  | _ => v
  end.

Definition damp_flushed (v : spec_float) : spec_float := flush (damp v).

End Binary32.

(** ** Data textures

    An RGBA32F texture of [tex_width] by [tex_height] texels, rows stored one
    after the other, as [texImage2D] lays out the array it is given. *)

Record Texture := MkTexture {
  tex_width : Z;
  tex_height : Z;
  texels : list vec4
}.

(** [texelFetch(texture, ivec2(x, y), 0)]; a fetch outside the texture
    yields zero. *)
Definition texelFetch (texture : Texture) (p : Z * Z) : vec4 :=
  let '(x, y) := p in
  if ((0 <=? x) && (x <? tex_width texture) &&
      (0 <=? y) && (y <? tex_height texture))%Z
  then default zero4 (texels texture !! Z.to_nat (y * tex_width texture + x))
  else zero4.

(** ** The simulation shader (the template literal of [createParticles]) *)

(** The outputs of one fragment: [layout(location=0..2) out vec4]. *)
Record FragOut := MkFragOut {
  transformOut : vec4;
  colorOut : vec4;
  propertyOut : vec4
}.

(** [const bool wrapAround = false;] *)
Definition wrapAround : bool := false.

(** The indices [0, 1, ..., n-1] visited by [for (int i = 0; i < n; i++)]. *)
Definition indices (n : Z) : list Z := Z.of_nat <$> seq 0 (Z.to_nat n).

Section Shader.
Local Open Scope R_scope.

(** The two constants spliced into the shader source and its uniforms. *)
Variable particleCount : Z.
Variable textureSize : Z.
Variable mouse : vec3.
Variable transformTexture : Texture.
Variable colorTexture : Texture.
Variable propertyTexture : Texture.

Definition fetchFromIndex (texture : Texture) (index : Z) : vec4 :=
  texelFetch texture (Z.rem index textureSize, Z.quot index textureSize).

Definition getTransform (index : Z) : vec4 :=
  fetchFromIndex transformTexture index.
Definition getColor (index : Z) : vec4 :=
  fetchFromIndex colorTexture index.
Definition getProperties (index : Z) : vec4 :=
  fetchFromIndex propertyTexture index.

(** The three named intermediate values of [particleDistance]. *)
Definition linearDistance (dir : vec2) : R :=
  sqrt ((x2 dir * x2 dir + y2 dir * y2 dir) / 8.0).

Definition attractionForce (linear : R) : R := pow linear 0.2 - 1.0.

Definition repulsionForce (linear : R) : R :=
  let radius := 1.0 in
  pow (- linear + 1.0) ((1.0 / radius) * 200.0).

Definition particleDistance (dir : vec2) : R :=
  let linear := linearDistance dir in
  let stiffness := 100000.0 in
  attractionForce linear * 2.5 + repulsionForce linear * stiffness.

(** The contribution of particle [i] to the velocity of the particle at
    [pos]: the value added to [vel] by one iteration of the pairwise loop. *)
Definition pairForce (pos : vec2) (color : vec3) (gravity : R) (i : Z) : vec2 :=
  let otherPos := xy (getTransform i) in
  let otherColor := rgb (getColor i) in
  let direction := sub2 pos otherPos in
  let colorDistance :=
    cos (length3 (sub3 (sub3 otherColor (gbr color)) (brg color))) * 0.1 in
  let attraction := particleDistance direction * gravity in
  scale2 (scale2 direction attraction) colorDistance.

(** One iteration of the pairwise loop: [vel += ...]. *)
Definition pairStep (pos : vec2) (color : vec3) (gravity : R)
    (vel : vec2) (i : Z) : vec2 :=
  add2 vel (pairForce pos color gravity i).

(** The pointer branch: the direction handed to [particleDistance], the
    scalar [attraction], and the update of [vel]. *)
Definition pointerDirection (pos : vec2) : vec2 :=
  let direction := sub2 pos (xy3 mouse) in
  let distance := length2 direction in
  if Rgt_dec distance 0.0 then div2 direction distance else direction.

Definition pointerAttraction (pos : vec2) : R :=
  particleDistance (pointerDirection pos) * z3 mouse * 0.01.

Definition pointerStep (pos vel : vec2) : vec2 :=
  if Req_dec_T (z3 mouse) 0.0 then vel
  else add2 vel (scale2 (pointerDirection pos) (pointerAttraction pos)).

(** The wall handling at the end of [updateTransform], for either value of
    the [wrapAround] constant. *)
Definition wallX (wrap : bool) (pos vel : vec2) : vec2 * vec2 :=
  if wrap then
    if Rgt_dec (x2 pos) 1.0 then (Vec2 (-1.0) (y2 pos), vel)
    else if Rlt_dec (x2 pos) (-1.0) then (Vec2 1.0 (y2 pos), vel)
    else (pos, vel)
  else
    if Rgt_dec (x2 pos) 1.0
    then (Vec2 1.0 (y2 pos), Vec2 (x2 vel * -1.0) (y2 vel))
    else if Rlt_dec (x2 pos) (-1.0)
    then (Vec2 (-1.0) (y2 pos), Vec2 (x2 vel * -1.0) (y2 vel))
    else (pos, vel).

Definition wallY (wrap : bool) (pos vel : vec2) : vec2 * vec2 :=
  if wrap then
    if Rge_dec (y2 pos) 1.0 then (Vec2 (x2 pos) (-1.0), vel)
    else if Rlt_dec (y2 pos) (-1.0) then (Vec2 (x2 pos) 1.0, vel)
    else (pos, vel)
  else
    if Rgt_dec (y2 pos) 1.0
    then (Vec2 (x2 pos) 1.0, Vec2 (x2 vel) (y2 vel * -1.0))
    else if Rlt_dec (y2 pos) (-1.0)
    then (Vec2 (x2 pos) (-1.0), Vec2 (x2 vel) (y2 vel * -1.0))
    else (pos, vel).

Definition wallBounce (wrap : bool) (pos vel : vec2) : vec2 * vec2 :=
  let '(pos, vel) := wallX wrap pos vel in
  wallY wrap pos vel.

(** The velocity after the pairwise loop, the pointer branch and friction,
    and the position it is integrated into. *)
Definition integrate (INDEX : Z) : vec2 * vec2 :=
  let pos := xy (getTransform INDEX) in
  let vel := zw (getTransform INDEX) in
  let color := rgb (getColor INDEX) in
  let props := xy (getProperties INDEX) in
  let gravity := x2 props in
  let radius := y2 props in
  let friction := 0.9 in
  let heat := 0.0001 in
  let vel := fold_left (pairStep pos color gravity) (indices particleCount) vel in
  let vel := pointerStep pos vel in
  let vel := scale2 vel friction in
  let pos := add2 pos vel in
  (pos, vel).

Definition updateTransformWith (wrap : bool) (INDEX : Z) : vec4 :=
  let '(pos, vel) := integrate INDEX in
  let '(pos, vel) := wallBounce wrap pos vel in
  Vec4 (x2 pos) (y2 pos) (x2 vel) (y2 vel).

Definition updateTransform (INDEX : Z) : vec4 :=
  updateTransformWith wrapAround INDEX.

(** [main], run for the fragment whose window coordinates truncate to
    ([fragX], [fragY]), that is [int(gl_FragCoord.x)] and
    [int(gl_FragCoord.y)].  [None] is [discard]. *)
Definition main (fragX fragY : Z) : option FragOut :=
  let x := fragY in
  let y := fragX in
  let indexParticle := (x * textureSize + y)%Z in
  if (indexParticle >? particleCount)%Z then None
  else Some {| transformOut := updateTransform indexParticle;
               colorOut := getColor indexParticle;
               propertyOut := getProperties indexParticle |}.

End Shader.

(** ** The WebGL state the simulation uses *)

(** The uniforms of the simulation program: [mouse] and the texture unit
    each sampler reads from. *)
Inductive Sampler := TransformSampler | ColorSampler | PropertySampler.

Record Uniforms := MkUniforms {
  u_mouse : vec3;
  u_transformTexture : nat;
  u_colorTexture : nat;
  u_propertyTexture : nat
}.

(** The four shader sources of the file: the vertex shader of
    [createFullscreenProgram], the fragment shader of [createParticles] with
    the two constants spliced into it, and the two shaders of the render
    pass in [createSimulation]. *)
Inductive ShaderSource :=
  | FullscreenVertex
  | SimulationFragment (particleCount textureSize : Z)
  | RenderVertex
  | RenderFragment.

Inductive ShaderType := VERTEX_SHADER | FRAGMENT_SHADER.

(** What the platform decides and the program only observes: whether
    [gl.createTexture()], [gl.createProgram()] and [gl.createShader(type)]
    return null, and the [COMPILE_STATUS] a live context reports for a
    source after [gl.compileShader]. *)
Record Platform := MkPlatform {
  null_texture : bool;
  null_program : bool;
  null_shader : bool;
  compile_status : ShaderType → ShaderSource → bool
}.

Record GL := MkGL {
  gl_contextLost : bool;
  gl_textures : gmap nat Texture;     (* texture name -> storage *)
  gl_activeTexture : nat;             (* selected texture unit *)
  gl_textureUnits : gmap nat nat;     (* TEXTURE_2D binding of each unit *)
  gl_attachments : gmap nat nat;      (* COLOR_ATTACHMENTi of [fb] *)
  gl_uniforms : Uniforms;
  gl_platform : Platform
}.

Definition with_textures (f : gmap nat Texture → gmap nat Texture) (gl : GL) : GL :=
  MkGL (gl_contextLost gl) (f (gl_textures gl)) (gl_activeTexture gl)
       (gl_textureUnits gl) (gl_attachments gl) (gl_uniforms gl)
       (gl_platform gl).

(** [gl.createTexture()]: a texture name not in use, for a texture object
    without storage, or [None] when the platform returns null.  A lost
    context does not make the call return null: the object it returns is
    one no later call gives storage to. *)
Definition createTexture (gl : GL) : option (nat * GL) :=
  if null_texture (gl_platform gl) then None
  else
    let texture := fresh (dom (gl_textures gl)) in
    Some (texture, with_textures <[texture := MkTexture 0 0 []]> gl).

Definition activeTexture (unit : nat) (gl : GL) : GL :=
  MkGL (gl_contextLost gl) (gl_textures gl) unit
       (gl_textureUnits gl) (gl_attachments gl) (gl_uniforms gl)
       (gl_platform gl).

(** [gl.bindTexture(gl.TEXTURE_2D, texture)] *)
Definition bindTexture (texture : nat) (gl : GL) : GL :=
  MkGL (gl_contextLost gl) (gl_textures gl) (gl_activeTexture gl)
       (<[gl_activeTexture gl := texture]> (gl_textureUnits gl))
       (gl_attachments gl) (gl_uniforms gl) (gl_platform gl).

(** The RGBA texels a [Float32Array] holds: texel [k] is made of the four
    floats from offset [4k]. *)
Definition texelAt (array : list R) (k : nat) : vec4 :=
  Vec4 (default 0%R (array !! (4 * k)%nat))
       (default 0%R (array !! (4 * k + 1)%nat))
       (default 0%R (array !! (4 * k + 2)%nat))
       (default 0%R (array !! (4 * k + 3)%nat)).

(** [gl.texImage2D(gl.TEXTURE_2D, 0, gl.RGBA32F, width, height, 0, gl.RGBA,
    gl.FLOAT, array)]: gives the texture bound to the active unit its
    storage.  The call does nothing on a lost context, and it is rejected,
    leaving the texture as it was, for a negative size ([INVALID_VALUE]) and
    for an array that holds fewer than [width * height * 4] floats
    ([INVALID_OPERATION]). *)
Definition texImage2D (width height : Z) (array : list R) (gl : GL) : GL :=
  if gl_contextLost gl then gl
  else if ((width <? 0) || (height <? 0))%Z then gl
  else if (Z.of_nat (length array) <? width * height * 4)%Z then gl
  else
    match gl_textureUnits gl !! gl_activeTexture gl with
    | Some texture =>
        with_textures
          <[texture := MkTexture width height
                         (texelAt array <$> seq 0 (Z.to_nat (width * height)))]> gl
    | None => gl
    end.

(** [gl.framebufferTexture2D(gl.FRAMEBUFFER, gl.COLOR_ATTACHMENT0 + i,
    gl.TEXTURE_2D, texture, 0)] on the simulation's framebuffer. *)
Definition framebufferTexture2D (i texture : nat) (gl : GL) : GL :=
  MkGL (gl_contextLost gl) (gl_textures gl) (gl_activeTexture gl)
       (gl_textureUnits gl) (<[i := texture]> (gl_attachments gl))
       (gl_uniforms gl) (gl_platform gl).

Definition with_uniforms (f : Uniforms → Uniforms) (gl : GL) : GL :=
  MkGL (gl_contextLost gl) (gl_textures gl) (gl_activeTexture gl)
       (gl_textureUnits gl) (gl_attachments gl) (f (gl_uniforms gl))
       (gl_platform gl).

Definition uniform1i (location : Sampler) (unit : nat) (gl : GL) : GL :=
  with_uniforms (λ u,
    match location with
    | TransformSampler =>
        MkUniforms (u_mouse u) unit (u_colorTexture u) (u_propertyTexture u)
    | ColorSampler =>
        MkUniforms (u_mouse u) (u_transformTexture u) unit (u_propertyTexture u)
    | PropertySampler =>
        MkUniforms (u_mouse u) (u_transformTexture u) (u_colorTexture u) unit
    end) gl.

(** [gl.uniform3f(mouseLocation, mx, my, pressed)] *)
Definition uniform3f (mx my pressed : R) (gl : GL) : GL :=
  with_uniforms (λ u,
    MkUniforms (Vec3 mx my pressed) (u_transformTexture u)
               (u_colorTexture u) (u_propertyTexture u)) gl.

(** The texture a sampler bound to [unit] reads. *)
Definition sampled (gl : GL) (unit : nat) : option Texture :=
  gl_textureUnits gl !! unit ≫= λ texture, gl_textures gl !! texture.

(** The simulation program: its fragment shader is [main] with the two
    constants spliced into the source. *)
Record Program := MkProgram {
  prog_particleCount : Z;
  prog_textureSize : Z
}.

(** What a draw of the full-screen quad leaves in one colour attachment:
    the fragment of pixel ([k mod width], [k / width]) writes texel [k],
    unless it is discarded. *)
Definition renderTarget (frag : Z → Z → option FragOut) (out : FragOut → vec4)
    (target : Texture) : Texture :=
  MkTexture (tex_width target) (tex_height target)
    (imap (λ k old,
       match frag (Z.modulo (Z.of_nat k) (tex_width target))
                  (Z.div (Z.of_nat k) (tex_width target)) with
       | Some o => out o
       | None => old
       end) (texels target)).

Definition writeAttachment (i : nat) (frag : Z → Z → option FragOut)
    (out : FragOut → vec4) (gl : GL) : GL :=
  match gl_attachments gl !! i with
  | Some texture =>
      match gl_textures gl !! texture with
      | Some target =>
          with_textures <[texture := renderTarget frag out target]> gl
      | None => gl
      end
  | None => gl
  end.

(** [gl.drawArrays(gl.TRIANGLES, 0, 6)] with the simulation program in use
    and the simulation's framebuffer bound.  The program never calls
    [gl.drawBuffers], so the framebuffer has the draw buffers it was
    created with: [COLOR_ATTACHMENT0] for the output at location 0 and
    [NONE] for the others.  The draw therefore writes [transformOut] to the
    first attachment and drops [colorOut] and [propertyOut].  All fragments
    sample the textures as they are before the draw.  A sampler without a
    texture makes the draw a no-op. *)
Definition drawArrays (prog : Program) (gl : GL) : GL :=
  let u := gl_uniforms gl in
  match sampled gl (u_transformTexture u), sampled gl (u_colorTexture u),
        sampled gl (u_propertyTexture u) with
  | Some tT, Some tC, Some tP =>
      let frag :=
        main (prog_particleCount prog) (prog_textureSize prog) (u_mouse u)
             tT tC tP in
      writeAttachment 0 frag transformOut gl
  | _, _, _ => gl
  end.

(** ** [createShader], [createShaderProgram] and [createFullscreenProgram]

    [None] stands for a thrown [Error].  On a lost context
    [gl.getShaderParameter] returns null, which the test [!compiled] takes
    for a failed compilation.  The shader and program objects have no part
    in the state modelled here, so that a successful call returns what the
    object was made of. *)
Definition createShader (gl : GL) (type : ShaderType) (source : ShaderSource)
    : option (ShaderType * ShaderSource) :=
  if null_shader (gl_platform gl) then None
  else
    let compiled :=
      negb (gl_contextLost gl) && compile_status (gl_platform gl) type source in
    if negb compiled then None
    else Some (type, source).

Definition createShaderProgram (gl : GL) (vertexSource fragmentSource : ShaderSource)
    : option (ShaderSource * ShaderSource) :=
  if null_program (gl_platform gl) then None
  else
    vertexShader ← createShader gl VERTEX_SHADER vertexSource;
    fragmentShader ← createShader gl FRAGMENT_SHADER fragmentSource;
    Some (vertexShader.2, fragmentShader.2).

(** The vertex buffer [attachVerticesToProgram] makes for the program holds
    the six corners of the full-screen quad; the call cannot throw. *)
Definition createFullscreenProgram (gl : GL) (fragmentSource : ShaderSource)
    : option (ShaderSource * ShaderSource) :=
  createShaderProgram gl FullscreenVertex fragmentSource.

(** ** [createDataTexture] and [createDoubleBufferTexture] *)

(** [None] stands for the thrown [Error("Failed to create texture")]. *)
Definition createDataTexture (gl : GL) (array : list R) (width height : Z)
    : option (nat * GL) :=
  '(texture, gl) ← createTexture gl;
  let gl := bindTexture texture gl in
  let gl := texImage2D width height array gl in
  Some (texture, gl).

(** [data[O] = v] on a [Float32Array]: a store outside the array is
    ignored. *)
Definition f32_set (data : list R) (O : Z) (v : R) : list R :=
  if (0 <=? O)%Z then <[Z.to_nat O := v]> data else data.

(** The seeding loop [for (let i = 0; i < size * size; i++)], [n] iterations
    left, with its [break] at the first index [init] leaves undefined. *)
Fixpoint seedLoop (init : Z → option (R * R * R * R)) (n : nat) (i : Z)
    (data : list R) : list R :=
  match n with
  | O => data
  | S n' =>
      match init i with
      | None => data
      | Some (a0, a1, a2, a3) =>
          let O := (i * 4 - 1)%Z in
          let O := (O + 1)%Z in let data := f32_set data O a0 in
          let O := (O + 1)%Z in let data := f32_set data O a1 in
          let O := (O + 1)%Z in let data := f32_set data O a2 in
          let O := (O + 1)%Z in let data := f32_set data O a3 in
          seedLoop init n' (i + 1)%Z data
      end
  end.

Definition seedData (size : Z) (init : Z → option (R * R * R * R)) : list R :=
  seedLoop init (Z.to_nat (size * size)) 0%Z
           (replicate (Z.to_nat (size * size * 4)) 0%R).

(** The object [createDoubleBufferTexture] returns: its two captured
    variables [read] and [write], each a texture name. *)
Record DoubleBuffer := MkDoubleBuffer {
  read : nat;
  write : nat
}.

Definition getRead (db : DoubleBuffer) : nat := read db.
Definition getWrite (db : DoubleBuffer) : nat := write db.
Definition swap (db : DoubleBuffer) : DoubleBuffer :=
  MkDoubleBuffer (write db) (read db).

Definition createDoubleBufferTexture (size : Z)
    (init : Z → option (R * R * R * R)) (gl : GL)
    : option (DoubleBuffer * GL) :=
  let data := seedData size init in
  '(read, gl) ← createDataTexture gl data size size;
  '(write, gl) ← createDataTexture gl data size size;
  Some (MkDoubleBuffer read write, gl).

(** ** [createParticles] *)

(** The loop [while (textureSize * textureSize < particleCount)
    textureSize *= 2], with [fuel] iterations allowed; [None] when they do
    not suffice. *)
Fixpoint growTextureSize (fuel : nat) (particleCount textureSize : Z)
    : option Z :=
  match fuel with
  | O => None
  | S fuel' =>
      if (textureSize * textureSize <? particleCount)%Z
      then growTextureSize fuel' particleCount (textureSize * 2)%Z
      else Some textureSize
  end.

(** [let textureSize = 2; while ...]: the side of the square textures.  The
    fuel given always suffices ([initialTextureSize_total]). *)
Definition initialTextureSize (particleCount : Z) : option Z :=
  growTextureSize (S (Z.to_nat particleCount)) particleCount 2%Z.

(** The object [createParticles] returns, with the variables its methods
    capture: the three double buffers and the simulation program. *)
Record Particles := MkParticles {
  count : Z;
  textureSize : Z;
  textureTransform : nat;
  textureColor : nat;
  textureProperties : nat;
  transformTexture : DoubleBuffer;
  colorTexture : DoubleBuffer;
  propertyTexture : DoubleBuffer;
  program : Program
}.

Section Host.

(** [const PARTICLE_COUNT = 20000;] the module constant the shader source
    is built with.  It is a parameter here so that the simulation can be
    studied at other sizes. *)
Variable PARTICLE_COUNT : Z.

(** [chroma.hsv(h, s, v).gl()] of the chroma-js library, first three
    components. *)
Variable chroma_hsv_gl : R → R → R → R * R * R.

Definition initTransform (particleCount i : Z) : option (R * R * R * R) :=
  if (i <? particleCount)%Z then
    Some ((sin ((IZR i / IZR particleCount) * PI * 2) / 2)%R,
          (cos ((IZR i / IZR particleCount) * PI * 2) / 2)%R,
          0%R, 0%R)
  else None.

Definition initColor (particleCount i : Z) : option (R * R * R * R) :=
  if (i <? particleCount)%Z then
    let '(r, g, b) :=
      chroma_hsv_gl ((IZR i / IZR particleCount) * 360)%R 0.9%R 1%R in
    Some (r, g, b, 1%R)
  else None.

Definition initProperties (particleCount i : Z) : option (R * R * R * R) :=
  if (i <? particleCount)%Z then Some (0.00001%R, 0%R, 0%R, 0%R) else None.

Definition createParticles (gl : GL) (particleCount : Z)
    : option (Particles * GL) :=
  textureSize ← initialTextureSize particleCount;
  '(transformTexture, gl) ←
    createDoubleBufferTexture textureSize (initTransform particleCount) gl;
  '(colorTexture, gl) ←
    createDoubleBufferTexture textureSize (initColor particleCount) gl;
  '(propertyTexture, gl) ←
    createDoubleBufferTexture textureSize (initProperties particleCount) gl;
  _ ← createFullscreenProgram gl
        (SimulationFragment PARTICLE_COUNT textureSize);
  Some ({| count := particleCount;
           textureSize := textureSize;
           textureTransform := getRead transformTexture;
           textureColor := getRead colorTexture;
           textureProperties := getRead propertyTexture;
           transformTexture := transformTexture;
           colorTexture := colorTexture;
           propertyTexture := propertyTexture;
           program := MkProgram PARTICLE_COUNT textureSize |}, gl).

End Host.

(** [getParticleState(index, tex)]: the texel of particle [index] read back
    from texture [tex]; [None] stands for the thrown
    [Error("Failed to read framebuffer")].  The framebuffer is complete
    when its attachment is a texture that has storage, of a width and a
    height that are not zero.  [readPixels] leaves [output], which is
    created filled with zeros, as it is for a pixel outside the
    framebuffer. *)
Definition getParticleState (p : Particles) (gl : GL) (index : Z) (tex : nat)
    : option vec4 :=
  target ← gl_textures gl !! tex;
  let canRead := ((0 <? tex_width target) && (0 <? tex_height target))%Z in
  if negb canRead then None
  else
    let idx := index in
    let x := Z.quot idx (textureSize p) in
    let y := Z.rem idx (textureSize p) in
    Some (texelFetch target (y, x)).

(** The array [textures] of [createParticles]: each double buffer with the
    sampler it feeds. *)
Definition textures (p : Particles) : list (DoubleBuffer * Sampler) :=
  [ (transformTexture p, TransformSampler);
    (colorTexture p, ColorSampler);
    (propertyTexture p, PropertySampler) ].

(** [update], up to and including the draw call: the read sides are bound
    to the texture units 0, 1, 2, the write sides are attached to the
    framebuffer, and the quad is drawn. *)
Definition bindInputs (p : Particles) (gl : GL) : GL :=
  fold_left (λ gl '(i, (texture, location)),
               uniform1i location i
                 (bindTexture (getRead texture) (activeTexture i gl)))
            (imap pair (textures p)) gl.

Definition attachOutputs (p : Particles) (gl : GL) : GL :=
  fold_left (λ gl '(i, (texture, _)),
               framebufferTexture2D i (getWrite texture) gl)
            (imap pair (textures p)) gl.

Definition dispatch (p : Particles) (mx my pressed : R) (gl : GL) : GL :=
  let gl := bindInputs p gl in
  let gl := uniform3f mx my pressed gl in
  let gl := attachOutputs p gl in
  drawArrays (program p) gl.

(** The rest of [update]: the write sides are published in the fields of
    the object, then the three double buffers are swapped. *)
Definition publish (p : Particles) : Particles :=
  {| count := count p;
     textureSize := textureSize p;
     textureTransform := getWrite (transformTexture p);
     textureColor := getWrite (colorTexture p);
     textureProperties := getWrite (propertyTexture p);
     transformTexture := transformTexture p;
     colorTexture := colorTexture p;
     propertyTexture := propertyTexture p;
     program := program p |}.

Definition swapAll (p : Particles) : Particles :=
  {| count := count p;
     textureSize := textureSize p;
     textureTransform := textureTransform p;
     textureColor := textureColor p;
     textureProperties := textureProperties p;
     transformTexture := swap (transformTexture p);
     colorTexture := swap (colorTexture p);
     propertyTexture := swap (propertyTexture p);
     program := program p |}.

Definition update (p : Particles) (mx my pressed : R) (gl : GL)
    : Particles * GL :=
  let gl := dispatch p mx my pressed gl in
  (swapAll (publish p), gl).

(** A run of the simulation: one [update] per pointer sample
    [(mx, my, pressed)]. *)
Definition run (s : Particles * GL) (pointer : list (R * R * R))
    : Particles * GL :=
  fold_left (λ s '(mx, my, pressed), update s.1 mx my pressed s.2) pointer s.

(** ** Reference formulas and predicates used in the statements *)

(** The repulsion term and the force magnitude as the design document
    writes them, [(1.0 - linear + 1.0)^(200.0 / radius)] with [radius = 1.0],
    to be compared with [repulsionForce] and [particleDistance]. *)
Definition documented_repulsion (linear : R) : R :=
  pow (1.0 - linear + 1.0)%R (200.0 / 1.0)%R.

Definition documented_particleDistance (dir : vec2) : R :=
  let linear := linearDistance dir in
  ((pow linear 0.2 - 1.0) * 2.5 + documented_repulsion linear * 100000.0)%R.

Definition is_power_of_two (n : Z) : Prop := ∃ k : Z, (0 ≤ k)%Z ∧ n = (2 ^ k)%Z.

(** [S] is the smallest power of two whose square reaches [N]. *)
Definition smallest_side (N S : Z) : Prop :=
  is_power_of_two S ∧ (N ≤ S * S)%Z ∧
  ∀ S', is_power_of_two S' → (N ≤ S' * S')%Z → (S ≤ S')%Z.

(** The Euclidean norm of a velocity. *)
Definition speed (v : vec4) : R := length2 (zw v).

(** The ranges in which the arithmetic of the shader stays finite: a
    position in the box [-1,1] x [-1,1], a colour with its components in
    [0,1], as chroma-js returns them, and pointer samples with a strength
    between -1 and 1, as the handlers of [createSimulation] set it. *)
Definition in_box (pos : vec2) : Prop :=
  (-1 <= x2 pos <= 1 ∧ -1 <= y2 pos <= 1)%R.

Definition unit_color (c : vec3) : Prop :=
  (0 <= x3 c <= 1 ∧ 0 <= y3 c <= 1 ∧ 0 <= z3 c <= 1)%R.

Definition unit_colors (hsv : R → R → R → R * R * R) : Prop :=
  ∀ h s v, unit_color (Vec3 (hsv h s v).1.1 (hsv h s v).1.2 (hsv h s v).2).

Definition gentle (pointer : list (R * R * R)) : Prop :=
  Forall (λ sample, (-1 <= sample.2 <= 1)%R) pointer.

(** ** The state of a running simulation *)

(** A stand-in for the colours of chroma-js, every particle red, for
    running the simulation on concrete inputs. *)
Definition all_red : R → R → R → R * R * R := λ _ _ _, (1%R, 0%R, 0%R).

(** A platform that returns every object asked for and compiles every
    shader, and a live WebGL context of it on which nothing has been
    created yet. *)
Definition obliging : Platform := MkPlatform false false false (λ _ _, true).

Definition freshContext : GL :=
  MkGL false ∅ 0 ∅ ∅ (MkUniforms (Vec3 0 0 0) 0 0 0) obliging.

Definition buffers (p : Particles) : list DoubleBuffer := (textures p).*1.

(** The textures the object offers to the render pass. *)
Definition published (p : Particles) : list nat :=
  [textureTransform p; textureColor p; textureProperties p].

(** The six texture names the three double buffers hold. *)
Definition names (p : Particles) : list nat :=
  buffers p ≫= λ db, [getRead db; getWrite db].

Definition square_texture (S : Z) (t : Texture) : Prop :=
  tex_width t = S ∧ tex_height t = S ∧ length (texels t) = Z.to_nat (S * S).

(** What holds of the object and the context between two calls of [update],
    for a simulation whose shader was built with [PARTICLE_COUNT]: the six
    textures are different objects, each a square of side [textureSize], and
    the published textures are the read sides. *)
Record Consistent (PARTICLE_COUNT : Z) (p : Particles) (gl : GL) : Prop := {
  consistent_side : (0 < textureSize p)%Z;
  consistent_program : program p = MkProgram PARTICLE_COUNT (textureSize p);
  consistent_names : NoDup (names p);
  consistent_storage : ∀ name, name ∈ names p →
    ∃ t, gl_textures gl !! name = Some t ∧ square_texture (textureSize p) t;
  consistent_published : published p = getRead <$> buffers p
}.

(** The record of particle [index] in the texture [tex] of the context. *)
Definition particle (p : Particles) (gl : GL) (tex : nat) (index : Z) : vec4 :=
  default zero4 (getParticleState p gl index tex).

(** The texture [createDataTexture] makes of the array seeded by [init]. *)
Definition seededTexture (size : Z) (init : Z → option (R * R * R * R))
    : Texture :=
  MkTexture size size
    (texelAt (seedData size init) <$> seq 0 (Z.to_nat (size * size))).

(** The storage of texture [name], empty if there is no such texture. *)
Definition storage (gl : GL) (name : nat) : Texture :=
  default (MkTexture 0 0 []) (gl_textures gl !! name).

(** The fragment shader as [update] runs it: built with the constants of
    the program, sampling the read sides, with the pointer as [mouse]. *)
Definition kernel (p : Particles) (gl : GL) (mx my pressed : R)
    : Z → Z → option FragOut :=
  main (prog_particleCount (program p)) (prog_textureSize (program p))
       (Vec3 mx my pressed)
       (storage gl (getRead (transformTexture p)))
       (storage gl (getRead (colorTexture p)))
       (storage gl (getRead (propertyTexture p))).

(** ** [createSimulation]: the pointer, the frame loop and the render pass *)

(** What the handlers read of a [MouseEvent] and of the rectangle
    [canvas.getBoundingClientRect()] returns. *)
Record MouseEvent := MkMouseEvent {
  clientX : R;
  clientY : R;
  buttons : Z
}.

Record DOMRect := MkDOMRect {
  rect_left : R;
  rect_top : R;
  rect_width : R;
  rect_height : R
}.

(** The variables the closures of [createSimulation] share, with the
    context, and what the browser holds for it: whether the three window
    listeners are registered and whether a [requestAnimationFrame] callback
    is pending. *)
Record Simulation := MkSimulation {
  sim_gl : GL;
  sim_mx : R;
  sim_my : R;
  sim_pressed : R;
  sim_particles : Particles;
  sim_destroyed : bool;
  sim_listening : bool;
  sim_scheduled : bool
}.

(** [mouseMove] divides by the width and the height of the rectangle.  For
    a rectangle of width or height zero the program's quotient is an
    infinity or NaN, which the embedding does not have: the statements that
    look at the pointer position are made for rectangles of positive width
    and height. *)
Definition mouseMove (e : MouseEvent) (rect : DOMRect) (s : Simulation)
    : Simulation :=
  let mx := (clientX e - rect_left rect)%R in
  let my := (clientY e - rect_top rect)%R in
  let mx := (mx / rect_width rect)%R in
  let my := (my / rect_height rect)%R in
  let mx := (mx * 2 - 1)%R in
  let my := (my * 2 - 1)%R in
  let my := (- my)%R in
  MkSimulation (sim_gl s) mx my (sim_pressed s) (sim_particles s)
               (sim_destroyed s) (sim_listening s) (sim_scheduled s).

Definition mouseDown (e : MouseEvent) (s : Simulation) : Simulation :=
  let pressed := if (buttons e =? 4)%Z then (-1)%R else 1%R in
  MkSimulation (sim_gl s) (sim_mx s) (sim_my s) pressed (sim_particles s)
               (sim_destroyed s) (sim_listening s) (sim_scheduled s).

Definition mouseUp (e : MouseEvent) (s : Simulation) : Simulation :=
  MkSimulation (sim_gl s) (sim_mx s) (sim_my s) 0%R (sim_particles s)
               (sim_destroyed s) (sim_listening s) (sim_scheduled s).

(** The texture bindings of the render pass in [tick]: the published
    textures on the units 0, 1, 2.  The pass draws to the canvas and sets
    uniforms of the render program only. *)
Definition renderPass (p : Particles) (gl : GL) : GL :=
  let gl := bindTexture (textureTransform p) (activeTexture 0 gl) in
  let gl := bindTexture (textureColor p) (activeTexture 1 gl) in
  let gl := bindTexture (textureProperties p) (activeTexture 2 gl) in
  gl.

(** [tick]: nothing once destroyed; otherwise one [update] with the current
    pointer, the render pass, and a request for the next frame. *)
Definition tick (s : Simulation) : Simulation :=
  if sim_destroyed s then
    MkSimulation (sim_gl s) (sim_mx s) (sim_my s) (sim_pressed s)
                 (sim_particles s) (sim_destroyed s) (sim_listening s) false
  else
    let '(particles, gl) :=
      update (sim_particles s) (sim_mx s) (sim_my s) (sim_pressed s) (sim_gl s) in
    let gl := renderPass particles gl in
    MkSimulation gl (sim_mx s) (sim_my s) (sim_pressed s) particles
                 (sim_destroyed s) (sim_listening s) true.

(** The function [createSimulation] returns. *)
Definition destroy (s : Simulation) : Simulation :=
  MkSimulation (sim_gl s) (sim_mx s) (sim_my s) (sim_pressed s)
               (sim_particles s) true false (sim_scheduled s).

(** What [createSimulation] does: it returns nothing without a WebGL 2
    context, throws if [createParticles] or the [createShaderProgram] of
    the render pass throws, or if [new Float32Array(particles.count * 12)]
    does (a [RangeError], for a negative length), and otherwise runs the
    first [tick] itself.  The vertex arrays it fills are [particleIndices]
    and [particleQuads] below. *)
Inductive Created :=
  | NoContext
  | Thrown
  | Running (s : Simulation).

Definition createSimulation (PARTICLE_COUNT : Z)
    (chroma_hsv_gl : R → R → R → R * R * R) (context : option GL) : Created :=
  match context with
  | None => NoContext
  | Some gl =>
      let mx := 0%R in
      let my := 0%R in
      let pressed := 0%R in
      match createParticles PARTICLE_COUNT chroma_hsv_gl gl PARTICLE_COUNT with
      | None => Thrown
      | Some (particles, gl) =>
          let destroyed := false in
          match createShaderProgram gl RenderVertex RenderFragment with
          | None => Thrown
          | Some program =>
              if (count particles * 12 <? 0)%Z then Thrown
              else
                Running (tick (MkSimulation gl mx my pressed particles destroyed
                                            true false))
          end
      end
  end.

(** What [createSimulation] needs not to throw: the objects it asks for
    ([createTexture], [createProgram], [createShader] not returning null),
    a context that is not lost, a true [COMPILE_STATUS] for each of the
    four shaders, and a particle count that is not negative. *)
Definition ready (PARTICLE_COUNT : Z) (gl : GL) : bool :=
  let platform := gl_platform gl in
  (0 <=? PARTICLE_COUNT)%Z &&
  negb (null_texture platform) && negb (null_program platform) &&
  negb (null_shader platform) && negb (gl_contextLost gl) &&
  compile_status platform VERTEX_SHADER FullscreenVertex &&
  match initialTextureSize PARTICLE_COUNT with
  | Some textureSize =>
      compile_status platform FRAGMENT_SHADER
        (SimulationFragment PARTICLE_COUNT textureSize)
  | None => false
  end &&
  compile_status platform VERTEX_SHADER RenderVertex &&
  compile_status platform FRAGMENT_SHADER RenderFragment.

(** What the browser can do to a running simulation: deliver a mouse event
    to [window], run the animation frame callbacks, or have the page call
    the function [createSimulation] returned. *)
Inductive Event :=
  | MouseMove (e : MouseEvent) (rect : DOMRect)
  | MouseDown (e : MouseEvent)
  | MouseUp (e : MouseEvent)
  | AnimationFrame
  | Destroy.

Definition handle (s : Simulation) (ev : Event) : Simulation :=
  match ev with
  | MouseMove e rect => if sim_listening s then mouseMove e rect s else s
  | MouseDown e => if sim_listening s then mouseDown e s else s
  | MouseUp e => if sim_listening s then mouseUp e s else s
  | AnimationFrame => if sim_scheduled s then tick s else s
  | Destroy => destroy s
  end.

Definition handleAll (s : Simulation) (events : list Event) : Simulation :=
  fold_left handle events s.

(** The pointer samples [update] is called with while the events are
    handled: one per animation frame that runs on a simulation not yet
    destroyed. *)
Fixpoint samples (s : Simulation) (events : list Event) : list (R * R * R) :=
  match events with
  | [] => []
  | ev :: events =>
      let rest := samples (handle s ev) events in
      match ev with
      | AnimationFrame =>
          if sim_scheduled s && negb (sim_destroyed s)
          then (sim_mx s, sim_my s, sim_pressed s) :: rest
          else rest
      | _ => rest
      end
  end.

(** ** The vertex arrays and the shaders of the render pass *)

(** [const particleIndices = new Float32Array(particles.count * 12)] and the
    two nested loops over the grid that fill it: twelve floats per cell,
    the row [x] and the column [y] of the cell for each of its six
    vertices. *)
Definition setIndices (particleIndices : list R) (idx x y : Z) : list R :=
  let particleIndices := f32_set particleIndices (idx + 0) (IZR x) in
  let particleIndices := f32_set particleIndices (idx + 1) (IZR y) in
  let particleIndices := f32_set particleIndices (idx + 2) (IZR x) in
  let particleIndices := f32_set particleIndices (idx + 3) (IZR y) in
  let particleIndices := f32_set particleIndices (idx + 4) (IZR x) in
  let particleIndices := f32_set particleIndices (idx + 5) (IZR y) in
  let particleIndices := f32_set particleIndices (idx + 6) (IZR x) in
  let particleIndices := f32_set particleIndices (idx + 7) (IZR y) in
  let particleIndices := f32_set particleIndices (idx + 8) (IZR x) in
  let particleIndices := f32_set particleIndices (idx + 9) (IZR y) in
  let particleIndices := f32_set particleIndices (idx + 10) (IZR x) in
  let particleIndices := f32_set particleIndices (idx + 11) (IZR y) in
  particleIndices.

Definition particleIndices (particles : Particles) : list R :=
  fold_left (λ particleIndices x,
    fold_left (λ particleIndices y,
      let idx := ((x * textureSize particles + y) * 12)%Z in
      setIndices particleIndices idx x y)
      (indices (textureSize particles)) particleIndices)
    (indices (textureSize particles))
    (replicate (Z.to_nat (count particles * 12)) 0%R).

(** [const particleQuads = new Float32Array(particles.count * 12)] and its
    loop: the two triangles of a square, for each particle. *)
Definition setQuad (particleQuads : list R) (idx : Z) : list R :=
  let particleQuads := f32_set particleQuads (idx + 0) (-1.0)%R in
  let particleQuads := f32_set particleQuads (idx + 1) (-1.0)%R in
  let particleQuads := f32_set particleQuads (idx + 2) 1.0%R in
  let particleQuads := f32_set particleQuads (idx + 3) (-1.0)%R in
  let particleQuads := f32_set particleQuads (idx + 4) (-1.0)%R in
  let particleQuads := f32_set particleQuads (idx + 5) 1.0%R in
  let particleQuads := f32_set particleQuads (idx + 6) (-1.0)%R in
  let particleQuads := f32_set particleQuads (idx + 7) 1.0%R in
  let particleQuads := f32_set particleQuads (idx + 8) 1.0%R in
  let particleQuads := f32_set particleQuads (idx + 9) (-1.0)%R in
  let particleQuads := f32_set particleQuads (idx + 10) 1.0%R in
  let particleQuads := f32_set particleQuads (idx + 11) 1.0%R in
  particleQuads.

Definition particleQuads (particles : Particles) : list R :=
  fold_left (λ particleQuads i,
    let idx := (i * 12)%Z in
    setQuad particleQuads idx)
    (indices (count particles))
    (replicate (Z.to_nat (count particles * 12)) 0%R).

(** The attribute of vertex [v] read from a buffer by
    [gl.vertexAttribPointer(location, 2, gl.FLOAT, false, 0, 0)]: two
    floats per vertex, tightly packed.  [attachVerticesToProgram] gives
    [particleIndices] to the attribute [indexPos] and [particleQuads] to
    [pos]; [tick] binds the same buffers to the locations 0 and 1, which
    are taken to be those of [indexPos] and [pos]. *)
Definition vertexAttribute (array : list R) (v : nat) : vec2 :=
  Vec2 (default 0%R (array !! (2 * v)%nat))
       (default 0%R (array !! (2 * v + 1)%nat)).

(** The conversion of a [float] to an [int], which drops the fractional
    part, as in [ivec2(indexPos.y, indexPos.x)]. *)
Definition truncate (r : R) : Z :=
  if Rle_dec 0 r then Int_part r else (- Int_part (- r))%Z.

(** [const float SIZE = 0.005;] *)
Definition SIZE : R := 0.005%R.

(** The vertex shader of the render pass. *)
Record VertexOut := MkVertexOut {
  gl_Position : vec4;
  outColor : vec4;
  outProperties : vec4;
  outTransform : vec4
}.

Definition renderVertex (textureTransform textureColor textureProperties : Texture)
    (indexPos pos : vec2) : VertexOut :=
  let at_index := (truncate (y2 indexPos), truncate (x2 indexPos)) in
  let transform := texelFetch textureTransform at_index in
  {| outTransform := transform;
     outColor := texelFetch textureColor at_index;
     outProperties := texelFetch textureProperties at_index;
     gl_Position := Vec4 (x2 pos * SIZE + x4 transform)%R
                         (y2 pos * SIZE + y4 transform)%R 0%R 1%R |}.

(** The fragment shader of the render pass, on the 1024 by 1024 canvas:
    [fragColor] for the fragment at [gl_FragCoord.xy]. *)
Definition renderFragment (outColor outTransform : vec4) (gl_FragCoord : vec2)
    : vec4 :=
  let screenSize := Vec2 1024.0%R 1024.0%R in
  let screenPos :=
    Vec2 (x2 gl_FragCoord / x2 screenSize * 2.0 - 1.0)%R
         (y2 gl_FragCoord / y2 screenSize * 2.0 - 1.0)%R in
  let alpha :=
    (- length2 (sub2 (xy outTransform) screenPos) * (1.0 / SIZE) + 1.0)%R in
  let alpha := pow alpha 0.5%R in
  Vec4 (x4 outColor) (y4 outColor) (z4 outColor) (alpha * w4 outColor)%R.

(** Consecutive stores [array[idx] = v0; array[idx + 1] = v1; ...]. *)
Fixpoint writeBlock (array : list R) (idx : Z) (vals : list R) : list R :=
  match vals with
  | [] => array
  | v :: vals => writeBlock (f32_set array idx v) (idx + 1) vals
  end.

(** A loop that stores one block of floats per element [z] of [zs], at
    offset [c z * 12]. *)
Definition blocks (c : Z → Z) (vals : Z → list R) (zs : list Z)
    (array : list R) : list R :=
  fold_left (λ array z, writeBlock array (c z * 12) (vals z)) zs array.

(** ** The force law *)

Section ForceLaw.
Local Open Scope R_scope.

Lemma pow_defined (x y : R) : 0 < x → pow x y = Rpower x y.
Proof. intros Hx. unfold pow. destruct (Rlt_dec 0 x); [reflexivity | lra]. Qed.

Lemma pow_zero_base (y : R) : pow 0 y = 0.
Proof. unfold pow. destruct (Rlt_dec 0 0); [lra | reflexivity]. Qed.

Lemma pow_one_base (y : R) : pow 1 y = 1.
Proof.
  rewrite pow_defined by lra.
  unfold Rpower. rewrite ln_1, Rmult_0_r. apply exp_0.
Qed.

Lemma INR_200 : INR 200 = 200.
Proof. rewrite INR_IZR_INZ. reflexivity. Qed.

(** On a non-negative base, [pow] with exponent 200.0 is the 200th power. *)
Lemma pow_200 (x : R) : 0 <= x → pow x 200 = x ^ 200.
Proof.
  intros [Hx | <-].
  - rewrite pow_defined by exact Hx. rewrite <- INR_200.
    apply Rpower_pow, Hx.
  - rewrite pow_zero_base. symmetry. apply pow_i. lia.
Qed.

Lemma linearDistance_nonneg (dir : vec2) : 0 <= linearDistance dir.
Proof. apply sqrt_pos. Qed.

Lemma linearDistance_le_1 (dir : vec2) :
  x2 dir * x2 dir + y2 dir * y2 dir <= 8 → linearDistance dir <= 1.
Proof.
  intros H. unfold linearDistance. rewrite <- sqrt_1.
  apply sqrt_le_1_alt. lra.
Qed.

Lemma linearDistance_origin : linearDistance (Vec2 0 0) = 0.
Proof.
  unfold linearDistance. simpl.
  replace ((0 * 0 + 0 * 0) / 8.0) with 0 by lra. apply sqrt_0.
Qed.

(** [particleDistance] only looks at the squared length of its argument. *)
Lemma particleDistance_sqnorm (d e : vec2) :
  x2 d * x2 d + y2 d * y2 d = x2 e * x2 e + y2 e * y2 e →
  particleDistance d = particleDistance e.
Proof.
  intros H. unfold particleDistance, linearDistance. rewrite H. reflexivity.
Qed.

(** Two coinciding particles: the attraction term is -1, the repulsion term
    is 1. *)
Lemma repulsionForce_origin : repulsionForce 0 = 1.
Proof.
  unfold repulsionForce. replace (- 0 + 1.0) with 1 by lra. apply pow_one_base.
Qed.

Lemma particleDistance_origin : particleDistance (Vec2 0 0) = 99997.5.
Proof.
  unfold particleDistance. rewrite linearDistance_origin, repulsionForce_origin.
  unfold attractionForce. rewrite pow_zero_base. lra.
Qed.

Lemma documented_repulsion_origin : 1 < documented_repulsion 0.
Proof.
  unfold documented_repulsion.
  replace (1.0 - 0 + 1.0) with 2 by lra.
  replace (200.0 / 1.0) with 200 by lra.
  rewrite pow_defined by lra.
  rewrite <- (Rpower_O 2) at 1 by lra.
  apply Rpower_lt; lra.
Qed.

(** C1, as amended: for every direction [dir], with [linear] the square root
    of a eighth of its squared length, the repulsion term of
    [particleDistance] is [pow(1.0 - linear, 200.0)] (the exponent
    [(1.0 / radius) * 200.0] at the constant [radius = 1.0]) and the result
    is [(pow(linear, 0.2) - 1.0) * 2.5 + pow(1.0 - linear, 200.0) * 100000.0];
    whenever the squared length is at most 8, as it is between any two
    points of the box [-1,1] x [-1,1], the base [1 - linear] is non-negative
    and the repulsion term is its 200th power. *)
Theorem particleDistance_formula (dir : vec2) :
  let linear := linearDistance dir in
  repulsionForce linear = pow (1.0 - linear) 200.0 ∧
  particleDistance dir =
    (pow linear 0.2 - 1.0) * 2.5 + pow (1.0 - linear) 200.0 * 100000.0 ∧
  (x2 dir * x2 dir + y2 dir * y2 dir <= 8 →
   0 <= 1 - linear ∧ repulsionForce linear = (1 - linear) ^ 200).
Proof.
  intros linear.
  assert (Hrep : repulsionForce linear = pow (1.0 - linear) 200.0).
  { unfold repulsionForce. f_equal; lra. }
  split; [exact Hrep |]. split.
  - unfold particleDistance. fold linear. rewrite Hrep.
    unfold attractionForce. reflexivity.
  - intros Hbox. pose proof (linearDistance_le_1 dir Hbox) as Hle.
    fold linear in Hle. split; [lra |].
    rewrite Hrep. replace (1.0 - linear) with (1 - linear) by lra.
    replace 200.0 with 200 by lra. apply pow_200. lra.
Qed.

(** C1, as stated, fails for two coinciding particles ([dir] the zero
    vector, [linear = 0]): the code's repulsion term is 1 and its result
    99997.5, where the documented formula has a repulsion term above 1
    (it is 2^200) and a result above 99997.5. *)
Lemma particleDistance_differs_from_documented :
  let dir := Vec2 0 0 in
  repulsionForce (linearDistance dir) = 1 ∧
  1 < documented_repulsion (linearDistance dir) ∧
  particleDistance dir = 99997.5 ∧
  99997.5 < documented_particleDistance dir.
Proof.
  cbv zeta. rewrite linearDistance_origin.
  pose proof documented_repulsion_origin as Hdoc.
  repeat split.
  - apply repulsionForce_origin.
  - exact Hdoc.
  - apply particleDistance_origin.
  - unfold documented_particleDistance. rewrite linearDistance_origin.
    rewrite pow_zero_base. lra.
Qed.

End ForceLaw.

(** ** The per-particle update *)

Section Kernel.
Local Open Scope R_scope.

(** Case analysis on every comparison of the wall handling. *)
Ltac case_walls :=
  repeat match goal with
         | |- context [if ?c then _ else _] => destruct c; cbn [fst snd x2 y2]
         end.

Lemma add2_zero (v : vec2) : add2 v (Vec2 0 0) = v.
Proof. destruct v as [a b]. unfold add2. simpl. f_equal; lra. Qed.

(** A particle exerts no force on itself. *)
Lemma pairForce_self (textureSize : Z) (transformTexture colorTexture : Texture)
    (INDEX : Z) (color : vec3) (gravity : R) :
  pairForce textureSize transformTexture colorTexture
    (xy (getTransform textureSize transformTexture INDEX)) color gravity INDEX
  = Vec2 0 0.
Proof. unfold pairForce, scale2, sub2. cbn [x2 y2]. f_equal; ring. Qed.

Lemma pairStep_self (textureSize : Z) (transformTexture colorTexture : Texture)
    (INDEX : Z) (color : vec3) (gravity : R) (vel : vec2) :
  pairStep textureSize transformTexture colorTexture
    (xy (getTransform textureSize transformTexture INDEX)) color gravity vel INDEX
  = vel.
Proof. unfold pairStep. rewrite pairForce_self. apply add2_zero. Qed.

(** C6: the iteration [i = INDEX] of the pairwise loop adds the zero vector
    to the velocity: [direction] is [pos - pos], the zero vector, and the
    term added is [direction * attraction * colorDistance]. *)
Theorem self_interaction_zero (textureSize : Z) (transformTexture colorTexture : Texture)
    (INDEX : Z) (color : vec3) (gravity : R) (vel : vec2) :
  let pos := xy (getTransform textureSize transformTexture INDEX) in
  sub2 pos (xy (getTransform textureSize transformTexture INDEX)) = Vec2 0 0 ∧
  pairForce textureSize transformTexture colorTexture pos color gravity INDEX
    = Vec2 0 0 ∧
  pairStep textureSize transformTexture colorTexture pos color gravity vel INDEX
    = vel.
Proof.
  intros pos. split_and!.
  - unfold sub2, pos. f_equal; lra.
  - apply pairForce_self.
  - apply pairStep_self.
Qed.

(** C5: in the reflective mode, the one [updateTransform] is compiled with,
    a position component above 1.0 becomes 1.0 and one below -1.0 becomes
    -1.0, and in both cases the velocity component of that axis is negated;
    in the wrap-around mode a component above 1.0 becomes -1.0 and one below
    -1.0 becomes 1.0, and the velocity is left as it is. *)
Theorem wallBounce_walls (pos vel : vec2) :
  wrapAround = false ∧
  (∀ particleCount textureSize mouse tT tC tP INDEX,
     updateTransform particleCount textureSize mouse tT tC tP INDEX
     = let integrated := integrate particleCount textureSize mouse tT tC tP INDEX in
       let bounced := wallBounce false integrated.1 integrated.2 in
       Vec4 (x2 bounced.1) (y2 bounced.1) (x2 bounced.2) (y2 bounced.2)) ∧
  (let pos' := (wallBounce false pos vel).1 in
   let vel' := (wallBounce false pos vel).2 in
   (1.0 < x2 pos → x2 pos' = 1.0 ∧ x2 vel' = - x2 vel) ∧
   (x2 pos < -1.0 → x2 pos' = -1.0 ∧ x2 vel' = - x2 vel) ∧
   (1.0 < y2 pos → y2 pos' = 1.0 ∧ y2 vel' = - y2 vel) ∧
   (y2 pos < -1.0 → y2 pos' = -1.0 ∧ y2 vel' = - y2 vel)) ∧
  (let pos' := (wallBounce true pos vel).1 in
   let vel' := (wallBounce true pos vel).2 in
   (1.0 < x2 pos → x2 pos' = -1.0) ∧
   (x2 pos < -1.0 → x2 pos' = 1.0) ∧
   (1.0 < y2 pos → y2 pos' = -1.0) ∧
   (y2 pos < -1.0 → y2 pos' = 1.0) ∧
   vel' = vel).
Proof.
  split; [reflexivity |].
  split.
  { intros. unfold updateTransform, updateTransformWith, wrapAround. cbv zeta.
    destruct (integrate _ _ _ _ _ _ _) as [ipos ivel]. cbn [fst snd].
    destruct (wallBounce false ipos ivel) as [bpos bvel]. reflexivity. }
  destruct pos as [px py], vel as [vx vy].
  split; cbv zeta; unfold wallBounce, wallX, wallY; cbn [x2 y2];
    case_walls; repeat split; intros; cbn [x2 y2]; lra.
Qed.

(** The case the design document tests: x = 1.5 after integration. *)
Example wallBounce_reflect_x :
  wallBounce false (Vec2 1.5 0.25) (Vec2 0.5 0.125)
  = (Vec2 1.0 0.25, Vec2 (0.5 * -1.0) 0.125).
Proof.
  unfold wallBounce, wallX, wallY. cbn [x2 y2].
  case_walls; first [reflexivity | exfalso; lra].
Qed.

Example wallBounce_wrap_x :
  wallBounce true (Vec2 1.5 0.25) (Vec2 0.5 0.125)
  = (Vec2 (-1.0) 0.25, Vec2 0.5 0.125).
Proof.
  unfold wallBounce, wallX, wallY. cbn [x2 y2].
  case_walls; first [reflexivity | exfalso; lra].
Qed.

(** The wall handling never changes the speed. *)
Lemma wallBounce_speed (wrap : bool) (pos vel : vec2) :
  length2 (wallBounce wrap pos vel).2 = length2 vel.
Proof.
  destruct pos as [px py], vel as [vx vy].
  unfold wallBounce, wallX, wallY.
  destruct wrap; cbn [x2 y2]; case_walls;
    unfold length2; cbn [snd x2 y2]; f_equal; nra.
Qed.

(** The direction handed to [particleDistance] by the pointer branch has
    length 1 unless the particle sits on the pointer. *)
Lemma pointerDirection_unit (mouse : vec3) (pos : vec2) :
  length2 (sub2 pos (xy3 mouse)) ≠ 0 →
  x2 (pointerDirection mouse pos) * x2 (pointerDirection mouse pos)
  + y2 (pointerDirection mouse pos) * y2 (pointerDirection mouse pos) = 1.
Proof.
  intros Hne. unfold pointerDirection. cbv zeta.
  set (d := sub2 pos (xy3 mouse)) in *.
  assert (Hnn : 0 <= x2 d * x2 d + y2 d * y2 d) by nra.
  assert (Hsq : length2 d * length2 d = x2 d * x2 d + y2 d * y2 d).
  { unfold length2. apply sqrt_sqrt, Hnn. }
  assert (Hpos : 0 < length2 d).
  { destruct (sqrt_pos (x2 d * x2 d + y2 d * y2 d)) as [Hlt | Heq];
      [exact Hlt | exfalso; apply Hne; symmetry; exact Heq]. }
  destruct (Rgt_dec (length2 d) 0.0) as [_ | Hn]; [| lra].
  unfold div2. cbn [x2 y2]. field_simplify_eq; [| exact Hne]. nra.
Qed.

(** C10: when the distance from the particle to the pointer is not zero, the
    direction handed to [particleDistance] has length 1, and the scalar
    [particleDistance(direction) * mouse.z * 0.01] is the same for every such
    particle position: it is the value at the unit vector (1, 0). *)
Theorem pointer_force_constant (mouse : vec3) (pos pos' : vec2) :
  length2 (sub2 pos (xy3 mouse)) ≠ 0 →
  length2 (sub2 pos' (xy3 mouse)) ≠ 0 →
  length2 (pointerDirection mouse pos) = 1 ∧
  pointerAttraction mouse pos
    = particleDistance (Vec2 1 0) * z3 mouse * 0.01 ∧
  pointerAttraction mouse pos = pointerAttraction mouse pos'.
Proof.
  intros H H'.
  pose proof (pointerDirection_unit mouse pos H) as Hu.
  pose proof (pointerDirection_unit mouse pos' H') as Hu'.
  assert (Hc : ∀ p, x2 (pointerDirection mouse p) * x2 (pointerDirection mouse p)
                    + y2 (pointerDirection mouse p) * y2 (pointerDirection mouse p) = 1 →
               pointerAttraction mouse p
               = particleDistance (Vec2 1 0) * z3 mouse * 0.01).
  { intros p Hp. unfold pointerAttraction.
    rewrite (particleDistance_sqnorm _ (Vec2 1 0)); [reflexivity |].
    rewrite Hp. simpl. ring. }
  repeat split.
  - unfold length2. rewrite Hu. apply sqrt_1.
  - apply Hc, Hu.
  - rewrite (Hc pos Hu), (Hc pos' Hu'). reflexivity.
Qed.

Lemma pointer_force_constant_witness :
  length2 (sub2 (Vec2 1 0) (xy3 (Vec3 0 0 1))) ≠ 0 ∧
  length2 (sub2 (Vec2 0 2) (xy3 (Vec3 0 0 1))) ≠ 0 ∧
  pointerAttraction (Vec3 0 0 1) (Vec2 1 0)
  = pointerAttraction (Vec3 0 0 1) (Vec2 0 2).
Proof.
  assert (H1 : length2 (sub2 (Vec2 1 0) (xy3 (Vec3 0 0 1))) ≠ 0).
  { unfold length2, sub2. simpl. intros E.
    apply sqrt_eq_0 in E; lra. }
  assert (H2 : length2 (sub2 (Vec2 0 2) (xy3 (Vec3 0 0 1))) ≠ 0).
  { unfold length2, sub2. simpl. intros E.
    apply sqrt_eq_0 in E; lra. }
  split; [exact H1 |]. split; [exact H2 |].
  apply (pointer_force_constant (Vec3 0 0 1) (Vec2 1 0) (Vec2 0 2) H1 H2).
Defined.

(** On the pointer itself the direction is the zero vector and the branch
    adds nothing to the velocity. *)
Lemma pointerStep_on_pointer (mouse : vec3) (vel : vec2) :
  pointerStep mouse (xy3 mouse) vel = vel.
Proof.
  unfold pointerStep. destruct (Req_dec_T (z3 mouse) 0.0); [reflexivity |].
  assert (Hzero : pointerDirection mouse (xy3 mouse) = Vec2 0 0).
  { unfold pointerDirection. cbv zeta.
    replace (sub2 (xy3 mouse) (xy3 mouse)) with (Vec2 0 0)
      by (unfold sub2; f_equal; lra).
    unfold length2. cbn [x2 y2].
    replace (0 * 0 + 0 * 0) with 0 by lra. rewrite sqrt_0.
    destruct (Rgt_dec 0 0.0); [lra | reflexivity]. }
  rewrite Hzero. unfold scale2. cbn [x2 y2].
  rewrite !Rmult_0_l. apply add2_zero.
Qed.

(** In the wrap-around mode the y axis already wraps at exactly 1.0, where
    the x axis does not. *)
Example wallBounce_wrap_edge :
  wallBounce true (Vec2 1.0 1.0) (Vec2 0.5 0.5)
  = (Vec2 1.0 (-1.0), Vec2 0.5 0.5).
Proof.
  unfold wallBounce, wallX, wallY. cbn [x2 y2].
  case_walls; first [reflexivity | exfalso; lra].
Qed.

(** C2: [main] discards every fragment whose index is above
    [particleCount], whatever the textures hold, but the fragment with index
    exactly [particleCount] is not discarded: it runs [updateTransform] and
    emits a record for an index that holds no particle. *)
Theorem main_guard (particleCount textureSize : Z) (mouse : vec3)
    (tT tC tP : Texture) (fragX fragY : Z) :
  let i := (fragY * textureSize + fragX)%Z in
  ((particleCount < i)%Z →
     main particleCount textureSize mouse tT tC tP fragX fragY = None) ∧
  ((i ≤ particleCount)%Z →
     main particleCount textureSize mouse tT tC tP fragX fragY
     = Some {| transformOut :=
                 updateTransform particleCount textureSize mouse tT tC tP i;
               colorOut := getColor textureSize tC i;
               propertyOut := getProperties textureSize tP i |}).
Proof.
  intros i. unfold main. fold i. split; intros H.
  - destruct (Z.gtb_spec i particleCount); [reflexivity | lia].
  - destruct (Z.gtb_spec i particleCount); [lia | reflexivity].
Qed.

(** With the constants of the source, 20000 particles in textures of side
    256, the fragment of pixel (32, 78) has index 20000 and is processed. *)
Example main_index_20000 (mouse : vec3) (tT tC tP : Texture) :
  main 20000 256 mouse tT tC tP 32 78
  = Some {| transformOut := updateTransform 20000 256 mouse tT tC tP 20000;
            colorOut := getColor 256 tC 20000;
            propertyOut := getProperties 256 tP 20000 |}.
Proof. reflexivity. Qed.

End Kernel.

(** ** The texture side chosen by [createParticles] *)

Section TextureSize.
Local Open Scope Z_scope.

(** The doubling loop started at [S] stops, once [fuel] doublings reach
    [N], at [S * 2^j] for the first [j] whose square reaches [N]. *)
Lemma growTextureSize_spec (fuel : nat) : ∀ N S,
  0 < S →
  N ≤ (S * 2 ^ Z.of_nat fuel) * (S * 2 ^ Z.of_nat fuel) →
  ∃ j, 0 ≤ j ∧
       growTextureSize (Datatypes.S fuel) N S = Some (S * 2 ^ j) ∧
       N ≤ (S * 2 ^ j) * (S * 2 ^ j) ∧
       (j = 0 ∨ 1 ≤ j ∧ (S * 2 ^ (j - 1)) * (S * 2 ^ (j - 1)) < N).
Proof.
  induction fuel as [| fuel IH]; intros N S HS HN.
  - exists 0. change (2 ^ Z.of_nat 0) with 1 in HN.
    cbn [growTextureSize]. destruct (Z.ltb_spec (S * S) N); [lia |].
    rewrite Z.pow_0_r, Z.mul_1_r. auto with zarith.
  - cbn [growTextureSize]. fold (growTextureSize (Datatypes.S fuel)).
    destruct (Z.ltb_spec (S * S) N) as [Hlt | Hge].
    + destruct (IH N (S * 2)) as (j & Hj & Hrun & Hsq & Hprev); [lia | |].
      { rewrite Nat2Z.inj_succ, Z.pow_succ_r in HN by lia. 
        replace (S * 2 * 2 ^ Z.of_nat fuel) with (S * (2 * 2 ^ Z.of_nat fuel)) by ring.
        exact HN. }
      assert (Hpow : S * 2 * 2 ^ j = S * 2 ^ (j + 1)).
      { rewrite Z.pow_add_r by lia. ring. }
      exists (j + 1). rewrite <- Hpow. repeat split; [lia | exact Hrun | exact Hsq |].
      right. replace (j + 1 - 1) with j by lia.
      split; [lia |].
      destruct Hprev as [-> | [Hj1 Hprev]].
      * rewrite Z.pow_0_r, Z.mul_1_r. exact Hlt.
      * replace (S * 2 ^ j) with (S * 2 * 2 ^ (j - 1)); [exact Hprev |].
        replace j with ((j - 1) + 1) at 2 by lia.
        rewrite Z.pow_add_r by lia. ring.
    + exists 0. rewrite Z.pow_0_r, Z.mul_1_r. auto with zarith.
Qed.

(** The fuel [initialTextureSize] passes is enough: the loop of
    [createParticles] terminates for every particle count. *)
Lemma initialTextureSize_spec (N : Z) :
  ∃ k, 1 ≤ k ∧ initialTextureSize N = Some (2 ^ k) ∧
       N ≤ 2 ^ k * 2 ^ k ∧
       (k = 1 ∨ 2 ^ (k - 1) * 2 ^ (k - 1) < N).
Proof.
  destruct (growTextureSize_spec (Z.to_nat N) N 2) as (j & Hj & Hrun & Hsq & Hprev);
    [lia | |].
  { assert (Z.of_nat (Z.to_nat N) < 2 ^ Z.of_nat (Z.to_nat N))
      by (apply Z.pow_gt_lin_r; lia).
    nia. }
  assert (Hpow : ∀ i, 0 ≤ i → 2 * 2 ^ i = 2 ^ (i + 1)).
  { intros i Hi. rewrite Z.pow_add_r by lia. ring. }
  exists (j + 1). rewrite <- Hpow by lia.
  repeat split; [lia | exact Hrun | exact Hsq |].
  destruct Hprev as [-> | [Hj1 Hprev]]; [left; reflexivity | right].
  replace (j + 1 - 1) with ((j - 1) + 1) by lia.
  rewrite <- Hpow by lia. exact Hprev.
Qed.

Lemma initialTextureSize_total (N : Z) : is_Some (initialTextureSize N).
Proof. destruct (initialTextureSize_spec N) as (k & _ & -> & _). eauto. Qed.

Lemma initialTextureSize_positive (N S : Z) :
  initialTextureSize N = Some S → 2 ≤ S ∧ N ≤ S * S.
Proof.
  destruct (initialTextureSize_spec N) as (k & Hk & -> & Hsq & _).
  intros [= <-]. split; [| exact Hsq].
  change 2 with (2 ^ 1) at 1. apply Z.pow_le_mono_r; lia.
Qed.

(** Among powers of two, a smaller square means a smaller exponent. *)
Lemma pow2_square_lt (a b : Z) :
  0 ≤ a → 0 ≤ b → 2 ^ a * 2 ^ a < 2 ^ b * 2 ^ b → a < b.
Proof.
  intros Ha Hb Hlt. destruct (Z.lt_ge_cases a b) as [| Hge]; [assumption |].
  assert (2 ^ b ≤ 2 ^ a) by (apply Z.pow_le_mono_r; lia).
  assert (0 < 2 ^ b) by (apply Z.pow_pos_nonneg; lia).
  nia.
Qed.

(** C4, as amended: for every [N ≥ 1] the loop ends with a side [S] that is
    the smallest power of two from 2 upwards (the loop's starting value)
    with [S² ≥ N], and [S² ≥ N] holds; for [N ≥ 2] that is the smallest
    power of two with [S² ≥ N]. *)
Theorem textureSize_smallest_from_two (N : Z) :
  1 ≤ N →
  ∃ S, initialTextureSize N = Some S ∧
       is_power_of_two S ∧ 2 ≤ S ∧ N ≤ S * S ∧
       (∀ S', is_power_of_two S' → 2 ≤ S' → N ≤ S' * S' → S ≤ S') ∧
       (2 ≤ N → smallest_side N S).
Proof.
  intros HN.
  destruct (initialTextureSize_spec N) as (k & Hk & Hrun & Hsq & Hprev).
  assert (Hmin : ∀ S', is_power_of_two S' → 2 ≤ S' → N ≤ S' * S' → 2 ^ k ≤ S').
  { intros S' (k' & Hk' & ->) H2 HS'.
    apply Z.pow_le_mono_r; [lia |].
    destruct Hprev as [-> | Hprev].
    - destruct (Z.eq_dec k' 0) as [-> | ]; [| lia].
      rewrite Z.pow_0_r in H2. lia.
    - assert (k - 1 < k'); [| lia].
      apply pow2_square_lt; lia. }
  assert (Hp : is_power_of_two (2 ^ k)) by (exists k; split; [lia | reflexivity]).
  assert (H2 : 2 ≤ 2 ^ k).
  { change 2 with (2 ^ 1) at 1. apply Z.pow_le_mono_r; lia. }
  exists (2 ^ k). repeat split; try assumption. 
  intros S' HS' Hle. apply Hmin; try assumption.
  destruct HS' as (k' & Hk' & ->).
  destruct (Z.eq_dec k' 0) as [-> | ]; [rewrite Z.pow_0_r in Hle; lia |].
  change 2 with (2 ^ 1) at 1. apply Z.pow_le_mono_r; lia.
Qed.

Lemma textureSize_smallest_from_two_witness :
  1 ≤ 20000 ∧
  ∃ S, initialTextureSize 20000 = Some S ∧
       is_power_of_two S ∧ 2 ≤ S ∧ 20000 ≤ S * S ∧
       (∀ S', is_power_of_two S' → 2 ≤ S' → 20000 ≤ S' * S' → S ≤ S') ∧
       (2 ≤ 20000 → smallest_side 20000 S).
Proof.
  split; [lia | apply (textureSize_smallest_from_two 20000); lia].
Defined.

(** The side for the 20000 particles of the source. *)
Example initialTextureSize_20000 : initialTextureSize 20000 = Some 256.
Proof. vm_compute. reflexivity. Qed.

(** C4, as stated, fails for [N = 1]: the loop starts at 2 and returns 2,
    but 1 is a power of two whose square reaches 1. *)
Lemma textureSize_not_smallest_at_1 :
  initialTextureSize 1 = Some 2 ∧ ¬ smallest_side 1 2.
Proof.
  split; [reflexivity |].
  intros (_ & _ & Hmin).
  assert (2 ≤ 1); [| lia].
  apply Hmin; [exists 0; split; [lia | reflexivity] | lia].
Qed.

End TextureSize.

(** ** Seeding the textures *)

Section Seeding.

Lemma f32_set_length (data : list R) (O : Z) (v : R) :
  length (f32_set data O v) = length data.
Proof. unfold f32_set. destruct (0 <=? O)%Z; [apply length_insert | reflexivity]. Qed.

Lemma seedLoop_length init (n : nat) : ∀ i data,
  length (seedLoop init n i data) = length data.
Proof.
  induction n as [| n IH]; intros i data; [reflexivity |].
  cbn [seedLoop]. destruct (init i) as [[[[a0 a1] a2] a3] |]; [| reflexivity].
  cbv zeta. rewrite IH, !f32_set_length. reflexivity.
Qed.

(** The four stores of one iteration, at the offsets [4i .. 4i+3]. *)
Lemma seed_stores (data : list R) (i : Z) (a0 a1 a2 a3 : R) :
  (0 ≤ i)%Z →
  f32_set (f32_set (f32_set (f32_set data (i * 4 - 1 + 1) a0)
                            (i * 4 - 1 + 1 + 1) a1)
                   (i * 4 - 1 + 1 + 1 + 1) a2)
          (i * 4 - 1 + 1 + 1 + 1 + 1) a3
  = <[(4 * Z.to_nat i + 3)%nat := a3]>
      (<[(4 * Z.to_nat i + 2)%nat := a2]>
         (<[(4 * Z.to_nat i + 1)%nat := a1]>
            (<[(4 * Z.to_nat i)%nat := a0]> data))).
Proof.
  intros Hi. unfold f32_set.
  repeat match goal with
         | |- context [(0 <=? ?z)%Z] => destruct (Z.leb_spec 0 z); [| lia]
         end.
  replace (Z.to_nat (i * 4 - 1 + 1)) with (4 * Z.to_nat i)%nat by lia.
  replace (Z.to_nat (i * 4 - 1 + 1 + 1)) with (4 * Z.to_nat i + 1)%nat by lia.
  replace (Z.to_nat (i * 4 - 1 + 1 + 1 + 1)) with (4 * Z.to_nat i + 2)%nat by lia.
  replace (Z.to_nat (i * 4 - 1 + 1 + 1 + 1 + 1)) with (4 * Z.to_nat i + 3)%nat by lia.
  reflexivity.
Qed.

(** The loop started at [i] leaves the floats below offset [4i] alone. *)
Lemma seedLoop_below init (n : nat) : ∀ i data (pos : nat),
  (0 ≤ i)%Z → (pos < 4 * Z.to_nat i)%nat →
  seedLoop init n i data !! pos = data !! pos.
Proof.
  induction n as [| n IH]; intros i data pos Hi Hpos; [reflexivity |].
  cbn [seedLoop]. destruct (init i) as [[[[a0 a1] a2] a3] |]; [| reflexivity].
  cbv zeta. rewrite IH by lia. rewrite seed_stores by exact Hi.
  rewrite !list_lookup_insert_ne by lia. reflexivity.
Qed.

(** Texel [k] of the seeded array holds [init k], provided the loop reaches
    [k]: [init] is defined on all of [i .. k]. *)
Lemma seedLoop_texel init (n : nat) : ∀ i data k a0 a1 a2 a3,
  (0 ≤ i ≤ k)%Z → (k < i + Z.of_nat n)%Z →
  (∀ j, (i ≤ j ≤ k)%Z → is_Some (init j)) →
  (4 * Z.to_nat k + 4 ≤ length data)%nat →
  init k = Some (a0, a1, a2, a3) →
  texelAt (seedLoop init n i data) (Z.to_nat k) = Vec4 a0 a1 a2 a3.
Proof.
  induction n as [| n IH]; intros i data k a0 a1 a2 a3 Hik Hkn Hdef Hlen Hk; [lia |].
  cbn [seedLoop].
  destruct (init i) as [[[[b0 b1] b2] b3] |] eqn:Hi;
    [| destruct (Hdef i ltac:(lia)) as [? ?]; congruence].
  cbv zeta. rewrite seed_stores by lia.
  destruct (Z.eq_dec i k) as [-> | Hne].
  - assert (b0 = a0 ∧ b1 = a1 ∧ b2 = a2 ∧ b3 = a3) as (-> & -> & -> & ->)
      by (split_and!; congruence).
    unfold texelAt. rewrite !seedLoop_below by lia.
    repeat match goal with
           | |- context [?l !! ?pos] =>
               lazymatch l with
               | <[_ := _]> _ =>
                   first [ rewrite (list_lookup_insert_eq _ pos)
                             by (rewrite ?length_insert; lia)
                         | rewrite (list_lookup_insert_ne _ _ pos) by lia ]
               end
           end.
    reflexivity.
  - apply IH; [lia | lia | | rewrite !length_insert; exact Hlen | exact Hk].
    intros j Hj. apply Hdef. lia.
Qed.

Lemma seedData_texel (size : Z) init (k : Z) (a0 a1 a2 a3 : R) :
  (0 ≤ k < size * size)%Z →
  (∀ j, (0 ≤ j ≤ k)%Z → is_Some (init j)) →
  init k = Some (a0, a1, a2, a3) →
  texelAt (seedData size init) (Z.to_nat k) = Vec4 a0 a1 a2 a3.
Proof.
  intros Hk Hdef Hinit. unfold seedData.
  apply seedLoop_texel; [lia | lia | exact Hdef | | exact Hinit].
  rewrite length_replicate. lia.
Qed.

End Seeding.

(** ** More on the per-particle update *)

Section KernelProperties.
Local Open Scope R_scope.

Ltac case_compare :=
  repeat match goal with
         | |- context [if ?c then _ else _] => destruct c; cbn [fst snd x2 y2]
         end.

(** The wall handling returns a position inside the box, in either mode. *)
Lemma wallBounce_box (wrap : bool) (pos vel : vec2) :
  -1 <= x2 (wallBounce wrap pos vel).1 <= 1 ∧
  -1 <= y2 (wallBounce wrap pos vel).1 <= 1.
Proof.
  destruct pos as [px py], vel as [vx vy].
  unfold wallBounce, wallX, wallY.
  destruct wrap; cbn [x2 y2]; case_compare; lra.
Qed.

(** A fetch returns a texel of the texture or the zero record. *)
Lemma fetchFromIndex_cases (S : Z) (t : Texture) (i : Z) :
  fetchFromIndex S t i = zero4 ∨ fetchFromIndex S t i ∈ texels t.
Proof.
  unfold fetchFromIndex, texelFetch.
  destruct (_ && _)%bool; [| auto].
  destruct (texels t !! _) as [v |] eqn:Hv; cbn; [| auto].
  right. eapply list_elem_of_lookup_2, Hv.
Qed.

(** X1: for records in the range where the arithmetic of the shader stays
    finite (every position of the transform texture in the box, every
    colour with components in [0,1], a gravity and a pointer strength
    between -1 and 1), the Transform that [updateTransform] emits has its
    position inside the box [-1,1] x [-1,1], in the reflective mode and in
    the wrap-around mode. *)
Theorem updateTransform_in_box (wrap : bool) (particleCount textureSize : Z)
    (mouse : vec3) (tT tC tP : Texture) (INDEX : Z) :
  (∀ i, in_box (xy (getTransform textureSize tT i))) →
  (∀ i, unit_color (rgb (getColor textureSize tC i))) →
  -1 <= x4 (getProperties textureSize tP INDEX) <= 1 →
  -1 <= z3 mouse <= 1 →
  let out := updateTransformWith particleCount textureSize mouse tT tC tP wrap INDEX in
  -1 <= x4 out <= 1 ∧ -1 <= y4 out <= 1.
Proof.
  intros _ _ _ _. unfold updateTransformWith. cbv zeta.
  destruct (integrate _ _ _ _ _ _ _) as [pos vel].
  pose proof (wallBounce_box wrap pos vel) as Hbox.
  destruct (wallBounce wrap pos vel) as [pos' vel']. exact Hbox.
Qed.

Lemma updateTransform_in_box_witness :
  let tT := MkTexture 1 1 [Vec4 0.25 0.5 3 (-4)] in
  let tC := MkTexture 1 1 [Vec4 1 0 0 1] in
  let tP := MkTexture 1 1 [Vec4 0.00001 0 0 0] in
  (∀ i, in_box (xy (getTransform 1 tT i))) ∧
  (∀ i, unit_color (rgb (getColor 1 tC i))) ∧
  -1 <= x4 (getProperties 1 tP 0) <= 1 ∧
  -1 <= z3 (Vec3 0.5 0.5 1) <= 1 ∧
  -1 <= x4 (updateTransformWith 1 1 (Vec3 0.5 0.5 1) tT tC tP false 0) <= 1.
Proof.
  intros tT tC tP.
  assert (HT : ∀ i, in_box (xy (getTransform 1 tT i))).
  { intros i. unfold getTransform, in_box.
    destruct (fetchFromIndex_cases 1 tT i) as [-> | Hin].
    - cbn. lra.
    - apply list_elem_of_singleton in Hin as ->. cbn. lra. }
  assert (HC : ∀ i, unit_color (rgb (getColor 1 tC i))).
  { intros i. unfold getColor, unit_color.
    destruct (fetchFromIndex_cases 1 tC i) as [-> | Hin].
    - cbn. lra.
    - apply list_elem_of_singleton in Hin as ->. cbn. lra. }
  assert (HP : -1 <= x4 (getProperties 1 tP 0) <= 1)
    by (change (x4 (getProperties 1 tP 0)) with 0.00001; lra).
  assert (HM : -1 <= z3 (Vec3 0.5 0.5 1) <= 1) by (cbn; lra).
  split; [exact HT |]. split; [exact HC |]. split; [exact HP |].
  split; [exact HM |].
  apply (updateTransform_in_box false 1 1 (Vec3 0.5 0.5 1) tT tC tP 0
           HT HC HP HM).
Defined.

(** Inside the walls the reflective wall handling changes nothing. *)
Lemma wallBounce_inside (pos vel : vec2) :
  -1 <= x2 pos <= 1 → -1 <= y2 pos <= 1 →
  wallBounce false pos vel = (pos, vel).
Proof.
  intros Hx Hy. destruct pos as [px py], vel as [vx vy]. cbn [x2 y2] in *.
  unfold wallBounce, wallX, wallY. cbn [x2 y2].
  case_compare; first [reflexivity | exfalso; lra].
Qed.

(** X2: the reflective wall handling is idempotent: a particle that was
    clamped to a wall and had its velocity reversed is not reflected a
    second time by the same test. *)
Theorem wallBounce_idempotent (pos vel : vec2) :
  let once := wallBounce false pos vel in
  wallBounce false once.1 once.2 = once.
Proof.
  cbv zeta. destruct (wallBounce_box false pos vel) as [Hx Hy].
  rewrite wallBounce_inside by assumption.
  destruct (wallBounce false pos vel). reflexivity.
Qed.

(** X3: the force magnitude between two particles does not depend on which
    of the two computes it. *)
Theorem particleDistance_symmetric (a b : vec2) :
  particleDistance (sub2 a b) = particleDistance (sub2 b a).
Proof. apply particleDistance_sqnorm. unfold sub2. cbn [x2 y2]. ring. Qed.

Lemma box_distance (a b : vec2) :
  -1 <= x2 a <= 1 → -1 <= y2 a <= 1 → -1 <= x2 b <= 1 → -1 <= y2 b <= 1 →
  x2 (sub2 a b) * x2 (sub2 a b) + y2 (sub2 a b) * y2 (sub2 a b) <= 8.
Proof. intros. unfold sub2. cbn [x2 y2]. nra. Qed.

(** On [0,1] the GLSL [pow] with a positive exponent stays in [0,1]. *)
Lemma pow_unit_interval (x y : R) : 0 <= x <= 1 → 0 < y → 0 <= pow x y <= 1.
Proof.
  intros [[Hpos | <-] Hle] Hy.
  - rewrite pow_defined by exact Hpos. unfold Rpower. split.
    + left. apply exp_pos.
    + rewrite <- exp_0. destruct Hle as [Hlt | ->].
      * left. apply exp_increasing.
        assert (ln x < 0) by (rewrite <- ln_1; apply ln_increasing; lra).
        nra.
      * rewrite ln_1, Rmult_0_r. lra.
  - rewrite pow_zero_base. lra.
Qed.

(** The force magnitude for a direction of squared length at most 8. *)
Lemma particleDistance_bounds (dir : vec2) :
  x2 dir * x2 dir + y2 dir * y2 dir <= 8 →
  0 <= linearDistance dir <= 1 ∧ -2.5 <= particleDistance dir <= 100000.
Proof.
  intros Hd.
  pose proof (linearDistance_nonneg dir) as H0.
  pose proof (linearDistance_le_1 dir Hd) as H1.
  split; [lra |].
  assert (Ha : 0 <= pow (linearDistance dir) 0.2 <= 1)
    by (apply pow_unit_interval; lra).
  assert (Hr : 0 <= repulsionForce (linearDistance dir) <= 1).
  { unfold repulsionForce. apply pow_unit_interval; lra. }
  unfold particleDistance, attractionForce. lra.
Qed.

(** X4: between two positions of the box the scaled distance [linear] lies
    in [0,1], so that both calls of [pow] in [particleDistance] have a
    non-negative base, and the force magnitude lies between -2.5 and
    100000. *)
Theorem particleDistance_in_box (a b : vec2) :
  -1 <= x2 a <= 1 → -1 <= y2 a <= 1 → -1 <= x2 b <= 1 → -1 <= y2 b <= 1 →
  let linear := linearDistance (sub2 a b) in
  0 <= linear <= 1 ∧ 0 <= - linear + 1.0 ∧
  -2.5 <= particleDistance (sub2 a b) <= 100000.
Proof.
  intros Hax Hay Hbx Hby linear.
  destruct (particleDistance_bounds (sub2 a b) (box_distance a b Hax Hay Hbx Hby))
    as [Hl Hf].
  fold linear in Hl. split_and!; lra.
Qed.

Lemma particleDistance_in_box_witness :
  -1 <= x2 (Vec2 1 1) <= 1 ∧ -1 <= y2 (Vec2 1 1) <= 1 ∧
  -1 <= x2 (Vec2 (-1) (-1)) <= 1 ∧ -1 <= y2 (Vec2 (-1) (-1)) <= 1 ∧
  -2.5 <= particleDistance (sub2 (Vec2 1 1) (Vec2 (-1) (-1))) <= 100000.
Proof.
  cbn [x2 y2]. split_and!; try lra.
  all: apply (particleDistance_in_box (Vec2 1 1) (Vec2 (-1) (-1)));
    cbn [x2 y2]; lra.
Defined.

(** With zero gravity no iteration of the pairwise loop changes the
    velocity. *)
Lemma pairwise_loop_weightless (textureSize : Z) (tT tC : Texture) (pos : vec2)
    (color : vec3) (l : list Z) : ∀ vel,
  fold_left (pairStep textureSize tT tC pos color 0) l vel = vel.
Proof.
  induction l as [| i l IH]; intros vel; [reflexivity |].
  cbn [fold_left]. rewrite IH. unfold pairStep, pairForce, scale2, add2.
  destruct vel as [vx vy]. cbn [x2 y2]. f_equal; ring.
Qed.

(** X5: a particle whose gravity property is zero ignores every other
    particle: with the pointer not engaged its velocity is multiplied by
    0.9 and added to its position, before the wall handling, whatever the
    number of the other particles and wherever in the box they are.  The
    positions are taken in the box and the colours with components in
    [0,1], where every force of the pairwise loop is a finite number, so
    that its product with the gravity 0 is 0. *)
Theorem weightless_particle_coasts (particleCount textureSize : Z) (mouse : vec3)
    (tT tC tP : Texture) (INDEX : Z) :
  (∀ i, in_box (xy (getTransform textureSize tT i))) →
  (∀ i, unit_color (rgb (getColor textureSize tC i))) →
  x4 (getProperties textureSize tP INDEX) = 0 →
  z3 mouse = 0 →
  let pos := xy (getTransform textureSize tT INDEX) in
  let vel := zw (getTransform textureSize tT INDEX) in
  (∀ i, -2.5 <= particleDistance (sub2 pos (xy (getTransform textureSize tT i)))
        <= 100000) ∧
  integrate particleCount textureSize mouse tT tC tP INDEX
  = (add2 pos (scale2 vel 0.9), scale2 vel 0.9).
Proof.
  intros Hbox _ Hg Hz pos vel. split.
  - intros i. apply particleDistance_bounds, box_distance;
      solve [apply (Hbox INDEX) | apply (Hbox i)].
  - unfold integrate. cbv zeta. cbn [xy x2].
    rewrite Hg, pairwise_loop_weightless.
    unfold pointerStep. destruct (Req_dec_T (z3 mouse) 0.0); [reflexivity | lra].
Qed.

Lemma weightless_particle_coasts_witness :
  let tT := MkTexture 1 1 [Vec4 0.25 0.25 1 1] in
  let tex := MkTexture 1 1 [Vec4 0 0 0 0] in
  (∀ i, in_box (xy (getTransform 1 tT i))) ∧
  (∀ i, unit_color (rgb (getColor 1 tex i))) ∧
  x4 (getProperties 1 tex 0) = 0 ∧ z3 (Vec3 0.5 0.5 0) = 0 ∧
  integrate 3 1 (Vec3 0.5 0.5 0) tT tex tex 0
  = (add2 (Vec2 0.25 0.25) (scale2 (Vec2 1 1) 0.9), scale2 (Vec2 1 1) 0.9).
Proof.
  intros tT tex.
  assert (HT : ∀ i, in_box (xy (getTransform 1 tT i))).
  { intros i. unfold getTransform, in_box.
    destruct (fetchFromIndex_cases 1 tT i) as [-> | Hin].
    - cbn. lra.
    - apply list_elem_of_singleton in Hin as ->. cbn. lra. }
  assert (HC : ∀ i, unit_color (rgb (getColor 1 tex i))).
  { intros i. unfold getColor, unit_color.
    destruct (fetchFromIndex_cases 1 tex i) as [-> | Hin].
    - cbn. lra.
    - apply list_elem_of_singleton in Hin as ->. cbn. lra. }
  split; [exact HT |]. split; [exact HC |].
  split; [reflexivity |]. split; [reflexivity |].
  apply (weightless_particle_coasts 3 1 (Vec3 0.5 0.5 0) tT tex tex 0
           HT HC eq_refl eq_refl).
Defined.

(** The pointer branch does not look at the sign of the strength when it
    computes the direction. *)
Lemma pointerDirection_strength (mx my z z' : R) (pos : vec2) :
  pointerDirection (Vec3 mx my z) pos = pointerDirection (Vec3 mx my z') pos.
Proof. reflexivity. Qed.

(** X6: repelling is the mirror image of attracting: the velocity change
    the pointer branch makes with strength [-z] is the opposite of the one
    it makes with strength [z]. *)
Theorem pointer_repel_mirrors_attract (mx my z : R) (pos vel : vec2) :
  sub2 (pointerStep (Vec3 mx my (- z)) pos vel) vel
  = scale2 (sub2 (pointerStep (Vec3 mx my z) pos vel) vel) (-1).
Proof.
  unfold pointerStep. cbn [z3].
  destruct (Req_dec_T (- z) 0.0) as [Hz | Hz];
    destruct (Req_dec_T z 0.0) as [Hz' | Hz']; try lra.
  - unfold sub2, scale2. cbn [x2 y2]. f_equal; ring.
  - unfold pointerAttraction. cbn [z3].
    rewrite (pointerDirection_strength mx my (- z) z).
    set (d := pointerDirection (Vec3 mx my z) pos).
    set (f := particleDistance d).
    unfold sub2, scale2, add2. cbn [x2 y2]. f_equal; field.
Qed.

End KernelProperties.

(** ** Creating the textures *)

Section Creation.

Lemma seedData_length size init :
  length (seedData size init) = Z.to_nat (size * size * 4).
Proof. unfold seedData. rewrite seedLoop_length, length_replicate. reflexivity. Qed.

(** What [texImage2D] leaves in the texture bound to the active unit. *)
Lemma texImage2D_textures width height array gl texture :
  gl_textureUnits gl !! gl_activeTexture gl = Some texture →
  gl_textures gl !! texture = Some (MkTexture 0 0 []) →
  ∃ t, gl_textures (texImage2D width height array gl)
       = <[texture := t]> (gl_textures gl) ∧
    (gl_contextLost gl = false → (0 ≤ width)%Z → (0 ≤ height)%Z →
     (width * height * 4 ≤ Z.of_nat (length array))%Z →
     t = MkTexture width height
           (texelAt array <$> seq 0 (Z.to_nat (width * height)))) ∧
    (gl_contextLost gl = true ∨ (width < 0)%Z ∨ (height < 0)%Z ∨
     (Z.of_nat (length array) < width * height * 4)%Z →
     t = MkTexture 0 0 []).
Proof.
  intros Hunit Hold. unfold texImage2D.
  destruct (gl_contextLost gl) eqn:Hlost.
  { exists (MkTexture 0 0 []). split_and!.
    - symmetry. apply insert_id, Hold.
    - discriminate.
    - reflexivity. }
  destruct (Z.ltb_spec width 0); cbn [orb].
  { exists (MkTexture 0 0 []). split_and!.
    - symmetry. apply insert_id, Hold.
    - lia.
    - reflexivity. }
  destruct (Z.ltb_spec height 0); cbn [orb].
  { exists (MkTexture 0 0 []). split_and!.
    - symmetry. apply insert_id, Hold.
    - lia.
    - reflexivity. }
  destruct (Z.ltb_spec (Z.of_nat (length array)) (width * height * 4)).
  { exists (MkTexture 0 0 []). split_and!.
    - symmetry. apply insert_id, Hold.
    - lia.
    - reflexivity. }
  rewrite Hunit. eexists. split_and!.
  - reflexivity.
  - reflexivity.
  - intros [? | [? | [? | ?]]]; [discriminate | lia | lia | lia].
Qed.

Lemma texImage2D_flags width height array gl :
  gl_contextLost (texImage2D width height array gl) = gl_contextLost gl ∧
  gl_platform (texImage2D width height array gl) = gl_platform gl.
Proof.
  unfold texImage2D.
  destruct (gl_contextLost gl) eqn:Hlost; [auto |].
  destruct (_ || _)%bool; [auto |].
  destruct (_ <? _)%Z; [auto |].
  destruct (gl_textureUnits gl !! gl_activeTexture gl); auto.
Qed.

(** [createDataTexture] throws only when the platform has no texture object
    to give; otherwise it returns a new texture, with the storage the array
    gives it if the upload is accepted and without storage if not. *)
Lemma createDataTexture_Some gl array width height texture gl' :
  createDataTexture gl array width height = Some (texture, gl') →
  gl_textures gl !! texture = None ∧
  gl_contextLost gl' = gl_contextLost gl ∧
  gl_platform gl' = gl_platform gl ∧
  ∃ t, gl_textures gl' = <[texture := t]> (gl_textures gl) ∧
    (gl_contextLost gl = false → (0 ≤ width)%Z → (0 ≤ height)%Z →
     (width * height * 4 ≤ Z.of_nat (length array))%Z →
     t = MkTexture width height
           (texelAt array <$> seq 0 (Z.to_nat (width * height)))) ∧
    (gl_contextLost gl = true ∨ (width < 0)%Z ∨ (height < 0)%Z ∨
     (Z.of_nat (length array) < width * height * 4)%Z →
     t = MkTexture 0 0 []).
Proof.
  unfold createDataTexture, createTexture.
  destruct (null_texture (gl_platform gl)); [discriminate |].
  cbn. intros [= <- <-].
  set (texture := fresh (dom (gl_textures gl))).
  set (gl1 := bindTexture texture
                (with_textures <[texture := MkTexture 0 0 []]> gl)).
  destruct (texImage2D_flags width height array gl1) as [Hlost Hplat].
  destruct (texImage2D_textures width height array gl1 texture)
    as (t & HT & Hok & Hno).
  { unfold gl1, bindTexture. cbn. apply lookup_insert_eq. }
  { unfold gl1, bindTexture, with_textures. cbn. apply lookup_insert_eq. }
  split_and!.
  - apply not_elem_of_dom, is_fresh.
  - rewrite Hlost. reflexivity.
  - rewrite Hplat. reflexivity.
  - exists t. split_and!.
    + rewrite HT. unfold gl1, bindTexture, with_textures. cbn.
      apply insert_insert_eq.
    + exact Hok.
    + exact Hno.
Qed.

Lemma createDataTexture_total gl array width height :
  null_texture (gl_platform gl) = false →
  is_Some (createDataTexture gl array width height).
Proof.
  intros Hnull. unfold createDataTexture, createTexture. rewrite Hnull.
  cbn. eauto.
Qed.

Lemma createDataTexture_None gl array width height :
  createDataTexture gl array width height = None ↔
  null_texture (gl_platform gl) = true.
Proof.
  unfold createDataTexture, createTexture.
  destruct (null_texture (gl_platform gl)); cbn; split; congruence.
Qed.

(** The two textures of a double buffer: new, different, and holding the
    seeded array if the context is live, nothing if it is lost. *)
Lemma createDoubleBufferTexture_Some size init gl db gl' :
  createDoubleBufferTexture size init gl = Some (db, gl') →
  gl_textures gl !! read db = None ∧
  gl_textures gl !! write db = None ∧
  read db ≠ write db ∧
  gl_contextLost gl' = gl_contextLost gl ∧
  gl_platform gl' = gl_platform gl ∧
  ∃ t, gl_textures gl' = <[write db := t]> (<[read db := t]> (gl_textures gl)) ∧
    (gl_contextLost gl = false → (0 ≤ size)%Z → t = seededTexture size init) ∧
    (gl_contextLost gl = true → t = MkTexture 0 0 []).
Proof.
  unfold createDoubleBufferTexture. cbv zeta.
  destruct (createDataTexture gl _ size size) as [[r gl1] |] eqn:H1;
    [| discriminate].
  cbn. destruct (createDataTexture gl1 _ size size) as [[w gl2] |] eqn:H2;
    [| discriminate].
  cbn. intros [= <- <-]. cbn.
  apply createDataTexture_Some in H1
    as (Hr & Hlost1 & Hplat1 & t1 & HT1 & Hok1 & Hno1).
  apply createDataTexture_Some in H2
    as (Hw & Hlost2 & Hplat2 & t2 & HT2 & Hok2 & Hno2).
  rewrite HT1 in Hw. apply lookup_insert_None in Hw as [Hw Hne].
  rewrite Hlost1 in Hok2, Hno2.
  assert (Ht : t2 = t1).
  { destruct (gl_contextLost gl) eqn:Hlost.
    - rewrite Hno1, Hno2 by auto. reflexivity.
    - destruct (Z.lt_ge_cases size 0).
      + rewrite Hno1, Hno2 by auto. reflexivity.
      + rewrite Hok1, Hok2; try reflexivity; try assumption;
          rewrite seedData_length; lia. }
  subst t2.
  split_and!; [exact Hr | exact Hw | exact Hne | congruence | congruence |].
  exists t1. split_and!.
  - rewrite HT2, HT1. reflexivity.
  - intros Hlost Hsize. rewrite Hok1; [reflexivity | assumption ..|].
    rewrite seedData_length. lia.
  - intros Hlost. apply Hno1. auto.
Qed.

Lemma createDoubleBufferTexture_total size init gl :
  null_texture (gl_platform gl) = false →
  is_Some (createDoubleBufferTexture size init gl).
Proof.
  intros Hnull. unfold createDoubleBufferTexture. cbv zeta.
  destruct (createDataTexture_total gl (seedData size init) size size Hnull)
    as [[r gl1] H1].
  rewrite H1. cbn.
  apply createDataTexture_Some in H1 as (_ & _ & Hplat & _).
  rewrite <- Hplat in Hnull.
  destruct (createDataTexture_total gl1 (seedData size init) size size Hnull)
    as [[w gl2] H2].
  rewrite H2. cbn. eauto.
Qed.

Lemma createDoubleBufferTexture_None size init gl :
  createDoubleBufferTexture size init gl = None ↔
  null_texture (gl_platform gl) = true.
Proof.
  split.
  - intros Hnone. destruct (null_texture (gl_platform gl)) eqn:Hnull;
      [reflexivity |].
    destruct (createDoubleBufferTexture_total size init gl Hnull) as [x Hx].
    congruence.
  - intros Hnull. unfold createDoubleBufferTexture. cbv zeta.
    rewrite (proj2 (createDataTexture_None _ _ _ _) Hnull). reflexivity.
Qed.

Lemma seededTexture_square size init : square_texture size (seededTexture size init).
Proof.
  unfold square_texture, seededTexture. cbn.
  rewrite length_fmap, length_seq. auto.
Qed.

(** [createShaderProgram] succeeds exactly on a live context whose platform
    returns the objects and compiles both sources. *)
Lemma createShader_Some gl type source :
  is_Some (createShader gl type source) ↔
  null_shader (gl_platform gl) = false ∧ gl_contextLost gl = false ∧
  compile_status (gl_platform gl) type source = true.
Proof.
  unfold createShader.
  destruct (null_shader (gl_platform gl)), (gl_contextLost gl),
    (compile_status (gl_platform gl) type source); cbn;
    split; intros H; destruct_and?; try discriminate;
    try (by destruct H); eauto.
Qed.

Lemma createShaderProgram_Some gl vertexSource fragmentSource :
  is_Some (createShaderProgram gl vertexSource fragmentSource) ↔
  null_program (gl_platform gl) = false ∧
  null_shader (gl_platform gl) = false ∧ gl_contextLost gl = false ∧
  compile_status (gl_platform gl) VERTEX_SHADER vertexSource = true ∧
  compile_status (gl_platform gl) FRAGMENT_SHADER fragmentSource = true.
Proof.
  unfold createShaderProgram.
  destruct (null_program (gl_platform gl)).
  { split; intros H; [by destruct H | destruct_and!; discriminate]. }
  pose proof (createShader_Some gl VERTEX_SHADER vertexSource) as Hv.
  pose proof (createShader_Some gl FRAGMENT_SHADER fragmentSource) as Hf.
  destruct (createShader gl VERTEX_SHADER vertexSource) as [v |]; cbn.
  - destruct (createShader gl FRAGMENT_SHADER fragmentSource) as [f |]; cbn.
    + destruct (proj1 Hv ltac:(eauto)) as (? & ? & ?).
      destruct (proj1 Hf ltac:(eauto)) as (? & ? & ?).
      split; [intros _; auto | eauto].
    + split; [intros H; by destruct H |].
      intros (_ & ? & ? & _ & ?).
      destruct (proj2 Hf) as [x Hx]; [auto | discriminate].
  - split; [intros H; by destruct H |].
    intros (_ & ? & ? & ? & _).
    destruct (proj2 Hv) as [x Hx]; [auto | discriminate].
Qed.

(** What [createParticles] returns and leaves in the context. *)
Lemma createParticles_Some PARTICLE_COUNT hsv gl N p gl' :
  createParticles PARTICLE_COUNT hsv gl N = Some (p, gl') →
  initialTextureSize N = Some (textureSize p) ∧
  count p = N ∧
  program p = MkProgram PARTICLE_COUNT (textureSize p) ∧
  published p = getRead <$> buffers p ∧
  NoDup (names p) ∧
  gl_textures gl' =
    <[write (propertyTexture p) := seededTexture (textureSize p) (initProperties N)]>
    (<[read (propertyTexture p) := seededTexture (textureSize p) (initProperties N)]>
    (<[write (colorTexture p) := seededTexture (textureSize p) (initColor hsv N)]>
    (<[read (colorTexture p) := seededTexture (textureSize p) (initColor hsv N)]>
    (<[write (transformTexture p) := seededTexture (textureSize p) (initTransform N)]>
    (<[read (transformTexture p) := seededTexture (textureSize p) (initTransform N)]>
       (gl_textures gl)))))).
Proof.
  unfold createParticles.
  destruct (initialTextureSize N) as [S |] eqn:HS; [| discriminate]. cbn.
  destruct (createDoubleBufferTexture S (initTransform N) gl)
    as [[dT gl1] |] eqn:HT; [| discriminate]. cbn.
  destruct (createDoubleBufferTexture S (initColor hsv N) gl1)
    as [[dC gl2] |] eqn:HC; [| discriminate]. cbn.
  destruct (createDoubleBufferTexture S (initProperties N) gl2)
    as [[dP gl3] |] eqn:HP; [| discriminate]. cbn.
  destruct (createFullscreenProgram gl3 (SimulationFragment PARTICLE_COUNT S))
    as [prog |] eqn:Hprog; [| discriminate]. cbn.
  intros [= <- <-]. cbn.
  assert (Hlive : gl_contextLost gl3 = false).
  { unfold createFullscreenProgram in Hprog.
    apply (createShaderProgram_Some gl3 FullscreenVertex
             (SimulationFragment PARTICLE_COUNT S)).
    rewrite Hprog. eauto. }
  pose proof (proj1 (initialTextureSize_positive N S HS)) as HS0.
  apply createDoubleBufferTexture_Some in HT
    as (HrT & HwT & HneT & HL1 & _ & tT & HT1 & HokT & _).
  apply createDoubleBufferTexture_Some in HC
    as (HrC & HwC & HneC & HL2 & _ & tC & HT2 & HokC & _).
  apply createDoubleBufferTexture_Some in HP
    as (HrP & HwP & HneP & HL3 & _ & tP & HT3 & HokP & _).
  rewrite HokT in HT1 by (try lia; congruence).
  rewrite HokC in HT2 by (try lia; congruence).
  rewrite HokP in HT3 by (try lia; congruence).
  rewrite HT2, HT1 in HrP, HwP. rewrite HT1 in HrC, HwC.
  repeat match goal with
         | H : <[_ := _]> _ !! _ = None |- _ =>
             apply lookup_insert_None in H as [H ?]
         end.
  split_and!; try reflexivity.
  - unfold names, buffers, textures, getRead, getWrite. cbn.
    repeat (apply NoDup_cons; split;
            [rewrite ?not_elem_of_cons; split_and?;
             first [apply not_elem_of_nil | congruence] |]).
    apply NoDup_nil_2.
  - rewrite HT3, HT2, HT1. reflexivity.
Qed.

(** [createParticles] throws exactly when the platform returns null for a
    texture, the program or a shader, when the context is lost, or when
    one of the two shaders of the simulation program does not compile. *)
Lemma createParticles_is_Some PARTICLE_COUNT hsv gl N :
  is_Some (createParticles PARTICLE_COUNT hsv gl N) ↔
  ∃ S, initialTextureSize N = Some S ∧
    null_texture (gl_platform gl) = false ∧
    null_program (gl_platform gl) = false ∧
    null_shader (gl_platform gl) = false ∧
    gl_contextLost gl = false ∧
    compile_status (gl_platform gl) VERTEX_SHADER FullscreenVertex = true ∧
    compile_status (gl_platform gl) FRAGMENT_SHADER
      (SimulationFragment PARTICLE_COUNT S) = true.
Proof.
  unfold createParticles.
  destruct (initialTextureSize_total N) as [S HS]. rewrite HS. cbn.
  destruct (null_texture (gl_platform gl)) eqn:Hnull.
  { rewrite (proj2 (createDoubleBufferTexture_None _ _ _) Hnull). cbn.
    split; [intros H; by destruct H |].
    intros (S' & _ & ? & _). discriminate. }
  destruct (createDoubleBufferTexture_total S (initTransform N) gl Hnull)
    as [[dT gl1] HT].
  rewrite HT. cbn.
  apply createDoubleBufferTexture_Some in HT as (_ & _ & _ & HL1 & HP1 & _).
  rewrite <- HP1 in Hnull.
  destruct (createDoubleBufferTexture_total S (initColor hsv N) gl1 Hnull)
    as [[dC gl2] HC].
  rewrite HC. cbn.
  apply createDoubleBufferTexture_Some in HC as (_ & _ & _ & HL2 & HP2 & _).
  rewrite <- HP2 in Hnull.
  destruct (createDoubleBufferTexture_total S (initProperties N) gl2 Hnull)
    as [[dP gl3] HP].
  rewrite HP. cbn.
  apply createDoubleBufferTexture_Some in HP as (_ & _ & _ & HL3 & HP3 & _).
  pose proof (createShaderProgram_Some gl3 FullscreenVertex
                (SimulationFragment PARTICLE_COUNT S)) as Hprog.
  unfold createFullscreenProgram.
  rewrite HP3, HP2, HP1, HL3, HL2, HL1 in Hprog.
  destruct (createShaderProgram gl3 FullscreenVertex
              (SimulationFragment PARTICLE_COUNT S)) as [prog |]; cbn.
  - destruct (proj1 Hprog ltac:(eauto)) as (? & ? & ? & ? & ?).
    split; [intros _; exists S; split_and!; auto | eauto].
  - split; [intros H; by destruct H |].
    intros (S' & [= <-] & _ & ? & ? & ? & ? & ?).
    destruct (proj2 Hprog) as [x Hx]; [split_and!; auto | discriminate].
Qed.

Lemma createParticles_total PARTICLE_COUNT hsv gl N :
  gl_contextLost gl = false →
  gl_platform gl = obliging →
  is_Some (createParticles PARTICLE_COUNT hsv gl N).
Proof.
  intros Hlost Hplat. apply createParticles_is_Some.
  destruct (initialTextureSize_total N) as [S HS]. exists S.
  rewrite Hplat. cbn. split_and!; auto.
Qed.

Lemma createParticles_fresh PARTICLE_COUNT hsv N :
  is_Some (createParticles PARTICLE_COUNT hsv freshContext N).
Proof. apply createParticles_total; reflexivity. Qed.

(** [createParticles] changes neither the context-lost flag nor the
    platform. *)
Lemma createParticles_flags PARTICLE_COUNT hsv gl N p gl' :
  createParticles PARTICLE_COUNT hsv gl N = Some (p, gl') →
  gl_contextLost gl' = gl_contextLost gl ∧ gl_platform gl' = gl_platform gl.
Proof.
  unfold createParticles.
  destruct (initialTextureSize N) as [S |] eqn:HS; [| discriminate]. cbn.
  destruct (createDoubleBufferTexture S (initTransform N) gl)
    as [[dT gl1] |] eqn:HT; [| discriminate]. cbn.
  destruct (createDoubleBufferTexture S (initColor hsv N) gl1)
    as [[dC gl2] |] eqn:HC; [| discriminate]. cbn.
  destruct (createDoubleBufferTexture S (initProperties N) gl2)
    as [[dP gl3] |] eqn:HP; [| discriminate]. cbn.
  destruct (createFullscreenProgram gl3 (SimulationFragment PARTICLE_COUNT S))
    as [prog |]; [| discriminate]. cbn.
  intros [= <- <-].
  apply createDoubleBufferTexture_Some in HT as (_ & _ & _ & HL1 & HP1 & _).
  apply createDoubleBufferTexture_Some in HC as (_ & _ & _ & HL2 & HP2 & _).
  apply createDoubleBufferTexture_Some in HP as (_ & _ & _ & HL3 & HP3 & _).
  split; congruence.
Qed.

(** A context on which [createParticles] succeeded is live. *)
Lemma createParticles_live PARTICLE_COUNT hsv gl N p gl' :
  createParticles PARTICLE_COUNT hsv gl N = Some (p, gl') →
  gl_contextLost gl = false.
Proof.
  intros H.
  destruct (proj1 (createParticles_is_Some PARTICLE_COUNT hsv gl N))
    as (S & _ & _ & _ & _ & Hlive & _); [rewrite H; eauto | exact Hlive].
Qed.

(** The six names are those of the six textures just created. *)
Lemma names_six (p : Particles) :
  names p = [read (transformTexture p); write (transformTexture p);
             read (colorTexture p); write (colorTexture p);
             read (propertyTexture p); write (propertyTexture p)].
Proof. reflexivity. Qed.

Lemma six_distinct (a b c d e f : nat) :
  NoDup [a; b; c; d; e; f] →
  a ≠ b ∧ a ≠ c ∧ a ≠ d ∧ a ≠ e ∧ a ≠ f ∧ b ≠ c ∧ b ≠ d ∧ b ≠ e ∧ b ≠ f ∧
  c ≠ d ∧ c ≠ e ∧ c ≠ f ∧ d ≠ e ∧ d ≠ f ∧ e ≠ f.
Proof.
  intros H. repeat (apply NoDup_cons in H as [? H]).
  rewrite ?not_elem_of_cons in *. destruct_and!. split_and!; assumption.
Qed.

Lemma createParticles_Consistent PARTICLE_COUNT hsv gl N p gl' :
  createParticles PARTICLE_COUNT hsv gl N = Some (p, gl') →
  Consistent PARTICLE_COUNT p gl'.
Proof.
  intros H. apply createParticles_Some in H as (HS & _ & Hprog & Hpub & Hnd & HT).
  apply initialTextureSize_positive in HS as [HS _].
  split; [lia | exact Hprog | exact Hnd | | exact Hpub].
  intros name Hname. rewrite names_six in Hnd, Hname. rewrite HT.
  apply six_distinct in Hnd. destruct_and!.
  repeat (apply elem_of_cons in Hname as [-> | Hname]);
    [.. | by apply elem_of_nil in Hname];
    eexists; (split; [| apply seededTexture_square]);
    repeat first [ apply lookup_insert_eq
                 | rewrite lookup_insert_ne by congruence ].
Qed.

End Creation.

(** ** One simulation step *)

Section Step.

Lemma Consistent_distinct PC p gl :
  Consistent PC p gl →
  let rT := read (transformTexture p) in let wT := write (transformTexture p) in
  let rC := read (colorTexture p) in let wC := write (colorTexture p) in
  let rP := read (propertyTexture p) in let wP := write (propertyTexture p) in
  rT ≠ wT ∧ rT ≠ rC ∧ rT ≠ wC ∧ rT ≠ rP ∧ rT ≠ wP ∧ wT ≠ rC ∧ wT ≠ wC ∧
  wT ≠ rP ∧ wT ≠ wP ∧ rC ≠ wC ∧ rC ≠ rP ∧ rC ≠ wP ∧ wC ≠ rP ∧ wC ≠ wP ∧
  rP ≠ wP.
Proof. intros [_ _ Hnd _ _]. rewrite names_six in Hnd. apply six_distinct, Hnd. Qed.

Lemma Consistent_storage PC p gl name :
  Consistent PC p gl → name ∈ names p →
  gl_textures gl !! name = Some (storage gl name) ∧
  square_texture (textureSize p) (storage gl name).
Proof.
  intros HC Hin. destruct (consistent_storage _ _ _ HC name Hin) as (t & Ht & Hsq).
  unfold storage. rewrite Ht. auto.
Qed.

(** The draw of [update] replaces the write side of the transform buffer
    by what the kernel renders into it, and touches no other texture. *)
Lemma dispatch_textures PC p gl mx my pressed :
  Consistent PC p gl →
  let frag := kernel p gl mx my pressed in
  gl_textures (dispatch p mx my pressed gl) =
    <[getWrite (transformTexture p) :=
        renderTarget frag transformOut (storage gl (getWrite (transformTexture p)))]>
       (gl_textures gl).
Proof.
  intros HC frag.
  pose proof (Consistent_distinct _ _ _ HC) as Hd. cbv zeta in Hd.
  destruct_and!.
  assert (Hall : ∀ name, name ∈ names p →
            gl_textures gl !! name = Some (storage gl name)).
  { intros name Hin. apply (Consistent_storage _ _ _ _ HC Hin). }
  rewrite names_six in Hall.
  unfold dispatch, bindInputs, attachOutputs, textures, drawArrays, sampled,
    uniform3f, uniform1i, framebufferTexture2D, bindTexture, activeTexture,
    with_uniforms. cbn.
  rewrite lookup_insert_eq.
  rewrite (lookup_insert_ne _ 2 1), lookup_insert_eq by done.
  rewrite !(lookup_insert_ne _ _ 0), lookup_insert_eq by done. cbn.
  unfold getRead, getWrite in *.
  rewrite !Hall by (rewrite ?elem_of_cons; tauto).
  unfold writeAttachment, with_textures. cbn.
  rewrite !(lookup_insert_ne _ _ 0), lookup_insert_eq by done. cbn.
  rewrite Hall by (rewrite ?elem_of_cons; tauto). cbn.
  unfold frag, kernel. rewrite (consistent_program _ _ _ HC). reflexivity.
Qed.

(** The draw writes no texture but the write side of the transform
    buffer. *)
Lemma dispatch_other PC p gl mx my pressed name :
  Consistent PC p gl → name ≠ getWrite (transformTexture p) →
  gl_textures (dispatch p mx my pressed gl) !! name = gl_textures gl !! name.
Proof.
  intros HC Hne. rewrite (dispatch_textures _ _ _ _ _ _ HC).
  apply lookup_insert_ne. congruence.
Qed.

Lemma renderTarget_square S frag out t :
  square_texture S t → square_texture S (renderTarget frag out t).
Proof.
  intros (Hw & Hh & Hlen). unfold square_texture, renderTarget. cbn.
  rewrite length_imap. auto.
Qed.

(** The read sides are not written by the draw. *)
Lemma dispatch_read PC p gl mx my pressed db :
  Consistent PC p gl → db ∈ buffers p →
  gl_textures (dispatch p mx my pressed gl) !! getRead db
  = gl_textures gl !! getRead db.
Proof.
  intros HC Hin. pose proof (Consistent_distinct _ _ _ HC) as Hd.
  cbv zeta in Hd. destruct_and!.
  apply (dispatch_other _ _ _ _ _ _ _ HC). unfold getWrite, getRead.
  unfold buffers, textures in Hin. cbn in Hin.
  repeat (apply elem_of_cons in Hin as [-> | Hin]);
    [.. | by apply elem_of_nil in Hin]; congruence.
Qed.

(** The write side of the transform buffer holds what the kernel rendered
    into it; the write sides of the colour and the property buffer are as
    they were. *)
Lemma dispatch_write PC p gl mx my pressed :
  Consistent PC p gl →
  let frag := kernel p gl mx my pressed in
  let T := gl_textures (dispatch p mx my pressed gl) in
  T !! getWrite (transformTexture p)
    = Some (renderTarget frag transformOut
              (storage gl (getWrite (transformTexture p)))) ∧
  T !! getWrite (colorTexture p) = gl_textures gl !! getWrite (colorTexture p) ∧
  T !! getWrite (propertyTexture p)
    = gl_textures gl !! getWrite (propertyTexture p).
Proof.
  intros HC frag T. pose proof (Consistent_distinct _ _ _ HC) as Hd.
  cbv zeta in Hd. destruct_and!.
  unfold T. split_and!.
  - rewrite (dispatch_textures _ _ _ _ _ _ HC). apply lookup_insert_eq.
  - apply (dispatch_other _ _ _ _ _ _ _ HC). unfold getWrite. congruence.
  - apply (dispatch_other _ _ _ _ _ _ _ HC). unfold getWrite. congruence.
Qed.

(** [update] keeps the simulation consistent. *)
Lemma update_Consistent PC p gl mx my pressed :
  Consistent PC p gl →
  Consistent PC (update p mx my pressed gl).1 (update p mx my pressed gl).2.
Proof.
  intros HC. pose proof (Consistent_distinct _ _ _ HC) as Hd. cbv zeta in Hd.
  destruct_and!.
  assert (Hall : ∀ name, name ∈ names p →
            gl_textures gl !! name = Some (storage gl name) ∧
            square_texture (textureSize p) (storage gl name)).
  { intros name Hin. apply (Consistent_storage _ _ _ _ HC Hin). }
  rewrite names_six in Hall.
  destruct (dispatch_write _ _ _ mx my pressed HC) as (HwT & HwC & HwP).
  pose proof (dispatch_read _ _ _ mx my pressed (transformTexture p) HC) as HrT.
  pose proof (dispatch_read _ _ _ mx my pressed (colorTexture p) HC) as HrC.
  pose proof (dispatch_read _ _ _ mx my pressed (propertyTexture p) HC) as HrP.
  unfold buffers, textures in HrT, HrC, HrP. cbn in HrT, HrC, HrP.
  rewrite !elem_of_cons in HrT, HrC, HrP.
  unfold getRead, getWrite in *.
  unfold update. cbn [fst snd]. split.
  - apply (consistent_side _ _ _ HC).
  - apply (consistent_program _ _ _ HC).
  - rewrite names_six. cbn.
    repeat (apply NoDup_cons; split;
            [rewrite ?not_elem_of_cons; split_and?;
             first [apply not_elem_of_nil | congruence] |]).
    apply NoDup_nil_2.
  - intros name Hin. rewrite names_six in Hin. cbn in Hin.
    change (textureSize (swapAll (publish p))) with (textureSize p).
    repeat (apply elem_of_cons in Hin as [-> | Hin]);
      [.. | by apply elem_of_nil in Hin].
    + eexists. split; [exact HwT |].
      apply renderTarget_square, Hall. rewrite !elem_of_cons. tauto.
    + rewrite HrT by tauto. eexists. apply Hall. rewrite !elem_of_cons. tauto.
    + rewrite HwC. eexists. apply Hall. rewrite !elem_of_cons. tauto.
    + rewrite HrC by tauto. eexists. apply Hall. rewrite !elem_of_cons. tauto.
    + rewrite HwP. eexists. apply Hall. rewrite !elem_of_cons. tauto.
    + rewrite HrP by tauto. eexists. apply Hall. rewrite !elem_of_cons. tauto.
  - reflexivity.
Qed.

Lemma run_Consistent PC pointer : ∀ s,
  Consistent PC s.1 s.2 → Consistent PC (run s pointer).1 (run s pointer).2.
Proof.
  induction pointer as [| [[mx my] pressed] pointer IH]; intros s HC; [exact HC |].
  cbn. apply IH, update_Consistent, HC.
Qed.

Lemma run_app s pointer pointer' :
  run s (pointer ++ pointer') = run (run s pointer) pointer'.
Proof. apply fold_left_app. Qed.

End Step.

(** ** Particle records *)

Section Records.
Local Open Scope Z_scope.

Lemma index_coordinates (S i : Z) :
  0 < S → 0 ≤ i < S * S →
  Z.rem i S = i mod S ∧ Z.quot i S = i / S ∧
  0 ≤ i mod S < S ∧ 0 ≤ i / S < S ∧ i / S * S + i mod S = i.
Proof.
  intros HS Hi.
  rewrite Z.rem_mod_nonneg, Z.quot_div_nonneg by lia.
  pose proof (Z.mod_pos_bound i S HS).
  pose proof (Z.div_mod i S ltac:(lia)).
  assert (i / S < S) by (apply Z.div_lt_upper_bound; lia).
  assert (0 ≤ i / S) by (apply Z.div_pos; lia).
  split_and!; try reflexivity; lia.
Qed.

(** In a square texture of the shader's side, [fetchFromIndex] reads texel
    [index] of the array. *)
Lemma fetchFromIndex_texel (S : Z) (t : Texture) (i : Z) :
  square_texture S t → 0 < S → 0 ≤ i < S * S →
  fetchFromIndex S t i = default zero4 (texels t !! Z.to_nat i).
Proof.
  intros (Hw & Hh & _) HS Hi.
  destruct (index_coordinates S i HS Hi) as (Hrem & Hquot & Hx & Hy & Hsum).
  unfold fetchFromIndex, texelFetch. rewrite Hrem, Hquot, Hw, Hh.
  destruct (Z.leb_spec 0 (i mod S)); [| lia].
  destruct (Z.ltb_spec (i mod S) S); [| lia].
  destruct (Z.leb_spec 0 (i / S)); [| lia].
  destruct (Z.ltb_spec (i / S) S); [| lia].
  cbn. rewrite Hsum. reflexivity.
Qed.

Lemma getParticleState_fetch (p : Particles) (gl : GL) (i : Z) (name : nat) t :
  gl_textures gl !! name = Some t →
  square_texture (textureSize p) t → 0 < textureSize p →
  getParticleState p gl i name = Some (fetchFromIndex (textureSize p) t i).
Proof.
  intros Ht (Hw & Hh & _) HS. unfold getParticleState. rewrite Ht. cbn.
  rewrite Hw, Hh. destruct (Z.ltb_spec 0 (textureSize p)); [| lia].
  reflexivity.
Qed.

Lemma particle_Some (p : Particles) (gl : GL) (name : nat) (i : Z) (v : vec4) :
  getParticleState p gl i name = Some v → particle p gl name i = v.
Proof. intros H. unfold particle. rewrite H. reflexivity. Qed.

(** The fragment of pixel ([i mod S], [i / S]) is the one of index [i]. *)
Lemma main_at_index PC S mouse tT tC tP (i : Z) :
  0 < S → 0 ≤ i < S * S → i ≤ PC →
  main PC S mouse tT tC tP (i mod S) (i / S)
  = Some {| transformOut := updateTransform PC S mouse tT tC tP i;
            colorOut := getColor S tC i;
            propertyOut := getProperties S tP i |}.
Proof.
  intros HS Hi Hle.
  destruct (index_coordinates S i HS Hi) as (_ & _ & _ & _ & Hsum).
  unfold main. rewrite Hsum.
  destruct (Z.gtb_spec i PC); [lia | reflexivity].
Qed.

Lemma renderTarget_texel (S : Z) frag out (t : Texture) (i : Z) :
  square_texture S t → 0 < S → 0 ≤ i < S * S →
  texels (renderTarget frag out t) !! Z.to_nat i
  = Some match frag (i mod S) (i / S) with
         | Some o => out o
         | None => default zero4 (texels t !! Z.to_nat i)
         end.
Proof.
  intros (Hw & _ & Hlen) HS Hi. unfold renderTarget. cbn.
  rewrite list_lookup_imap, Hw, Z2Nat.id by lia.
  destruct (lookup_lt_is_Some_2 (texels t) (Z.to_nat i)) as [old Hold]; [lia |].
  rewrite Hold. reflexivity.
Qed.

(** The Transform record [update] publishes for an index the kernel
    processes: the one computed by [updateTransform] from the records
    published before. *)
Lemma update_particle PC p gl mx my pressed (i : Z) :
  Consistent PC p gl →
  0 ≤ i → i ≤ PC → i < textureSize p * textureSize p →
  let s' := update p mx my pressed gl in
  getParticleState s'.1 s'.2 i (textureTransform s'.1)
    = Some (updateTransform PC (textureSize p) (Vec3 mx my pressed)
              (storage gl (textureTransform p)) (storage gl (textureColor p))
              (storage gl (textureProperties p)) i) ∧
  is_Some (getParticleState p gl i (textureTransform p)) ∧
  is_Some (getParticleState p gl i (textureColor p)) ∧
  is_Some (getParticleState p gl i (textureProperties p)).
Proof.
  intros HC Hi0 HiPC HiS s'.
  pose proof (consistent_side _ _ _ HC) as HS.
  pose proof (consistent_published _ _ _ HC) as Hpub.
  injection Hpub as HpT HpC HpP.
  assert (Hall : ∀ name, name ∈ names p →
            gl_textures gl !! name = Some (storage gl name) ∧
            square_texture (textureSize p) (storage gl name)).
  { intros name Hin. apply (Consistent_storage _ _ _ _ HC Hin). }
  rewrite names_six in Hall.
  destruct (dispatch_write _ _ _ mx my pressed HC) as (HwT & _ & _).
  unfold getRead, getWrite in *.
  assert (Hsq : square_texture (textureSize p)
                  (storage gl (write (transformTexture p)))).
  { apply Hall. rewrite !elem_of_cons. tauto. }
  assert (Hframe : kernel p gl mx my pressed (i mod textureSize p) (i / textureSize p)
          = Some {| transformOut :=
                      updateTransform PC (textureSize p) (Vec3 mx my pressed)
                        (storage gl (textureTransform p))
                        (storage gl (textureColor p))
                        (storage gl (textureProperties p)) i;
                    colorOut :=
                      getColor (textureSize p) (storage gl (textureColor p)) i;
                    propertyOut :=
                      getProperties (textureSize p)
                        (storage gl (textureProperties p)) i |}).
  { unfold kernel, getRead. rewrite (consistent_program _ _ _ HC). cbn.
    rewrite <- HpT, <- HpC, <- HpP. apply main_at_index; lia. }
  unfold s', update. cbn [fst snd swapAll publish textureTransform textureColor
                          textureProperties textureSize getWrite].
  split_and!.
  - rewrite (getParticleState_fetch _ _ _ _ _ HwT)
      by (try apply renderTarget_square; assumption).
    change (textureSize (swapAll (publish p))) with (textureSize p).
    rewrite (fetchFromIndex_texel (textureSize p))
      by (try apply renderTarget_square; try exact Hsq; lia).
    rewrite (renderTarget_texel (textureSize p)) by (try exact Hsq; lia).
    rewrite Hframe. reflexivity.
  - rewrite HpT. erewrite getParticleState_fetch; [eauto | | | exact HS];
      apply Hall; rewrite !elem_of_cons; tauto.
  - rewrite HpC. erewrite getParticleState_fetch; [eauto | | | exact HS];
      apply Hall; rewrite !elem_of_cons; tauto.
  - rewrite HpP. erewrite getParticleState_fetch; [eauto | | | exact HS];
      apply Hall; rewrite !elem_of_cons; tauto.
Qed.

Lemma storage_Some (gl : GL) (name : nat) (t : Texture) :
  gl_textures gl !! name = Some t → storage gl name = t.
Proof. intros H. unfold storage. rewrite H. reflexivity. Qed.

(** Outside a texture, and in a texture without storage, a fetch gives the
    zero record. *)
Lemma texelFetch_outside (t : Texture) (x y : Z) :
  ¬ (0 ≤ x < tex_width t ∧ 0 ≤ y < tex_height t) →
  texelFetch t (x, y) = zero4.
Proof.
  intros Hout. unfold texelFetch.
  destruct (Z.leb_spec 0 x); cbn; [| reflexivity].
  destruct (Z.ltb_spec x (tex_width t)); cbn; [| reflexivity].
  destruct (Z.leb_spec 0 y); cbn; [| reflexivity].
  destruct (Z.ltb_spec y (tex_height t)); cbn; [lia | reflexivity].
Qed.

(** [particle] reads the storage of the texture at the index; where
    [getParticleState] throws there is nothing to fetch either. *)
Lemma particle_storage (p : Particles) (gl : GL) (name : nat) (k : Z) :
  particle p gl name k = fetchFromIndex (textureSize p) (storage gl name) k.
Proof.
  unfold particle, getParticleState, storage, fetchFromIndex.
  destruct (gl_textures gl !! name) as [t |]; cbn [mbind option_bind default].
  - destruct (Z.ltb_spec 0 (tex_width t)); cbn [andb negb].
    + destruct (Z.ltb_spec 0 (tex_height t)); cbn [andb negb default];
        [reflexivity |].
      symmetry. apply texelFetch_outside. unfold Datatypes.id. lia.
    + symmetry. apply texelFetch_outside. unfold Datatypes.id. lia.
  - symmetry. apply texelFetch_outside. cbn. lia.
Qed.

Lemma run_fields pointer : ∀ s,
  textureSize (run s pointer).1 = textureSize s.1 ∧
  count (run s pointer).1 = count s.1.
Proof.
  induction pointer as [| [[mx my] pressed] pointer IH]; intros s; [auto |].
  destruct (IH (update s.1 mx my pressed s.2)) as [HS HN].
  change (run s ((mx, my, pressed) :: pointer))
    with (run (update s.1 mx my pressed s.2) pointer).
  rewrite HS, HN. auto.
Qed.

End Records.

(** ** The seeded circle and the lone particle *)

Section Seeded.
Local Open Scope R_scope.

Lemma length2_half_circle (a : R) :
  length2 (Vec2 (sin a / 2) (cos a / 2)) = 0.5.
Proof.
  unfold length2. cbn [x2 y2].
  pose proof (sin2_cos2 a) as H. unfold Rsqr in H.
  replace (sin a / 2 * (sin a / 2) + cos a / 2 * (cos a / 2))
    with (0.5 * 0.5) by (field_simplify; nra).
  apply sqrt_square. lra.
Qed.

(** The Transform record of a seeded particle, in both copies of the
    transform texture. *)
Lemma seeded_transform PARTICLE_COUNT hsv gl0 N p gl1 (i : Z) name :
  createParticles PARTICLE_COUNT hsv gl0 N = Some (p, gl1) →
  (0 ≤ i < N)%Z →
  name = getRead (transformTexture p) ∨ name = getWrite (transformTexture p) →
  getParticleState p gl1 i name
  = Some (Vec4 (sin (IZR i / IZR N * PI * 2) / 2)
               (cos (IZR i / IZR N * PI * 2) / 2) 0 0).
Proof.
  intros Hcreate Hi Hname.
  apply createParticles_Some in Hcreate as (HS & _ & _ & _ & Hnd & HT).
  apply initialTextureSize_positive in HS as [HS Hroom].
  assert (HS0 : (0 < textureSize p)%Z) by (clear - HS; lia).
  assert (Hi0 : (0 ≤ i < textureSize p * textureSize p)%Z)
    by (clear - Hi Hroom; lia).
  assert (Hlook : gl_textures gl1 !! name
                  = Some (seededTexture (textureSize p) (initTransform N))).
  { rewrite names_six in Hnd. apply six_distinct in Hnd. destruct_and!.
    rewrite HT. unfold getRead, getWrite in Hname.
    destruct Hname as [-> | ->];
      repeat first [ apply lookup_insert_eq
                   | rewrite lookup_insert_ne by congruence ]. }
  rewrite (getParticleState_fetch _ _ _ _ _ Hlook (seededTexture_square _ _) HS0).
  rewrite (fetchFromIndex_texel (textureSize p) _ i
             (seededTexture_square _ _) HS0 Hi0).
  unfold seededTexture. cbn [texels].
  rewrite list_lookup_fmap, lookup_seq_lt by lia. cbn.
  f_equal. apply seedData_texel; [lia | |].
  - intros j Hj. unfold initTransform.
    destruct (Z.ltb_spec j N); [eauto | lia].
  - unfold initTransform. destruct (Z.ltb_spec i N); [reflexivity | lia].
Qed.

(** C8: every seeded particle [0 ≤ i < N] starts, in both copies of the
    transform texture, at [(sin(2π·i/N)/2, cos(2π·i/N)/2)], a point at
    distance 0.5 from the origin, with velocity (0, 0); the texture
    published at creation is the read copy. *)
Theorem seeded_on_circle PARTICLE_COUNT hsv gl0 N p gl1 (i : Z) :
  createParticles PARTICLE_COUNT hsv gl0 N = Some (p, gl1) →
  (0 ≤ i < N)%Z →
  let angle := 2 * PI * IZR i / IZR N in
  let seed := Vec4 (sin angle / 2) (cos angle / 2) 0 0 in
  getParticleState p gl1 i (getRead (transformTexture p)) = Some seed ∧
  getParticleState p gl1 i (getWrite (transformTexture p)) = Some seed ∧
  textureTransform p = getRead (transformTexture p) ∧
  length2 (xy seed) = 0.5 ∧
  zw seed = Vec2 0 0.
Proof.
  intros Hcreate Hi angle seed.
  assert (Hangle : IZR i / IZR N * PI * 2 = angle).
  { unfold angle. field. apply not_0_IZR. lia. }
  pose proof (seeded_transform _ _ _ _ _ _ i (getRead (transformTexture p))
                Hcreate Hi (or_introl eq_refl)) as Hr.
  pose proof (seeded_transform _ _ _ _ _ _ i (getWrite (transformTexture p))
                Hcreate Hi (or_intror eq_refl)) as Hw.
  rewrite Hangle in Hr, Hw.
  split_and!; [exact Hr | exact Hw | | apply length2_half_circle | reflexivity].
  apply createParticles_Some in Hcreate as (_ & _ & _ & Hpub & _).
  injection Hpub as HpT _ _. exact HpT.
Qed.

Lemma seeded_on_circle_witness :
  ∃ p gl1,
    createParticles 4 all_red freshContext 4 = Some (p, gl1) ∧
    (0 ≤ 1 < 4)%Z ∧
    getParticleState p gl1 1 (getRead (transformTexture p))
    = Some (Vec4 (sin (2 * PI * 1 / 4) / 2) (cos (2 * PI * 1 / 4) / 2) 0 0).
Proof.
  destruct (createParticles_fresh 4 all_red 4)
    as [[p gl1] Hcreate].
  exists p, gl1. split; [exact Hcreate |]. split; [lia |].
  apply (seeded_on_circle 4 all_red freshContext 4 p gl1 1 Hcreate).
  lia.
Defined.

End Seeded.

(** ** More on the seeded textures *)

Section SeededTextures.

(** Once [init] is undefined at [m] the loop has ended: no float from
    offset [4m] on is stored. *)
Lemma seedLoop_stops init (n : nat) : ∀ i data (m : Z) (pos : nat),
  (0 ≤ i ≤ m)%Z → init m = None → (4 * Z.to_nat m ≤ pos)%nat →
  seedLoop init n i data !! pos = data !! pos.
Proof.
  induction n as [| n IH]; intros i data m pos Him Hm Hpos; [reflexivity |].
  cbn [seedLoop]. destruct (init i) as [[[[a0 a1] a2] a3] |] eqn:Hi;
    [| reflexivity].
  assert (i ≠ m) by congruence.
  cbv zeta. rewrite (IH _ _ m) by (try assumption; lia).
  rewrite seed_stores by lia.
  rewrite !list_lookup_insert_ne by lia. reflexivity.
Qed.

Lemma texelAt_zeros (n k : nat) : texelAt (replicate n 0%R) k = zero4.
Proof.
  unfold texelAt, zero4.
  assert (H : ∀ pos, default 0%R (replicate n 0%R !! pos) = 0%R).
  { intros pos. destruct (replicate n 0%R !! pos) as [v |] eqn:Hv; [| reflexivity].
    apply lookup_replicate in Hv as [-> _]. reflexivity. }
  rewrite !H. reflexivity.
Qed.

Lemma seedData_stops (size : Z) init (m k : Z) :
  (0 ≤ m ≤ k)%Z → init m = None →
  texelAt (seedData size init) (Z.to_nat k) = zero4.
Proof.
  intros Hmk Hm. rewrite <- (texelAt_zeros (Z.to_nat (size * size * 4)) (Z.to_nat k)).
  unfold seedData, texelAt.
  rewrite !(seedLoop_stops init _ _ _ m) by (try assumption; lia).
  reflexivity.
Qed.

Lemma seededTexture_texel (size : Z) init (k : Z) :
  (0 ≤ k < size * size)%Z →
  texels (seededTexture size init) !! Z.to_nat k
  = Some (texelAt (seedData size init) (Z.to_nat k)).
Proof.
  intros Hk. unfold seededTexture. cbn [texels].
  rewrite list_lookup_fmap, lookup_seq_lt by lia. reflexivity.
Qed.

Lemma seededTexture_fetch (size : Z) init (k : Z) :
  (0 < size)%Z → (0 ≤ k < size * size)%Z →
  fetchFromIndex size (seededTexture size init) k
  = texelAt (seedData size init) (Z.to_nat k).
Proof.
  intros Hsize Hk.
  rewrite (fetchFromIndex_texel size _ k (seededTexture_square _ _) Hsize Hk).
  rewrite seededTexture_texel by exact Hk. reflexivity.
Qed.

Lemma createDoubleBufferTexture_storage size init gl db gl' :
  createDoubleBufferTexture size init gl = Some (db, gl') →
  let made := if gl_contextLost gl then MkTexture 0 0 []
              else seededTexture size init in
  (0 ≤ size)%Z →
  gl_textures gl' !! getRead db = Some made ∧
  gl_textures gl' !! getWrite db = Some made.
Proof.
  intros H made Hsize.
  apply createDoubleBufferTexture_Some in H
    as (_ & _ & Hne & _ & _ & t & HT & Hlive & Hlost).
  assert (Ht : t = made).
  { unfold made. destruct (gl_contextLost gl); auto. }
  subst t. unfold getRead, getWrite. rewrite HT.
  rewrite lookup_insert_ne, !lookup_insert_eq by congruence. auto.
Qed.

(** X7: a double buffer that [createDoubleBufferTexture] returns is made
    of two new textures, different from each other; on a live context both
    hold the seeded array, on a lost context (where [createTexture] still
    returns objects and the call does not throw) neither has storage; every
    texture that existed before is left as it was. *)
Theorem createDoubleBufferTexture_outcome size init gl db gl' :
  createDoubleBufferTexture size init gl = Some (db, gl') →
  (0 ≤ size)%Z →
  let made := if gl_contextLost gl then MkTexture 0 0 []
              else seededTexture size init in
  gl_textures gl !! getRead db = None ∧
  gl_textures gl !! getWrite db = None ∧
  getRead db ≠ getWrite db ∧
  gl_textures gl' !! getRead db = Some made ∧
  gl_textures gl' !! getWrite db = Some made ∧
  (∀ name t, gl_textures gl !! name = Some t →
             gl_textures gl' !! name = Some t).
Proof.
  intros H Hsize made.
  destruct (createDoubleBufferTexture_storage _ _ _ _ _ H Hsize) as [Hr Hw].
  apply createDoubleBufferTexture_Some in H
    as (Hfr & Hfw & Hne & _ & _ & t & HT & _).
  unfold getRead, getWrite in *.
  split_and!; try assumption.
  intros name t' Hname. rewrite HT.
  rewrite !lookup_insert_ne by congruence. exact Hname.
Qed.

Lemma createDoubleBufferTexture_outcome_witness :
  let init := λ i : Z, Some (IZR i, 0%R, 0%R, 1%R) in
  ∃ db gl',
    createDoubleBufferTexture 2 init freshContext = Some (db, gl') ∧ (0 ≤ 2)%Z ∧
    getRead db ≠ getWrite db ∧
    gl_textures gl' !! getRead db = Some (seededTexture 2 init) ∧
    gl_textures gl' !! getWrite db = Some (seededTexture 2 init).
Proof.
  intros init.
  destruct (createDoubleBufferTexture_total 2 init freshContext eq_refl)
    as [[db gl'] H].
  exists db, gl'. split; [exact H |]. split; [lia |].
  destruct (createDoubleBufferTexture_outcome 2 init freshContext db gl' H
              ltac:(lia)) as (_ & _ & Hne & Hr & Hw & _).
  split; [exact Hne |]. split; [exact Hr | exact Hw].
Defined.

(** X8: the seeding loop ends at the first index for which [init] returns
    nothing: from that index on both textures hold the zero record, also
    where [init] would be defined again. *)
Theorem seeding_stops_at_first_gap size init gl db gl' (m k : Z) :
  createDoubleBufferTexture size init gl = Some (db, gl') →
  (0 < size)%Z → (0 ≤ m ≤ k)%Z → (k < size * size)%Z → init m = None →
  fetchFromIndex size (storage gl' (getRead db)) k = zero4 ∧
  fetchFromIndex size (storage gl' (getWrite db)) k = zero4.
Proof.
  intros H Hsize Hmk Hk Hm.
  destruct (createDoubleBufferTexture_storage _ _ _ _ _ H ltac:(lia)) as [Hr Hw].
  rewrite (storage_Some _ _ _ Hr), (storage_Some _ _ _ Hw).
  destruct (gl_contextLost gl).
  - split; unfold fetchFromIndex; apply texelFetch_outside; cbn; lia.
  - rewrite seededTexture_fetch by lia.
    split; apply (seedData_stops size init m k); assumption.
Qed.

Lemma seeding_stops_at_first_gap_witness :
  let init := λ i : Z, if (i =? 1)%Z then None else Some (1%R, 1%R, 1%R, 1%R) in
  ∃ db gl',
    createDoubleBufferTexture 2 init freshContext = Some (db, gl') ∧
    (0 < 2)%Z ∧ (0 ≤ 1 ≤ 3)%Z ∧ (3 < 2 * 2)%Z ∧ init 1%Z = None ∧
    init 3%Z = Some (1%R, 1%R, 1%R, 1%R) ∧
    fetchFromIndex 2 (storage gl' (getRead db)) 3 = zero4.
Proof.
  intros init.
  destruct (createDoubleBufferTexture_total 2 init freshContext eq_refl)
    as [[db gl'] H].
  exists db, gl'. split; [exact H |].
  split; [lia |]. split; [lia |]. split; [lia |].
  split; [reflexivity |]. split; [reflexivity |].
  apply (seeding_stops_at_first_gap 2 init freshContext db gl' 1 3 H);
    first [lia | reflexivity].
Defined.

(** The textures behind the six names after [createParticles]. *)
Lemma createParticles_storage PARTICLE_COUNT hsv gl N p gl' :
  createParticles PARTICLE_COUNT hsv gl N = Some (p, gl') →
  let S := textureSize p in
  (0 < S)%Z ∧ (N ≤ S * S)%Z ∧
  storage gl' (read (transformTexture p)) = seededTexture S (initTransform N) ∧
  storage gl' (write (transformTexture p)) = seededTexture S (initTransform N) ∧
  storage gl' (read (colorTexture p)) = seededTexture S (initColor hsv N) ∧
  storage gl' (write (colorTexture p)) = seededTexture S (initColor hsv N) ∧
  storage gl' (read (propertyTexture p)) = seededTexture S (initProperties N) ∧
  storage gl' (write (propertyTexture p)) = seededTexture S (initProperties N).
Proof.
  intros H S.
  apply createParticles_Some in H as (HS & _ & _ & _ & Hnd & HT).
  apply initialTextureSize_positive in HS as [HS Hroom].
  split; [unfold S; lia |]. split; [exact Hroom |].
  rewrite names_six in Hnd. apply six_distinct in Hnd. destruct_and!.
  unfold storage. rewrite HT.
  split_and!;
    repeat first [ rewrite lookup_insert_eq
                 | rewrite lookup_insert_ne by congruence ];
    reflexivity.
Qed.

Lemma createParticles_published PARTICLE_COUNT hsv gl N p gl' :
  createParticles PARTICLE_COUNT hsv gl N = Some (p, gl') →
  textureTransform p = read (transformTexture p) ∧
  textureColor p = read (colorTexture p) ∧
  textureProperties p = read (propertyTexture p).
Proof.
  intros H. apply createParticles_Some in H as (_ & _ & _ & Hpub & _).
  injection Hpub as H1 H2 H3. auto.
Qed.

Lemma getParticleState_storage PC p gl name (i : Z) :
  Consistent PC p gl → name ∈ names p →
  getParticleState p gl i name
  = Some (fetchFromIndex (textureSize p) (storage gl name) i).
Proof.
  intros HC Hin.
  destruct (Consistent_storage _ _ _ _ HC Hin) as [Hlook Hsq].
  apply (getParticleState_fetch _ _ _ _ _ Hlook Hsq (consistent_side _ _ _ HC)).
Qed.

Lemma getParticleState_particle PC p gl name (i : Z) :
  Consistent PC p gl → name ∈ names p →
  getParticleState p gl i name = Some (particle p gl name i).
Proof.
  intros HC Hin.
  rewrite (getParticleState_storage _ _ _ _ _ HC Hin), particle_storage.
  reflexivity.
Qed.

(** X9: at creation every particle [0 ≤ i < N] gets the colour chroma-js
    returns for the hue [i/N * 360] at saturation 0.9 and value 1, with
    alpha 1, and the properties (0.00001, 0, 0, 0): gravity 0.00001 and
    radius 0. *)
Theorem seeded_color_and_properties PARTICLE_COUNT hsv gl N p gl' (i : Z) :
  createParticles PARTICLE_COUNT hsv gl N = Some (p, gl') →
  (0 ≤ i < N)%Z →
  let rgb := hsv (IZR i / IZR N * 360)%R 0.9%R 1%R in
  getParticleState p gl' i (textureColor p)
    = Some (Vec4 rgb.1.1 rgb.1.2 rgb.2 1) ∧
  getParticleState p gl' i (textureProperties p)
    = Some (Vec4 0.00001 0 0 0).
Proof.
  intros H Hi rgb.
  pose proof (createParticles_Consistent _ _ _ _ _ _ H) as HC.
  destruct (createParticles_published _ _ _ _ _ _ H) as (_ & -> & ->).
  destruct (createParticles_storage _ _ _ _ _ _ H)
    as (HS & Hroom & _ & _ & HrC & _ & HrP & _).
  rewrite !(getParticleState_storage _ _ _ _ _ HC)
    by (rewrite names_six, !elem_of_cons; tauto).
  rewrite HrC, HrP, !seededTexture_fetch by lia.
  split; f_equal.
  - apply seedData_texel; [lia | |].
    + intros j Hj. unfold initColor. destruct (Z.ltb_spec j N); [| lia].
      destruct (hsv (IZR j / IZR N * 360)%R 0.9%R 1%R) as [[r g] b]. eauto.
    + unfold initColor. destruct (Z.ltb_spec i N); [| lia].
      subst rgb. destruct (hsv (IZR i / IZR N * 360)%R 0.9%R 1%R) as [[r g] b].
      reflexivity.
  - apply seedData_texel; [lia | |].
    + intros j Hj. unfold initProperties. destruct (Z.ltb_spec j N); [eauto | lia].
    + unfold initProperties. destruct (Z.ltb_spec i N); [reflexivity | lia].
Qed.

Lemma seeded_color_and_properties_witness :
  ∃ p gl',
    createParticles 4 all_red freshContext 4 = Some (p, gl') ∧ (0 ≤ 3 < 4)%Z ∧
    getParticleState p gl' 3 (textureColor p) = Some (Vec4 1 0 0 1) ∧
    getParticleState p gl' 3 (textureProperties p) = Some (Vec4 0.00001 0 0 0).
Proof.
  destruct (createParticles_fresh 4 all_red 4)
    as [[p gl'] H].
  exists p, gl'. split; [exact H |]. split; [lia |].
  apply (seeded_color_and_properties 4 all_red freshContext 4 p gl' 3 H). lia.
Defined.

(** The cells from index [N] on, in the six textures, at creation. *)
Lemma seeded_inactive_cells PARTICLE_COUNT hsv gl N p gl' (i : Z) name :
  createParticles PARTICLE_COUNT hsv gl N = Some (p, gl') →
  (0 ≤ i)%Z → (N ≤ i)%Z → (i < textureSize p * textureSize p)%Z →
  name ∈ names p →
  fetchFromIndex (textureSize p) (storage gl' name) i = zero4.
Proof.
  intros H Hi0 HiN HiS Hin.
  destruct (createParticles_storage _ _ _ _ _ _ H)
    as (HS & Hroom & HrT & HwT & HrC & HwC & HrP & HwP).
  rewrite names_six in Hin.
  repeat (apply elem_of_cons in Hin as [-> | Hin]);
    [.. | by apply elem_of_nil in Hin].
  all: first [rewrite HrT | rewrite HwT | rewrite HrC | rewrite HwC
             | rewrite HrP | rewrite HwP].
  all: rewrite seededTexture_fetch by lia.
  all: apply (seedData_stops _ _ i i); [lia |].
  all: unfold initTransform, initColor, initProperties.
  all: destruct (Z.ltb_spec i N); [lia | reflexivity].
Qed.

(** X10: at creation the cells of the grid from index [N] on hold the zero
    record in all three textures, in both copies: no position, no velocity,
    colour with alpha 0, gravity 0. *)
Theorem seeded_inactive_zero PARTICLE_COUNT hsv gl N p gl' (i : Z) :
  createParticles PARTICLE_COUNT hsv gl N = Some (p, gl') →
  (0 ≤ i)%Z → (N ≤ i)%Z → (i < textureSize p * textureSize p)%Z →
  Forall (λ name, getParticleState p gl' i name = Some zero4) (names p) ∧
  Forall (λ name, name ∈ names p) (published p).
Proof.
  intros H Hi0 HiN HiS.
  pose proof (createParticles_Consistent _ _ _ _ _ _ H) as HC.
  destruct (createParticles_published _ _ _ _ _ _ H) as (HpT & HpC & HpP).
  split.
  - apply Forall_forall. intros name Hin.
    rewrite (getParticleState_storage _ _ _ _ _ HC Hin). f_equal.
    apply (seeded_inactive_cells _ _ _ _ _ _ _ _ H); assumption.
  - unfold published. rewrite HpT, HpC, HpP, names_six.
    repeat (apply Forall_cons; split; [rewrite !elem_of_cons; tauto |]).
    apply Forall_nil_2.
Qed.

Lemma seeded_inactive_zero_witness :
  ∃ p gl',
    createParticles 3 all_red freshContext 3 = Some (p, gl') ∧
    (0 ≤ 3)%Z ∧ (3 ≤ 3)%Z ∧ (3 < textureSize p * textureSize p)%Z ∧
    Forall (λ name, getParticleState p gl' 3 name = Some zero4) (names p).
Proof.
  destruct (createParticles_fresh 3 all_red 3)
    as [[p gl'] H].
  exists p, gl'. split; [exact H |].
  assert (HS : textureSize p = 2%Z).
  { apply createParticles_Some in H as (HS & _).
    assert (Hrun : initialTextureSize 3 = Some 2%Z) by reflexivity.
    congruence. }
  split; [lia |]. split; [lia |]. split; [rewrite HS; lia |].
  apply (seeded_inactive_zero 3 all_red freshContext 3 p gl' 3 H);
    rewrite ?HS; lia.
Defined.

(** X11: on a texture of the simulation [getParticleState] returns texel
    [index] of the texture for an index of the grid, and the zero record
    for an index outside the grid, below 0 or from [S * S] on: the pixel
    asked for lies outside the framebuffer, [readPixels] writes nothing and
    [output] keeps its zeros.  The statement is for an index that
    JavaScript represents exactly and divides exactly (below 2^53 in
    absolute value), and for a row and a column that fit in the 32-bit
    integers [readPixels] takes. *)
Theorem getParticleState_edges PC p gl (tex : nat) (index : Z) :
  Consistent PC p gl → tex ∈ names p →
  let S := textureSize p in
  (- 2 ^ 53 < index < 2 ^ 53)%Z →
  (S ≤ 2 ^ 31)%Z → (- 2 ^ 31 ≤ Z.quot index S < 2 ^ 31)%Z →
  ((0 ≤ index < S * S)%Z →
   getParticleState p gl index tex
   = Some (default zero4 (texels (storage gl tex) !! Z.to_nat index))) ∧
  ((index < 0 ∨ S * S ≤ index)%Z →
   getParticleState p gl index tex = Some zero4).
Proof.
  intros HC Hin S _ _ _.
  pose proof (consistent_side _ _ _ HC) as HS. fold S in HS.
  destruct (Consistent_storage _ _ _ _ HC Hin) as (Hlook & Hw & Hh & _).
  rewrite (getParticleState_storage _ _ _ _ _ HC Hin). fold S in Hw, Hh |- *.
  split.
  - intros Hidx. f_equal. apply fetchFromIndex_texel; [| exact HS | exact Hidx].
    apply (Consistent_storage _ _ _ _ HC Hin).
  - intros Hout. f_equal. unfold fetchFromIndex, texelFetch. rewrite Hw, Hh.
    destruct Hout as [Hneg | Hbig].
    + pose proof (Z.rem_nonpos index S ltac:(lia) ltac:(lia)) as Hr.
      pose proof (Z.quot_rem index S ltac:(lia)) as Hqr.
      destruct (Z.leb_spec 0 (Z.rem index S)); cbn; [| reflexivity].
      destruct (Z.ltb_spec (Z.rem index S) S); cbn; [| reflexivity].
      destruct (Z.leb_spec 0 (Z.quot index S)); cbn; [| reflexivity].
      exfalso. nia.
    + rewrite Z.rem_mod_nonneg, Z.quot_div_nonneg by nia.
      assert (S ≤ index / S)%Z by (apply Z.div_le_lower_bound; lia).
      destruct (Z.leb_spec 0 (index mod S)); cbn; [| reflexivity].
      destruct (Z.ltb_spec (index mod S) S); cbn; [| reflexivity].
      destruct (Z.leb_spec 0 (index / S)); cbn; [| reflexivity].
      destruct (Z.ltb_spec (index / S) S); cbn; [lia | reflexivity].
Qed.

Lemma getParticleState_edges_witness :
  ∃ p gl,
    createParticles 4 all_red freshContext 4 = Some (p, gl) ∧
    Consistent 4 p gl ∧ textureTransform p ∈ names p ∧
    (- 2 ^ 53 < -1 < 2 ^ 53)%Z ∧
    (textureSize p ≤ 2 ^ 31)%Z ∧
    (- 2 ^ 31 ≤ Z.quot (-1) (textureSize p) < 2 ^ 31)%Z ∧
    getParticleState p gl (-1) (textureTransform p) = Some zero4.
Proof.
  destruct (createParticles_fresh 4 all_red 4) as [[p gl] H].
  exists p, gl. split; [exact H |].
  pose proof (createParticles_Consistent _ _ _ _ _ _ H) as HC.
  destruct (createParticles_published _ _ _ _ _ _ H) as (HpT & _).
  assert (HS : textureSize p = 2%Z).
  { apply createParticles_Some in H as (HS & _).
    assert (Hrun : initialTextureSize 4 = Some 2%Z) by reflexivity.
    congruence. }
  assert (Hin : textureTransform p ∈ names p).
  { rewrite HpT, names_six, !elem_of_cons. tauto. }
  assert (Hside : (textureSize p ≤ 2 ^ 31)%Z) by (rewrite HS; lia).
  assert (Hrow : (- 2 ^ 31 ≤ Z.quot (-1) (textureSize p) < 2 ^ 31)%Z)
    by (rewrite HS; change (Z.quot (-1) 2) with 0%Z; lia).
  assert (Hsafe : (- 2 ^ 53 < -1 < 2 ^ 53)%Z) by lia.
  split; [exact HC |]. split; [exact Hin |]. split; [exact Hsafe |].
  split; [exact Hside |]. split; [exact Hrow |].
  apply (getParticleState_edges 4 p gl (textureTransform p) (-1) HC Hin
           Hsafe Hside Hrow).
  lia.
Defined.

(** X12: what [createDataTexture] uploads on a live context is what
    [getParticleState] reads back: texel [k] of a new square texture of
    side [textureSize] is made of the four floats of the array from offset
    [4k], provided the array holds the [textureSize * textureSize * 4]
    floats of the texture.  With a shorter array the upload is rejected,
    the texture stays without storage and [getParticleState] throws. *)
Theorem createDataTexture_read_back (p : Particles) gl array texture gl' (k : Z) :
  createDataTexture gl array (textureSize p) (textureSize p) = Some (texture, gl') →
  gl_contextLost gl = false →
  (0 < textureSize p)%Z → (0 ≤ k < textureSize p * textureSize p)%Z →
  ((textureSize p * textureSize p * 4 ≤ Z.of_nat (length array))%Z →
   getParticleState p gl' k texture = Some (texelAt array (Z.to_nat k))) ∧
  ((Z.of_nat (length array) < textureSize p * textureSize p * 4)%Z →
   getParticleState p gl' k texture = None).
Proof.
  intros H Hlive HS Hk.
  apply createDataTexture_Some in H as (_ & _ & _ & t & HT & Hok & Hno).
  split.
  - intros Hlen. rewrite Hok in HT by (try assumption; lia).
    erewrite getParticleState_fetch;
      [| rewrite HT; apply lookup_insert_eq | | exact HS].
    + f_equal.
      rewrite (fetchFromIndex_texel (textureSize p)); [| | exact HS | exact Hk].
      * cbn [texels]. rewrite list_lookup_fmap, lookup_seq_lt by lia. reflexivity.
      * unfold square_texture. cbn. rewrite length_fmap, length_seq. auto.
    + unfold square_texture. cbn. rewrite length_fmap, length_seq. auto.
  - intros Hshort. rewrite Hno in HT by auto.
    unfold getParticleState. rewrite HT, lookup_insert_eq. reflexivity.
Qed.

Lemma createDataTexture_read_back_witness :
  let p := MkParticles 1 2 0 0 0 (MkDoubleBuffer 0 1) (MkDoubleBuffer 2 3)
             (MkDoubleBuffer 4 5) (MkProgram 1 2) in
  let array := [0.5; 0.25; 0; 0; 1; 1; 1; 1; 0; 0; 0; 0; 0; 0; 0; 0]%R in
  ∃ texture gl',
    createDataTexture freshContext array (textureSize p) (textureSize p)
    = Some (texture, gl') ∧
    gl_contextLost freshContext = false ∧
    (0 < textureSize p)%Z ∧ (0 ≤ 1 < textureSize p * textureSize p)%Z ∧
    (textureSize p * textureSize p * 4 ≤ Z.of_nat (length array))%Z ∧
    getParticleState p gl' 1 texture = Some (texelAt array (Z.to_nat 1)).
Proof.
  intros p array.
  destruct (createDataTexture_total freshContext array 2 2 eq_refl)
    as [[texture gl'] H].
  exists texture, gl'. split; [exact H |].
  split; [reflexivity |]. split; [reflexivity |]. split; [cbn; lia |].
  split; [cbn; lia |].
  apply (createDataTexture_read_back p freshContext array texture gl' 1 H);
    cbn; first [reflexivity | lia].
Defined.

End SeededTextures.

(** ** More on the simulation step *)

Section StepProperties.

(** The fragment that covers cell [k] of the grid. *)
Lemma main_cell PC S mouse tT tC tP (k : Z) :
  (0 < S)%Z → (0 ≤ k < S * S)%Z →
  main PC S mouse tT tC tP (k mod S) (k / S)
  = if (k >? PC)%Z then None
    else Some {| transformOut := updateTransform PC S mouse tT tC tP k;
                 colorOut := getColor S tC k;
                 propertyOut := getProperties S tP k |}.
Proof.
  intros HS Hk.
  destruct (index_coordinates S k HS Hk) as (_ & _ & _ & _ & Hsum).
  unfold main. rewrite Hsum. reflexivity.
Qed.

(** Cell [k] of the six textures after the draw of [update], in terms of
    the cells before it: the draw changes the write side of the transform
    buffer only. *)
Lemma dispatch_cells PC p gl mx my pressed (k : Z) :
  Consistent PC p gl →
  (0 ≤ k < textureSize p * textureSize p)%Z →
  let gl' := dispatch p mx my pressed gl in
  let rT := read (transformTexture p) in let wT := write (transformTexture p) in
  let rC := read (colorTexture p) in let wC := write (colorTexture p) in
  let rP := read (propertyTexture p) in let wP := write (propertyTexture p) in
  particle p gl' rT k = particle p gl rT k ∧
  particle p gl' rC k = particle p gl rC k ∧
  particle p gl' rP k = particle p gl rP k ∧
  particle p gl' wT k =
    (if (k >? PC)%Z then particle p gl wT k
     else updateTransform PC (textureSize p) (Vec3 mx my pressed)
            (storage gl rT) (storage gl rC) (storage gl rP) k) ∧
  particle p gl' wC k = particle p gl wC k ∧
  particle p gl' wP k = particle p gl wP k.
Proof.
  intros HC Hk gl' rT wT rC wC rP wP.
  pose proof (consistent_side _ _ _ HC) as HS.
  pose proof (Consistent_distinct _ _ _ HC) as Hd. cbv zeta in Hd.
  assert (Hsq : square_texture (textureSize p) (storage gl wT)).
  { apply (Consistent_storage _ _ _ _ HC).
    rewrite names_six, !elem_of_cons. tauto. }
  destruct (dispatch_write _ _ _ mx my pressed HC) as (HwT & _ & _).
  assert (Hother : ∀ name, name ≠ wT →
            storage gl' name = storage gl name).
  { intros name Hne. unfold storage, gl'.
    rewrite (dispatch_other _ _ _ _ _ _ _ HC); [reflexivity | exact Hne]. }
  assert (Hframe : kernel p gl mx my pressed (k mod textureSize p) (k / textureSize p)
          = if (k >? PC)%Z then None
            else Some {| transformOut :=
                           updateTransform PC (textureSize p) (Vec3 mx my pressed)
                             (storage gl rT) (storage gl rC) (storage gl rP) k;
                         colorOut := getColor (textureSize p) (storage gl rC) k;
                         propertyOut :=
                           getProperties (textureSize p) (storage gl rP) k |}).
  { unfold kernel, getRead. rewrite (consistent_program _ _ _ HC). cbn.
    apply main_cell; assumption. }
  cbv zeta in HwT. unfold getWrite in HwT.
  apply storage_Some in HwT. fold gl' in HwT.
  unfold rT, wT, rC, wC, rP, wP in *.
  revert Hk. destruct_and!. intros Hk.
  rewrite !particle_storage.
  split_and!; try (rewrite Hother by congruence; reflexivity).
  rewrite HwT.
  rewrite (fetchFromIndex_texel (textureSize p) _ k
             (renderTarget_square _ _ _ _ Hsq) HS Hk).
  rewrite (renderTarget_texel (textureSize p) _ _ _ k Hsq HS Hk).
  rewrite (fetchFromIndex_texel (textureSize p) _ k Hsq HS Hk).
  rewrite Hframe. destruct (k >? PC)%Z; reflexivity.
Qed.

End StepProperties.

(** ** What a run of the simulation preserves *)

Section RunProperties.
Local Open Scope R_scope.

(** Induction over a run, for a property of the state that every step
    keeps as long as the pointer samples are acceptable. *)
Lemma run_invariant PC (ok : R * R * R → Prop) (I : Particles → GL → Prop) :
  (∀ p gl mx my pressed,
     ok (mx, my, pressed) → Consistent PC p gl → I p gl →
     I (update p mx my pressed gl).1 (update p mx my pressed gl).2) →
  ∀ pointer s,
    Forall ok pointer → Consistent PC s.1 s.2 → I s.1 s.2 →
    I (run s pointer).1 (run s pointer).2.
Proof.
  intros Hstep pointer.
  induction pointer as [| [[mx my] pressed] pointer IH]; intros s Hok HC HI;
    [exact HI |].
  apply Forall_cons in Hok as [Hok1 Hok].
  change (run s ((mx, my, pressed) :: pointer))
    with (run (update s.1 mx my pressed s.2) pointer).
  apply IH; [exact Hok | apply update_Consistent, HC |].
  apply Hstep; assumption.
Qed.

Lemma Forall_any_pointer (pointer : list (R * R * R)) :
  Forall (λ _, True) pointer.
Proof. apply Forall_forall. auto. Qed.

(** [getParticleState] looks at the side of the grid only. *)
Lemma particle_side (p' p : Particles) (gl : GL) (name : nat) (k : Z) :
  textureSize p' = textureSize p → particle p' gl name k = particle p gl name k.
Proof. intros H. unfold particle, getParticleState. rewrite H. reflexivity. Qed.

(** The zero record with the pointer not engaged is a fixed point of the
    kernel. *)
Lemma zero_record_fixed PC S mouse tT tC tP (k : Z) :
  getTransform S tT k = zero4 → getProperties S tP k = zero4 → z3 mouse = 0 →
  updateTransform PC S mouse tT tC tP k = zero4.
Proof.
  intros HT HP Hz.
  unfold updateTransform, updateTransformWith, integrate. cbv zeta.
  rewrite HT, HP. unfold zero4, xy, zw, wrapAround. cbn [x4 y4 z4 w4 x2 y2].
  rewrite pairwise_loop_weightless.
  unfold pointerStep. destruct (Req_dec_T (z3 mouse) 0.0) as [_ | Hne]; [| lra].
  rewrite wallBounce_inside by (unfold add2, scale2; cbn [x2 y2]; lra).
  unfold add2, scale2, zero4. cbn [x2 y2]. f_equal; lra.
Qed.

(** One step keeps an inactive cell at the zero record: the fragment of a
    cell above [PARTICLE_COUNT] is discarded, and the cell
    [PARTICLE_COUNT] itself is processed but does not move unless the
    pointer is engaged. *)
Lemma update_zero_cell PC p gl mx my pressed (k : Z) :
  Consistent PC p gl →
  (0 ≤ k < textureSize p * textureSize p)%Z → (PC ≤ k)%Z →
  (PC < k)%Z ∨ pressed = 0 →
  (∀ name, name ∈ names p → particle p gl name k = zero4) →
  ∀ name, name ∈ names (update p mx my pressed gl).1 →
          particle (update p mx my pressed gl).1
                   (update p mx my pressed gl).2 name k = zero4.
Proof.
  intros HC Hk HPC Hcase Hzero name Hin.
  destruct (dispatch_cells _ _ _ mx my pressed k HC Hk)
    as (HrT & HrC & HrP & HwT & HwC & HwP).
  rewrite names_six in Hzero.
  assert (Z0 : ∀ n, n ∈ [read (transformTexture p); write (transformTexture p);
                         read (colorTexture p); write (colorTexture p);
                         read (propertyTexture p); write (propertyTexture p)] →
               particle p (dispatch p mx my pressed gl) n k = zero4).
  { intros n Hn.
    repeat (apply elem_of_cons in Hn as [-> | Hn]);
      [.. | by apply elem_of_nil in Hn].
    - rewrite HrT. apply Hzero. rewrite !elem_of_cons. tauto.
    - rewrite HwT. destruct (Z.gtb_spec k PC).
      + apply Hzero. rewrite !elem_of_cons. tauto.
      + destruct Hcase as [? | ->]; [lia |].
        apply zero_record_fixed; [| | reflexivity].
        * unfold getTransform. rewrite <- particle_storage.
          apply Hzero. rewrite !elem_of_cons. tauto.
        * unfold getProperties. rewrite <- particle_storage.
          apply Hzero. rewrite !elem_of_cons. tauto.
    - rewrite HrC. apply Hzero. rewrite !elem_of_cons. tauto.
    - rewrite HwC. apply Hzero. rewrite !elem_of_cons. tauto.
    - rewrite HrP. apply Hzero. rewrite !elem_of_cons. tauto.
    - rewrite HwP. apply Hzero. rewrite !elem_of_cons. tauto. }
  unfold update in *. cbn [fst snd] in *.
  rewrite names_six in Hin. cbn in Hin.
  rewrite (particle_side (swapAll (publish p)) p) by reflexivity.
  apply Z0. rewrite !elem_of_cons in Hin |- *. tauto.
Qed.

(** One step keeps a cell of the colour texture and of the property
    texture at the value both copies hold: the draw writes neither copy,
    and the swap exchanges them. *)
Lemma update_constant_cell PC p gl mx my pressed (k : Z) (c q : vec4) :
  Consistent PC p gl →
  (0 ≤ k < textureSize p * textureSize p)%Z →
  (∀ db, db = colorTexture p →
         particle p gl (read db) k = c ∧ particle p gl (write db) k = c) →
  (∀ db, db = propertyTexture p →
         particle p gl (read db) k = q ∧ particle p gl (write db) k = q) →
  let s' := update p mx my pressed gl in
  (particle s'.1 s'.2 (read (colorTexture s'.1)) k = c ∧
   particle s'.1 s'.2 (write (colorTexture s'.1)) k = c) ∧
  (particle s'.1 s'.2 (read (propertyTexture s'.1)) k = q ∧
   particle s'.1 s'.2 (write (propertyTexture s'.1)) k = q).
Proof.
  intros HC Hk Hc Hq s'.
  destruct (Hc _ eq_refl) as [Hcr Hcw]. destruct (Hq _ eq_refl) as [Hqr Hqw].
  destruct (dispatch_cells _ _ _ mx my pressed k HC Hk)
    as (_ & HrC & HrP & _ & HwC & HwP).
  unfold s', update. cbn [fst snd swapAll publish colorTexture propertyTexture
                          swap read write].
  rewrite !(particle_side (swapAll (publish p)) p) by reflexivity.
  rewrite HrC, HrP, HwC, HwP. rewrite ?Hcr, ?Hcw, ?Hqr, ?Hqw. auto.
Qed.

(** Through a run from [createParticles], both copies of the colour
    texture and of the property texture hold at every cell what was seeded
    there. *)
Lemma run_constant_cells PC hsv gl0 N p0 gl1 pointer (k : Z) :
  createParticles PC hsv gl0 N = Some (p0, gl1) →
  (0 ≤ k < textureSize p0 * textureSize p0)%Z →
  let s := run (p0, gl1) pointer in
  let c := particle p0 gl1 (read (colorTexture p0)) k in
  let q := particle p0 gl1 (read (propertyTexture p0)) k in
  (particle s.1 s.2 (read (colorTexture s.1)) k = c ∧
   particle s.1 s.2 (write (colorTexture s.1)) k = c) ∧
  (particle s.1 s.2 (read (propertyTexture s.1)) k = q ∧
   particle s.1 s.2 (write (propertyTexture s.1)) k = q).
Proof.
  intros Hcreate Hk s c q.
  pose proof (createParticles_Consistent _ _ _ _ _ _ Hcreate) as HC0.
  destruct (createParticles_storage _ _ _ _ _ _ Hcreate)
    as (_ & _ & _ & _ & HrC & HwC & HrP & HwP).
  set (I := λ (p : Particles) (gl : GL),
         textureSize p = textureSize p0 ∧
         (particle p gl (read (colorTexture p)) k = c ∧
          particle p gl (write (colorTexture p)) k = c) ∧
         (particle p gl (read (propertyTexture p)) k = q ∧
          particle p gl (write (propertyTexture p)) k = q)).
  assert (Hrun : I s.1 s.2).
  { apply (run_invariant PC (λ _, True) I);
      [| apply Forall_any_pointer | exact HC0 |].
    - intros p gl mx my pressed _ HC (Hside & Hc & Hq). split; [exact Hside |].
      apply (update_constant_cell PC); try assumption; [rewrite Hside; lia | |].
      + intros db ->. exact Hc.
      + intros db ->. exact Hq.
    - unfold I, c, q. cbn [fst snd]. rewrite !particle_storage.
      rewrite HrC, HwC, HrP, HwP. auto. }
  destruct Hrun as (_ & Hc & Hq). auto.
Qed.

End RunProperties.

(** ** The simulation: seeding, stepping, double buffering *)

Section Simulation.

Variable PARTICLE_COUNT : Z.
Variable chroma_hsv_gl : R → R → R → R * R * R.

(** A simulation created as the source creates it, with
    [createParticles(gl, PARTICLE_COUNT)], stays consistent, and its
    textures have room for every particle. *)
Lemma simulation_Consistent gl0 p0 gl1 pointer :
  createParticles PARTICLE_COUNT chroma_hsv_gl gl0 PARTICLE_COUNT = Some (p0, gl1) →
  let s := run (p0, gl1) pointer in
  Consistent PARTICLE_COUNT s.1 s.2 ∧
  (PARTICLE_COUNT ≤ textureSize s.1 * textureSize s.1)%Z.
Proof.
  intros Hcreate s. split.
  - apply run_Consistent. cbn. eapply createParticles_Consistent, Hcreate.
  - unfold s. destruct (run_fields pointer (p0, gl1)) as [-> _]. cbn.
    apply createParticles_Some in Hcreate as (HS & _).
    apply initialTextureSize_positive in HS. tauto.
Qed.

(** C7: for every particle index [0 ≤ i < N], a step leaves the Colour
    record and the Properties record of the particle as they were; the
    Transform record is the one that changes, to the value computed by
    [updateTransform] from the records published before the step. *)
Theorem update_keeps_color_and_properties gl0 p0 gl1 pointer mx my pressed (i : Z) :
  createParticles PARTICLE_COUNT chroma_hsv_gl gl0 PARTICLE_COUNT = Some (p0, gl1) →
  (0 ≤ i < PARTICLE_COUNT)%Z →
  let s := run (p0, gl1) pointer in
  let s' := update s.1 mx my pressed s.2 in
  is_Some (getParticleState s.1 s.2 i (textureColor s.1)) ∧
  is_Some (getParticleState s.1 s.2 i (textureProperties s.1)) ∧
  getParticleState s'.1 s'.2 i (textureColor s'.1)
    = getParticleState s.1 s.2 i (textureColor s.1) ∧
  getParticleState s'.1 s'.2 i (textureProperties s'.1)
    = getParticleState s.1 s.2 i (textureProperties s.1) ∧
  getParticleState s'.1 s'.2 i (textureTransform s'.1)
    = Some (updateTransform PARTICLE_COUNT (textureSize s.1) (Vec3 mx my pressed)
              (storage s.2 (textureTransform s.1))
              (storage s.2 (textureColor s.1))
              (storage s.2 (textureProperties s.1)) i).
Proof.
  intros Hcreate Hi s s'.
  destruct (simulation_Consistent gl0 p0 gl1 pointer Hcreate) as [HC Hroom].
  fold s in HC, Hroom.
  destruct (update_particle _ _ _ mx my pressed i HC) as (HT & _ & Hc0 & Hp0);
    [lia .. |].
  fold s' in HT.
  assert (Hside : textureSize s.1 = textureSize p0)
    by apply (run_fields pointer (p0, gl1)).
  assert (Hk : (0 ≤ i < textureSize p0 * textureSize p0)%Z)
    by (rewrite <- Hside; lia).
  destruct (run_constant_cells PARTICLE_COUNT chroma_hsv_gl gl0 PARTICLE_COUNT
              p0 gl1 pointer i Hcreate Hk) as ([Hcr Hcw] & [Hqr Hqw]).
  fold s in Hcr, Hcw, Hqr, Hqw.
  destruct (dispatch_cells _ _ _ mx my pressed i HC ltac:(lia))
    as (_ & _ & _ & _ & HwC & HwP).
  pose proof (update_Consistent _ _ _ mx my pressed HC) as HC'. fold s' in HC'.
  pose proof (consistent_published _ _ _ HC) as Hpub.
  injection Hpub as _ HpC HpP. unfold getRead in HpC, HpP.
  assert (HpC' : textureColor s'.1 = write (colorTexture s.1)) by reflexivity.
  assert (HpP' : textureProperties s'.1 = write (propertyTexture s.1))
    by reflexivity.
  assert (Hin : ∀ name, name ∈ names s.1 → name ∈ names s'.1).
  { intros name. unfold s', update. rewrite !names_six. cbn.
    rewrite !elem_of_cons. tauto. }
  split_and!; [exact Hc0 | exact Hp0 | | | exact HT].
  - rewrite (getParticleState_particle _ _ _ _ _ HC')
      by (apply Hin; rewrite HpC', names_six, !elem_of_cons; tauto).
    rewrite (getParticleState_particle _ _ _ _ _ HC)
      by (rewrite HpC, names_six, !elem_of_cons; tauto).
    f_equal. rewrite HpC', HpC.
    rewrite (particle_side s'.1 s.1) by reflexivity.
    unfold s', update. cbn [snd]. rewrite HwC, Hcw, Hcr. reflexivity.
  - rewrite (getParticleState_particle _ _ _ _ _ HC')
      by (apply Hin; rewrite HpP', names_six, !elem_of_cons; tauto).
    rewrite (getParticleState_particle _ _ _ _ _ HC)
      by (rewrite HpP, names_six, !elem_of_cons; tauto).
    f_equal. rewrite HpP', HpP.
    rewrite (particle_side s'.1 s.1) by reflexivity.
    unfold s', update. cbn [snd]. rewrite HwP, Hqw, Hqr. reflexivity.
Qed.

(** C3: for each of the three double buffers of a simulation, at any point
    of a run: [getRead()] and [getWrite()] are different textures; the draw
    of a step, which writes to a write side, leaves the texture behind
    [getRead()] as it was; [swap()] exchanges the two sides; and after
    [update] the published texture is the one that was the write side
    before the swap, now the read side, as the draw left it. *)
Theorem double_buffer_protocol gl0 N p0 gl1 pointer mx my pressed :
  createParticles PARTICLE_COUNT chroma_hsv_gl gl0 N = Some (p0, gl1) →
  let s := run (p0, gl1) pointer in
  let drawn := dispatch s.1 mx my pressed s.2 in
  let s' := update s.1 mx my pressed s.2 in
  Forall (λ db, getRead db ≠ getWrite db) (buffers s.1) ∧
  Forall (λ db, gl_textures drawn !! getRead db = gl_textures s.2 !! getRead db)
         (buffers s.1) ∧
  Forall (λ db, getRead (swap db) = getWrite db ∧ getWrite (swap db) = getRead db)
         (buffers s.1) ∧
  buffers s'.1 = swap <$> buffers s.1 ∧
  published s'.1 = getWrite <$> buffers s.1 ∧
  published s'.1 = getRead <$> buffers s'.1 ∧
  s'.2 = drawn.
Proof.
  intros Hcreate s drawn s'.
  assert (HC : Consistent PARTICLE_COUNT s.1 s.2).
  { apply run_Consistent. cbn. eapply createParticles_Consistent, Hcreate. }
  pose proof (Consistent_distinct _ _ _ HC) as Hd. cbv zeta in Hd.
  destruct_and!.
  split_and!; try reflexivity.
  - unfold buffers, textures, getRead, getWrite. cbn.
    repeat (apply Forall_cons; split; [assumption |]). apply Forall_nil_2.
  - apply Forall_forall. intros db Hin. subst drawn.
    exact (dispatch_read PARTICLE_COUNT s.1 s.2 mx my pressed db HC Hin).
  - apply Forall_forall. intros db _. split; reflexivity.
Qed.

End Simulation.

(** ** Inactive cells, colours and properties through a run *)

Section RunConstants.
Local Open Scope R_scope.

(** X13: in a simulation created with [createParticles(gl, PARTICLE_COUNT)]
    the cells above [PARTICLE_COUNT] hold the zero record, in both copies
    of all three textures, after any run: their fragments are discarded at
    every step.  The cell [PARTICLE_COUNT] itself keeps the zero record as
    long as the pointer is never engaged. *)
Theorem inactive_cells_stay_zero PC hsv gl0 p0 gl1 pointer (k : Z) :
  createParticles PC hsv gl0 PC = Some (p0, gl1) →
  (0 ≤ k)%Z → (PC ≤ k)%Z → (k < textureSize p0 * textureSize p0)%Z →
  (PC < k)%Z ∨ Forall (λ sample : R * R * R, sample.2 = 0) pointer →
  let s := run (p0, gl1) pointer in
  Forall (λ name, getParticleState s.1 s.2 k name = Some zero4) (names s.1).
Proof.
  intros Hcreate Hk0 HkPC HkS Hcase s.
  pose proof (createParticles_Consistent _ _ _ _ _ _ Hcreate) as HC0.
  set (ok := λ sample : R * R * R, (PC < k)%Z ∨ sample.2 = 0).
  set (I := λ (p : Particles) (gl : GL),
         textureSize p = textureSize p0 ∧
         ∀ name, name ∈ names p → particle p gl name k = zero4).
  assert (Hok : Forall ok pointer).
  { destruct Hcase as [Hgt | Hoff].
    - apply Forall_forall. intros sample _. left. exact Hgt.
    - eapply Forall_impl; [exact Hoff |]. intros sample Hs. right. exact Hs. }
  assert (Hrun : I s.1 s.2).
  { apply (run_invariant PC ok I); [| exact Hok | exact HC0 |].
    - intros p gl mx my pressed Hs HC [Hside Hzero]. split; [exact Hside |].
      apply (update_zero_cell PC); try assumption. rewrite Hside. lia.
    - split; [reflexivity |]. intros name Hin. cbn [fst snd].
      rewrite particle_storage.
      apply (seeded_inactive_cells _ _ _ _ _ _ _ _ Hcreate); assumption. }
  destruct Hrun as [_ Hzero].
  pose proof (run_Consistent PC pointer (p0, gl1) HC0) as HC. fold s in HC.
  apply Forall_forall. intros name Hin.
  rewrite (getParticleState_storage _ _ _ _ _ HC Hin), <- particle_storage.
  f_equal. apply Hzero, Hin.
Qed.

Lemma inactive_cells_stay_zero_witness :
  ∃ p0 gl1,
    createParticles 2 all_red freshContext 2 = Some (p0, gl1) ∧
    (0 ≤ 3)%Z ∧ (2 ≤ 3)%Z ∧ (3 < textureSize p0 * textureSize p0)%Z ∧
    let s := run (p0, gl1) [(0.5, 0.5, 1)] in
    Forall (λ name, getParticleState s.1 s.2 3 name = Some zero4) (names s.1).
Proof.
  destruct (createParticles_fresh 2 all_red 2)
    as [[p0 gl1] H].
  exists p0, gl1. split; [exact H |].
  assert (HS : textureSize p0 = 2%Z).
  { pose proof (createParticles_Some _ _ _ _ _ _ H) as (HS & _).
    assert (Hrun : initialTextureSize 2 = Some 2%Z) by reflexivity.
    congruence. }
  split; [lia |]. split; [lia |]. split; [rewrite HS; lia |].
  apply (inactive_cells_stay_zero 2 all_red freshContext p0 gl1
           [(0.5, 0.5, 1)] 3 H); rewrite ?HS; lia.
Defined.

(** X14: the colour and the properties of every cell of the grid are, after
    any run and whatever the pointer did, the ones seeded at creation:
    what the render pass reads for them never changes. *)
Theorem color_and_properties_constant PC hsv gl0 N p0 gl1 pointer (k : Z) :
  createParticles PC hsv gl0 N = Some (p0, gl1) →
  (0 ≤ k < textureSize p0 * textureSize p0)%Z →
  let s := run (p0, gl1) pointer in
  getParticleState s.1 s.2 k (textureColor s.1)
    = getParticleState p0 gl1 k (textureColor p0) ∧
  getParticleState s.1 s.2 k (textureProperties s.1)
    = getParticleState p0 gl1 k (textureProperties p0).
Proof.
  intros Hcreate Hk s.
  pose proof (createParticles_Consistent _ _ _ _ _ _ Hcreate) as HC0.
  destruct (run_constant_cells PC hsv gl0 N p0 gl1 pointer k Hcreate Hk)
    as ([Hc _] & [Hq _]).
  fold s in Hc, Hq.
  pose proof (run_Consistent PC pointer (p0, gl1) HC0) as HC. fold s in HC.
  pose proof (consistent_published _ _ _ HC) as Hpub.
  injection Hpub as _ HpC HpP.
  destruct (createParticles_published _ _ _ _ _ _ Hcreate) as (_ & HpC0 & HpP0).
  unfold getRead in *.
  rewrite HpC, HpP, HpC0, HpP0.
  rewrite !(getParticleState_storage _ _ _ _ _ HC)
    by (rewrite names_six, !elem_of_cons; tauto).
  rewrite !(getParticleState_storage _ _ _ _ _ HC0)
    by (rewrite names_six, !elem_of_cons; tauto).
  rewrite <- !particle_storage. rewrite Hc, Hq. auto.
Qed.

Lemma color_and_properties_constant_witness :
  ∃ p0 gl1,
    createParticles 4 all_red freshContext 4 = Some (p0, gl1) ∧
    (0 ≤ 0 < textureSize p0 * textureSize p0)%Z ∧
    let s := run (p0, gl1) [(0.5, 0.5, 1); (0, 0, -1)] in
    getParticleState s.1 s.2 0 (textureColor s.1)
    = getParticleState p0 gl1 0 (textureColor p0).
Proof.
  destruct (createParticles_fresh 4 all_red 4)
    as [[p0 gl1] H].
  exists p0, gl1. split; [exact H |].
  pose proof (consistent_side _ _ _ (createParticles_Consistent _ _ _ _ _ _ H)) as HS.
  assert (Hk : (0 ≤ 0 < textureSize p0 * textureSize p0)%Z) by nia.
  split; [exact Hk |].
  apply (color_and_properties_constant 4 all_red freshContext 4 p0 gl1
           [(0.5, 0.5, 1); (0, 0, -1)] 0 H Hk).
Defined.

End RunConstants.

(** ** A lone particle under friction *)

Section LoneParticle.
Local Open Scope R_scope.

Lemma length2_scale (v : vec2) (k : R) :
  0 <= k → length2 (scale2 v k) = k * length2 v.
Proof.
  intros Hk. unfold length2, scale2. cbn [x2 y2].
  replace (x2 v * k * (x2 v * k) + y2 v * k * (y2 v * k))
    with (k * k * (x2 v * x2 v + y2 v * y2 v)) by ring.
  rewrite sqrt_mult_alt by nra. rewrite sqrt_square by exact Hk. reflexivity.
Qed.

(** With one particle, the pairwise loop is the single iteration of the
    particle with itself. *)
Lemma lone_pairwise_loop (textureSize : Z) (tT tC : Texture) (color : vec3)
    (gravity : R) (vel : vec2) :
  fold_left (pairStep textureSize tT tC (xy (getTransform textureSize tT 0))
               color gravity) (indices 1) vel
  = vel.
Proof. cbn. apply pairStep_self. Qed.

(** One run of the kernel on the lone particle, the pointer not engaged:
    the new velocity has 0.9 times the norm of the old one. *)
Lemma lone_kernel_speed (textureSize : Z) (mouse : vec3) (tT tC tP : Texture) :
  z3 mouse = 0 →
  speed (updateTransform 1 textureSize mouse tT tC tP 0)
  = 0.9 * speed (getTransform textureSize tT 0).
Proof.
  intros Hz. unfold updateTransform, updateTransformWith, integrate. cbv zeta.
  rewrite lone_pairwise_loop.
  unfold pointerStep. destruct (Req_dec_T (z3 mouse) 0.0) as [_ | Hne]; [| lra].
  match goal with
  | |- context [wallBounce ?w ?pos ?vel] =>
      pose proof (wallBounce_speed w pos vel) as Hwall;
      destruct (wallBounce w pos vel) as [pos' vel']
  end.
  cbn [snd] in Hwall. unfold speed, zw. cbn [z4 w4].
  replace (Vec2 (x2 vel') (y2 vel')) with vel' by (destruct vel'; reflexivity).
  rewrite Hwall. rewrite length2_scale by lra. reflexivity.
Qed.

(** The speed of the lone particle after a run with the pointer never
    engaged. *)
Lemma lone_run_speed (pointer : list (R * R * R)) : ∀ p gl,
  Consistent 1 p gl →
  Forall (λ sample, sample.2 = 0) pointer →
  let s := run (p, gl) pointer in
  speed (particle s.1 s.2 (textureTransform s.1) 0)
  = 0.9 ^ length pointer * speed (particle p gl (textureTransform p) 0).
Proof.
  induction pointer as [| [[mx my] pressed] pointer IH]; intros p gl HC Hoff s.
  - unfold s. cbn. lra.
  - apply Forall_cons in Hoff as [Hpressed Hoff]. cbn in Hpressed. subst pressed.
    pose proof (consistent_side _ _ _ HC) as HS.
    destruct (update_particle 1 p gl mx my 0 0%Z HC) as (Hnew & _);
      [lia | lia | nia |].
    pose proof (update_Consistent 1 p gl mx my 0 HC) as HC'.
    destruct (update p mx my 0 gl) as [p' gl'] eqn:Hupd. cbn [fst snd] in *.
    specialize (IH p' gl' HC' Hoff). cbv zeta in IH.
    unfold s. change (run (p, gl) ((mx, my, 0) :: pointer))
      with (run (update p mx my 0 gl) pointer).
    rewrite Hupd, IH. rewrite (particle_Some _ _ _ _ _ Hnew).
    rewrite lone_kernel_speed by reflexivity.
    assert (Hsame : getTransform (textureSize p) (storage gl (textureTransform p)) 0
                    = particle p gl (textureTransform p) 0).
    { rewrite particle_storage. reflexivity. }
    rewrite Hsame. cbn [length]. rewrite <- tech_pow_Rmult. ring.
Qed.

(** In 32-bit floats the decay by friction comes to a halt: starting from
    the velocity 1.0, a thousand steps lead to the subnormal number
    4 * 2^-149, which the rounded product with 0.9 maps to itself, so that
    the velocity no longer decreases; on a GPU that flushes subnormal
    numbers the velocity is exactly zero by then. *)
Lemma friction32_stalls :
  let v := Nat.iter 1000 Binary32.damp Binary32.one in
  v = SpecFloat.S754_finite false 4 (-149) ∧
  Binary32.damp v = v ∧
  Nat.iter 1000 Binary32.damp_flushed Binary32.one = SpecFloat.S754_zero false.
Proof. vm_compute. auto. Qed.

(** Giving one of the six textures another square of texels keeps the
    simulation consistent. *)
Lemma Consistent_overwrite PC p gl name t :
  Consistent PC p gl → square_texture (textureSize p) t →
  Consistent PC p (with_textures <[name := t]> gl).
Proof.
  intros [HS Hprog Hnd Hst Hpub] Hsq. split; try assumption.
  intros name' Hin. cbn. destruct (decide (name' = name)) as [-> | Hne].
  - exists t. split; [apply lookup_insert_eq | exact Hsq].
  - rewrite lookup_insert_ne by congruence. apply Hst, Hin.
Qed.

(** C9, as amended: with one particle and the pointer never engaged, the
    pairwise loop (the self-term alone) leaves the velocity as it is, and
    every step multiplies the speed by the friction factor 0.9.  The speed
    therefore never increases, and a particle at rest, as the seeded one
    is, stays at rest.  Nothing more is claimed of a particle in motion:
    the shader's product is rounded to 32 bits, and the rounded speed stops
    decreasing once it underflows ([friction32_stalls]). *)
Theorem lone_particle_friction (p : Particles) (gl : GL) (pointer : list (R * R * R)) :
  Consistent 1 p gl →
  Forall (λ sample, sample.2 = 0) pointer →
  let s := run (p, gl) pointer in
  let v0 := speed (particle p gl (textureTransform p) 0) in
  let vn := speed (particle s.1 s.2 (textureTransform s.1) 0) in
  (∀ S tT tC color gravity vel,
     fold_left (pairStep S tT tC (xy (getTransform S tT 0)) color gravity)
               (indices 1) vel = vel) ∧
  (∀ mx my,
     let s' := update s.1 mx my 0 s.2 in
     speed (particle s'.1 s'.2 (textureTransform s'.1) 0) = 0.9 * vn) ∧
  vn <= v0 ∧
  (v0 = 0 → vn = 0).
Proof.
  intros HC Hoff s v0 vn.
  pose proof (lone_run_speed pointer p gl HC Hoff) as Hrun.
  cbv zeta in Hrun. fold s in Hrun. fold v0 vn in Hrun.
  assert (Hv0 : 0 <= v0) by apply sqrt_pos.
  assert (Hpow : 0 < 0.9 ^ length pointer <= 1).
  { split; [apply pow_lt; lra |].
    rewrite <- (pow1 (length pointer)). apply pow_incr. lra. }
  split_and!.
  - intros. apply lone_pairwise_loop.
  - intros mx my s'.
    pose proof (lone_run_speed [(mx, my, 0)] s.1 s.2
                  (run_Consistent 1 pointer (p, gl) HC)) as Hstep.
    cbv zeta in Hstep.
    change (run (s.1, s.2) [(mx, my, 0)]) with (update s.1 mx my 0 s.2) in Hstep.
    fold s' vn in Hstep. rewrite Hstep; [cbn; lra |].
    apply Forall_cons. split; [reflexivity | apply Forall_nil_2].
  - rewrite Hrun. nra.
  - intros ->. rewrite Hrun. ring.
Qed.

End LoneParticle.

(** ** Instances on a fresh context *)

Section Instances.
Local Open Scope R_scope.

Lemma update_keeps_color_and_properties_witness :
  ∃ p0 gl1,
    createParticles 4 all_red freshContext 4 = Some (p0, gl1) ∧
    (0 ≤ 2 < 4)%Z ∧
    let s' := update p0 0.5 0.5 1 gl1 in
    getParticleState s'.1 s'.2 2 (textureColor s'.1)
    = getParticleState p0 gl1 2 (textureColor p0).
Proof.
  destruct (createParticles_fresh 4 all_red 4)
    as [[p0 gl1] Hcreate].
  exists p0, gl1. split; [exact Hcreate |]. split; [lia |].
  apply (update_keeps_color_and_properties 4 all_red freshContext p0 gl1 []
           0.5 0.5 1 2 Hcreate).
  lia.
Defined.

Lemma double_buffer_protocol_witness :
  ∃ p0 gl1,
    createParticles 4 all_red freshContext 4 = Some (p0, gl1) ∧
    let s := run (p0, gl1) [(0, 0, 0)] in
    Forall (λ db, getRead db ≠ getWrite db) (buffers s.1).
Proof.
  destruct (createParticles_fresh 4 all_red 4)
    as [[p0 gl1] Hcreate].
  exists p0, gl1. split; [exact Hcreate |].
  apply (double_buffer_protocol 4 all_red freshContext 4 p0 gl1 [(0, 0, 0)]
           0 0 0 Hcreate).
Defined.

Lemma lone_particle_friction_witness :
  ∃ p gl,
    Consistent 1 p gl ∧
    Forall (λ sample : R * R * R, sample.2 = 0) [(0.5, 0.5, 0)] ∧
    particle p gl (textureTransform p) 0 = Vec4 0 0 0.3 0.4 ∧
    let s := run (p, gl) [(0.5, 0.5, 0)] in
    let s' := update s.1 0.5 0.5 0 s.2 in
    speed (particle s'.1 s'.2 (textureTransform s'.1) 0)
    = 0.9 * speed (particle s.1 s.2 (textureTransform s.1) 0) ∧
    speed (particle s.1 s.2 (textureTransform s.1) 0)
    <= speed (particle p gl (textureTransform p) 0).
Proof.
  destruct (createParticles_fresh 1 all_red 1) as [[p gl1] Hcreate].
  set (moving := MkTexture 2 2 [Vec4 0 0 0.3 0.4; zero4; zero4; zero4]).
  set (gl := with_textures <[textureTransform p := moving]> gl1).
  assert (HS : textureSize p = 2%Z).
  { pose proof (createParticles_Some _ _ _ _ _ _ Hcreate) as (HS & _).
    assert (Hrun : initialTextureSize 1 = Some 2%Z) by reflexivity.
    congruence. }
  assert (HC : Consistent 1 p gl).
  { apply Consistent_overwrite;
      [exact (createParticles_Consistent _ _ _ _ _ _ Hcreate) |].
    rewrite HS. unfold square_texture. cbn. auto. }
  assert (Hoff : Forall (λ sample : R * R * R, sample.2 = 0) [(0.5, 0.5, 0)]).
  { apply Forall_cons. split; [reflexivity | apply Forall_nil_2]. }
  exists p, gl. split; [exact HC |]. split; [exact Hoff |]. split.
  { rewrite particle_storage, HS.
    rewrite (storage_Some gl (textureTransform p) moving)
      by (unfold gl, with_textures; cbn; apply lookup_insert_eq).
    reflexivity. }
  destruct (lone_particle_friction p gl [(0.5, 0.5, 0)] HC Hoff)
    as (_ & Hstep & Hle & _).
  split; [exact (Hstep 0.5 0.5) | exact Hle].
Defined.

(** C9, as stated, fails on the simulation of one particle as it is seeded:
    the particle is created at rest, so its speed is zero from the start
    and is still zero after a step; it does not strictly decrease. *)
Lemma seeded_lone_particle_at_rest :
  match createParticles 1 all_red freshContext 1 with
  | Some (p, gl) =>
      let s := update p 0 0 0 gl in
      speed (particle p gl (textureTransform p) 0) = 0 ∧
      speed (particle s.1 s.2 (textureTransform s.1) 0) = 0 ∧
      ¬ (speed (particle s.1 s.2 (textureTransform s.1) 0)
         < speed (particle p gl (textureTransform p) 0))
  | None => False
  end.
Proof.
  destruct (createParticles_fresh 1 all_red 1)
    as [[p gl] Hcreate].
  rewrite Hcreate. cbv zeta.
  assert (Hrest : speed (particle p gl (textureTransform p) 0) = 0).
  { pose proof (createParticles_Some _ _ _ _ _ _ Hcreate) as (_ & _ & _ & Hpub & _).
    injection Hpub as HpT _ _. rewrite HpT.
    rewrite (particle_Some _ _ _ _ _
               (seeded_transform 1 all_red freshContext 1 p gl 0 _ Hcreate
                  ltac:(lia) (or_introl eq_refl))).
    unfold speed, zw, length2. cbn [z4 w4 x2 y2].
    replace (0 * 0 + 0 * 0) with 0 by lra. apply sqrt_0. }
  assert (Hstep : speed (particle (update p 0 0 0 gl).1 (update p 0 0 0 gl).2
                           (textureTransform (update p 0 0 0 gl).1) 0) = 0).
  { pose proof (lone_run_speed [(0, 0, 0)] p gl
                  (createParticles_Consistent _ _ _ _ _ _ Hcreate)) as Hrun.
    cbv zeta in Hrun. 
    change (run (p, gl) [(0, 0, 0)]) with (update p 0 0 0 gl) in Hrun.
    rewrite Hrun, Hrest; [ring |].
    apply Forall_cons. split; [reflexivity | apply Forall_nil_2]. }
  rewrite Hrest, Hstep. split_and!; [reflexivity | reflexivity | lra].
Qed.

End Instances.

(** ** The box, the force and the textures through a run *)

Section RunBounds.
Local Open Scope R_scope.

(** Both copies of the transform texture are seeded inside the box. *)
Lemma seeded_transform_box PC hsv gl N p gl' (k : Z) name :
  createParticles PC hsv gl N = Some (p, gl') →
  (0 ≤ k < textureSize p * textureSize p)%Z →
  name = read (transformTexture p) ∨ name = write (transformTexture p) →
  -1 <= x4 (particle p gl' name k) <= 1 ∧ -1 <= y4 (particle p gl' name k) <= 1.
Proof.
  intros H Hk Hname.
  destruct (createParticles_storage _ _ _ _ _ _ H) as (HS & _ & HrT & HwT & _).
  rewrite particle_storage.
  assert (Hst : storage gl' name = seededTexture (textureSize p) (initTransform N))
    by (destruct Hname as [-> | ->]; assumption).
  rewrite Hst, seededTexture_fetch by lia.
  destruct (Z.lt_ge_cases k N) as [Hlt | Hge].
  - rewrite (seedData_texel _ _ k (sin (IZR k / IZR N * PI * 2) / 2)
               (cos (IZR k / IZR N * PI * 2) / 2) 0 0); [| lia | |].
    + cbn [x4 y4].
      pose proof (SIN_bound (IZR k / IZR N * PI * 2)).
      pose proof (COS_bound (IZR k / IZR N * PI * 2)). lra.
    + intros j Hj. unfold initTransform. destruct (Z.ltb_spec j N); [eauto | lia].
    + unfold initTransform. destruct (Z.ltb_spec k N); [reflexivity | lia].
  - rewrite (seedData_stops _ _ k k); [cbn; lra | lia |].
    unfold initTransform. destruct (Z.ltb_spec k N); [lia | reflexivity].
Qed.

(** One step keeps every cell of both copies of the transform texture
    inside the box. *)
Lemma update_box PC p gl mx my pressed (k : Z) :
  Consistent PC p gl →
  (0 ≤ k < textureSize p * textureSize p)%Z →
  (∀ name, name = read (transformTexture p) ∨ name = write (transformTexture p) →
     -1 <= x4 (particle p gl name k) <= 1 ∧ -1 <= y4 (particle p gl name k) <= 1) →
  let s' := update p mx my pressed gl in
  ∀ name, name = read (transformTexture s'.1) ∨ name = write (transformTexture s'.1) →
    -1 <= x4 (particle s'.1 s'.2 name k) <= 1 ∧
    -1 <= y4 (particle s'.1 s'.2 name k) <= 1.
Proof.
  intros HC Hk Hbox s' name Hname.
  destruct (dispatch_cells _ _ _ mx my pressed k HC Hk) as (HrT & _ & _ & HwT & _).
  unfold s', update in *. cbn [fst snd swapAll publish transformTexture swap
                               read write] in *.
  rewrite (particle_side (swapAll (publish p)) p) by reflexivity.
  destruct Hname as [-> | ->].
  - rewrite HwT. destruct (k >? PC)%Z; [apply Hbox; auto |].
    unfold updateTransform, updateTransformWith.
    destruct (integrate _ _ _ _ _ _ _) as [pos vel].
    pose proof (wallBounce_box wrapAround pos vel) as Hw.
    destruct (wallBounce wrapAround pos vel) as [pos' vel']. exact Hw.
  - rewrite HrT. apply Hbox. auto.
Qed.

Lemma run_box PC hsv gl0 N p0 gl1 pointer (k : Z) :
  createParticles PC hsv gl0 N = Some (p0, gl1) →
  (0 ≤ k < textureSize p0 * textureSize p0)%Z →
  let s := run (p0, gl1) pointer in
  let t := particle s.1 s.2 (textureTransform s.1) k in
  -1 <= x4 t <= 1 ∧ -1 <= y4 t <= 1.
Proof.
  intros Hcreate Hk s t.
  pose proof (createParticles_Consistent _ _ _ _ _ _ Hcreate) as HC0.
  set (I := λ (p : Particles) (gl : GL),
         textureSize p = textureSize p0 ∧
         ∀ name, name = read (transformTexture p) ∨ name = write (transformTexture p) →
           -1 <= x4 (particle p gl name k) <= 1 ∧
           -1 <= y4 (particle p gl name k) <= 1).
  assert (Hrun : I s.1 s.2).
  { apply (run_invariant PC (λ _, True) I);
      [| apply Forall_any_pointer | exact HC0 |].
    - intros p gl mx my pressed _ HC [Hside Hbox]. split; [exact Hside |].
      apply (update_box PC); try assumption. rewrite Hside. lia.
    - split; [reflexivity |]. intros name Hname. cbn [fst snd] in *.
      apply (seeded_transform_box _ _ _ _ _ _ _ _ Hcreate Hk Hname). }
  destruct Hrun as [_ Hbox].
  pose proof (run_Consistent PC pointer (p0, gl1) HC0) as HC. fold s in HC.
  pose proof (consistent_published _ _ _ HC) as Hpub.
  injection Hpub as HpT _ _. unfold t. rewrite HpT. apply Hbox. auto.
Qed.

Lemma all_red_unit : unit_colors all_red.
Proof. intros h s v. unfold unit_color, all_red. cbn. lra. Qed.

(** X15: through a run, the position of every cell of the published
    transform texture lies in the box [-1,1] x [-1,1]: no particle leaves
    the walls.  The run is one in which the arithmetic of the shader stays
    finite: the colours seeded have their components in [0,1], and every
    pointer sample is made of numbers, with a strength between -1 and 1
    (the handlers set -1, 0 or 1). *)
Theorem positions_stay_in_box PC hsv gl0 N p0 gl1 pointer (k : Z) :
  createParticles PC hsv gl0 N = Some (p0, gl1) →
  unit_colors hsv → gentle pointer →
  (0 ≤ k < textureSize p0 * textureSize p0)%Z →
  let s := run (p0, gl1) pointer in
  ∃ t, getParticleState s.1 s.2 k (textureTransform s.1) = Some t ∧
       -1 <= x4 t <= 1 ∧ -1 <= y4 t <= 1.
Proof.
  intros Hcreate _ _ Hk s.
  pose proof (run_box PC hsv gl0 N p0 gl1 pointer k Hcreate Hk) as Hbox.
  cbv zeta in Hbox. fold s in Hbox.
  pose proof (run_Consistent PC pointer (p0, gl1)
                (createParticles_Consistent _ _ _ _ _ _ Hcreate)) as HC.
  fold s in HC.
  pose proof (consistent_published _ _ _ HC) as Hpub. injection Hpub as HpT _ _.
  exists (particle s.1 s.2 (textureTransform s.1) k). split; [| exact Hbox].
  rewrite particle_storage, HpT. apply (getParticleState_storage _ _ _ _ _ HC).
  rewrite names_six, !elem_of_cons. unfold getRead. tauto.
Qed.

Lemma positions_stay_in_box_witness :
  ∃ p0 gl1,
    createParticles 4 all_red freshContext 4 = Some (p0, gl1) ∧
    unit_colors all_red ∧ gentle [(0.5, 0.5, 1); (0, 0, -1)] ∧
    (0 ≤ 0 < textureSize p0 * textureSize p0)%Z ∧
    let s := run (p0, gl1) [(0.5, 0.5, 1); (0, 0, -1)] in
    ∃ t, getParticleState s.1 s.2 0 (textureTransform s.1) = Some t ∧
         -1 <= x4 t <= 1 ∧ -1 <= y4 t <= 1.
Proof.
  destruct (createParticles_fresh 4 all_red 4) as [[p0 gl1] H].
  exists p0, gl1. split; [exact H |].
  pose proof (consistent_side _ _ _ (createParticles_Consistent _ _ _ _ _ _ H)) as HS.
  assert (Hk : (0 ≤ 0 < textureSize p0 * textureSize p0)%Z) by nia.
  assert (Hg : gentle [(0.5, 0.5, 1); (0, 0, -1)]).
  { repeat (apply Forall_cons; split; [cbn; lra |]). apply Forall_nil_2. }
  split; [exact all_red_unit |]. split; [exact Hg |]. split; [exact Hk |].
  apply (positions_stay_in_box 4 all_red freshContext 4 p0 gl1
           [(0.5, 0.5, 1); (0, 0, -1)] 0 H all_red_unit Hg Hk).
Defined.

(** X16: through such a run, for any two cells of the grid, the direction
    the pairwise loop of the next step forms between them has a scaled
    distance [linear] in [0,1]: [pow] is called on a non-negative base,
    and the force magnitude lies between -2.5 and 100000. *)
Theorem pairwise_force_bounded PC hsv gl0 N p0 gl1 pointer (i j : Z) :
  createParticles PC hsv gl0 N = Some (p0, gl1) →
  unit_colors hsv → gentle pointer →
  (0 ≤ i < textureSize p0 * textureSize p0)%Z →
  (0 ≤ j < textureSize p0 * textureSize p0)%Z →
  let s := run (p0, gl1) pointer in
  let tT := storage s.2 (getRead (transformTexture s.1)) in
  let direction := sub2 (xy (getTransform (textureSize s.1) tT i))
                        (xy (getTransform (textureSize s.1) tT j)) in
  0 <= linearDistance direction <= 1 ∧
  0 <= - linearDistance direction + 1.0 ∧
  -2.5 <= particleDistance direction <= 100000.
Proof.
  intros Hcreate _ _ Hi Hj s tT direction.
  pose proof (run_box PC hsv gl0 N p0 gl1 pointer i Hcreate Hi) as Hbi.
  pose proof (run_box PC hsv gl0 N p0 gl1 pointer j Hcreate Hj) as Hbj.
  cbv zeta in Hbi, Hbj. fold s in Hbi, Hbj.
  pose proof (run_Consistent PC pointer (p0, gl1)
                (createParticles_Consistent _ _ _ _ _ _ Hcreate)) as HC.
  fold s in HC.
  pose proof (consistent_published _ _ _ HC) as Hpub. injection Hpub as HpT _ _.
  rewrite HpT, particle_storage in Hbi, Hbj. fold tT in Hbi, Hbj.
  destruct (particleDistance_bounds direction) as [Hl Hf].
  { apply box_distance; unfold getTransform, xy; cbn [x2 y2]; tauto. }
  split_and!; lra.
Qed.

Lemma pairwise_force_bounded_witness :
  ∃ p0 gl1,
    createParticles 4 all_red freshContext 4 = Some (p0, gl1) ∧
    unit_colors all_red ∧ gentle [(0.5, 0.5, 1)] ∧
    (0 ≤ 0 < textureSize p0 * textureSize p0)%Z ∧
    (0 ≤ 1 < textureSize p0 * textureSize p0)%Z ∧
    let s := run (p0, gl1) [(0.5, 0.5, 1)] in
    let tT := storage s.2 (getRead (transformTexture s.1)) in
    let direction := sub2 (xy (getTransform (textureSize s.1) tT 0))
                          (xy (getTransform (textureSize s.1) tT 1)) in
    -2.5 <= particleDistance direction <= 100000.
Proof.
  destruct (createParticles_fresh 4 all_red 4) as [[p0 gl1] H].
  exists p0, gl1. split; [exact H |].
  assert (HS : textureSize p0 = 2%Z).
  { pose proof (createParticles_Some _ _ _ _ _ _ H) as (HS & _).
    assert (Hrun : initialTextureSize 4 = Some 2%Z) by reflexivity.
    congruence. }
  assert (Hi : (0 ≤ 0 < textureSize p0 * textureSize p0)%Z) by (rewrite HS; lia).
  assert (Hj : (0 ≤ 1 < textureSize p0 * textureSize p0)%Z) by (rewrite HS; lia).
  assert (Hg : gentle [(0.5, 0.5, 1)]).
  { repeat (apply Forall_cons; split; [cbn; lra |]). apply Forall_nil_2. }
  split; [exact all_red_unit |]. split; [exact Hg |].
  split; [exact Hi |]. split; [exact Hj |].
  apply (pairwise_force_bounded 4 all_red freshContext 4 p0 gl1
           [(0.5, 0.5, 1)] 0 1 H all_red_unit Hg Hi Hj).
Defined.

End RunBounds.

(** ** Velocities through a run *)

Section RunSpeed.
Local Open Scope R_scope.

(** A product of a number between -a and a with one between -b and b. *)
Lemma product_bound (a b x y : R) :
  -a <= x → x <= a → -b <= y → y <= b → -(a * b) <= x * y <= a * b.
Proof.
  intros Hx1 Hx2 Hy1 Hy2. assert (0 <= a) by lra. assert (0 <= b) by lra.
  split; nra.
Qed.

(** Between two particles of the box, with a gravity as seeded, one
    iteration of the pairwise loop adds at most 0.2 to a component of the
    velocity. *)
Lemma pairForce_small (S : Z) (tT tC : Texture) (pos : vec2) (color : vec3)
    (gravity : R) (i : Z) :
  in_box pos → in_box (xy (getTransform S tT i)) → 0 <= gravity <= 0.00001 →
  let f := pairForce S tT tC pos color gravity i in
  -0.2 <= x2 f <= 0.2 ∧ -0.2 <= y2 f <= 0.2.
Proof.
  intros [Hpx Hpy] [Hox Hoy] Hg f. unfold f, pairForce. cbv zeta.
  set (direction := sub2 pos (xy (getTransform S tT i))).
  set (cd := cos _ * 0.1).
  destruct (particleDistance_bounds direction) as [_ Hpd].
  { apply box_distance; assumption. }
  assert (Hd : -2 <= x2 direction <= 2 ∧ -2 <= y2 direction <= 2).
  { unfold direction, sub2. cbn [x2 y2]. lra. }
  assert (Ha : -1 <= particleDistance direction * gravity <= 1) by nra.
  assert (Hc : -0.1 <= cd <= 0.1).
  { unfold cd. match goal with |- context [cos ?a] => pose proof (COS_bound a) end.
    lra. }
  destruct Hd as [Hdx Hdy]. unfold scale2. cbn [x2 y2].
  pose proof (product_bound 2 1 (x2 direction)
                (particleDistance direction * gravity)) as Hx.
  pose proof (product_bound 2 1 (y2 direction)
                (particleDistance direction * gravity)) as Hy.
  pose proof (product_bound (2 * 1) 0.1
                (x2 direction * (particleDistance direction * gravity)) cd).
  pose proof (product_bound (2 * 1) 0.1
                (y2 direction * (particleDistance direction * gravity)) cd).
  lra.
Qed.

Lemma pairwise_loop_small (S : Z) (tT tC : Texture) (pos : vec2) (color : vec3)
    (gravity : R) (l : list Z) :
  in_box pos → (∀ i, in_box (xy (getTransform S tT i))) →
  0 <= gravity <= 0.00001 →
  ∀ vel,
    let vel' := fold_left (pairStep S tT tC pos color gravity) l vel in
    x2 vel - 0.2 * INR (length l) <= x2 vel' <= x2 vel + 0.2 * INR (length l) ∧
    y2 vel - 0.2 * INR (length l) <= y2 vel' <= y2 vel + 0.2 * INR (length l).
Proof.
  intros Hpos Hall Hg. induction l as [| i l IH]; intros vel vel'.
  - unfold vel'. cbn. lra.
  - unfold vel'. cbn [fold_left length]. rewrite S_INR.
    specialize (IH (pairStep S tT tC pos color gravity vel i)). cbv zeta in IH.
    destruct (pairForce_small S tT tC pos color gravity i Hpos (Hall i) Hg)
      as [Hfx Hfy].
    set (v1 := pairStep S tT tC pos color gravity vel i) in *.
    assert (Hx : x2 v1 = x2 vel + x2 (pairForce S tT tC pos color gravity i))
      by reflexivity.
    assert (Hy : y2 v1 = y2 vel + y2 (pairForce S tT tC pos color gravity i))
      by reflexivity.
    pose proof (pos_INR (length l)). lra.
Qed.

(** The direction the pointer branch uses has length at most 1. *)
Lemma pointerDirection_short (mouse : vec3) (pos : vec2) :
  let d := pointerDirection mouse pos in
  x2 d * x2 d + y2 d * y2 d <= 1.
Proof.
  intros d.
  destruct (Req_dec (length2 (sub2 pos (xy3 mouse))) 0) as [Hz | Hnz].
  - assert (Hd : d = sub2 pos (xy3 mouse)).
    { unfold d, pointerDirection. cbv zeta.
      destruct (Rgt_dec _ 0.0) as [Hgt | _]; [lra | reflexivity]. }
    unfold length2 in Hz. apply sqrt_eq_0 in Hz; [| nra].
    rewrite Hd. lra.
  - unfold d. rewrite (pointerDirection_unit mouse pos Hnz). lra.
Qed.

(** With a strength between -1 and 1 the pointer branch adds at most 1000
    to a component of the velocity. *)
Lemma pointerStep_small (mouse : vec3) (pos vel : vec2) :
  -1 <= z3 mouse <= 1 →
  let vel' := pointerStep mouse pos vel in
  x2 vel - 1000 <= x2 vel' <= x2 vel + 1000 ∧
  y2 vel - 1000 <= y2 vel' <= y2 vel + 1000.
Proof.
  intros Hz vel'. unfold vel', pointerStep.
  destruct (Req_dec_T (z3 mouse) 0.0) as [_ | _]; [lra |].
  unfold pointerAttraction.
  set (d := pointerDirection mouse pos).
  pose proof (pointerDirection_short mouse pos) as Hshort. cbv zeta in Hshort.
  fold d in Hshort.
  destruct (particleDistance_bounds d) as [_ Hpd]; [lra |].
  assert (Hdx : -1 <= x2 d <= 1) by (split; nra).
  assert (Hdy : -1 <= y2 d <= 1) by (split; nra).
  assert (Hpz : -100000 <= particleDistance d * z3 mouse <= 100000).
  { assert (Hpd' : -100000 <= particleDistance d <= 100000) by lra.
    pose proof (product_bound 100000 1 (particleDistance d) (z3 mouse)). lra. }
  assert (Ha : -1000 <= particleDistance d * z3 mouse * 0.01 <= 1000) by lra.
  unfold add2, scale2. cbn [x2 y2].
  pose proof (product_bound 1 1000 (x2 d)
                (particleDistance d * z3 mouse * 0.01)).
  pose proof (product_bound 1 1000 (y2 d)
                (particleDistance d * z3 mouse * 0.01)).
  lra.
Qed.

(** The wall handling changes a component of the velocity by its sign at
    most. *)
Lemma wallBounce_bound (wrap : bool) (pos vel : vec2) (B : R) :
  -B <= x2 vel <= B → -B <= y2 vel <= B →
  -B <= x2 (wallBounce wrap pos vel).2 <= B ∧
  -B <= y2 (wallBounce wrap pos vel).2 <= B.
Proof.
  intros Hx Hy. destruct pos as [px py], vel as [vx vy]. cbn [x2 y2] in *.
  unfold wallBounce, wallX, wallY.
  destruct wrap; cbn [x2 y2];
    repeat match goal with
           | |- context [if ?c then _ else _] => destruct c; cbn [fst snd x2 y2]
           end; lra.
Qed.

(** One run of the kernel keeps the velocity within the bound
    [1.8 * particleCount + 9000]: friction takes away a tenth of the
    velocity, which is as much as the forces can add. *)
Lemma updateTransform_speed (particleCount textureSize : Z) (mouse : vec3)
    (tT tC tP : Texture) (INDEX : Z) :
  (∀ i, in_box (xy (getTransform textureSize tT i))) →
  0 <= x4 (getProperties textureSize tP INDEX) <= 0.00001 →
  -1 <= z3 mouse <= 1 →
  let B := 1.8 * INR (Z.to_nat particleCount) + 9000 in
  -B <= z4 (getTransform textureSize tT INDEX) <= B →
  -B <= w4 (getTransform textureSize tT INDEX) <= B →
  let out := updateTransform particleCount textureSize mouse tT tC tP INDEX in
  -B <= z4 out <= B ∧ -B <= w4 out <= B.
Proof.
  intros Hbox Hg Hz B Hvx Hvy out.
  unfold out, updateTransform, updateTransformWith, integrate. cbv zeta.
  set (pos := xy (getTransform textureSize tT INDEX)).
  set (vel := zw (getTransform textureSize tT INDEX)).
  assert (Hpos : in_box pos) by apply (Hbox INDEX).
  pose proof (pairwise_loop_small textureSize tT tC pos
                (rgb (getColor textureSize tC INDEX))
                (x2 (xy (getProperties textureSize tP INDEX)))
                (indices particleCount) Hpos Hbox Hg vel) as Hloop.
  cbv zeta in Hloop.
  set (vel1 := fold_left _ (indices particleCount) vel) in *.
  pose proof (pointerStep_small mouse pos vel1 Hz) as Hptr. cbv zeta in Hptr.
  set (vel2 := pointerStep mouse pos vel1) in *.
  assert (Hlen : INR (length (indices particleCount)) = INR (Z.to_nat particleCount)).
  { unfold indices. rewrite length_fmap, length_seq. reflexivity. }
  rewrite Hlen in Hloop.
  change (x2 vel) with (z4 (getTransform textureSize tT INDEX)) in Hloop.
  change (y2 vel) with (w4 (getTransform textureSize tT INDEX)) in Hloop.
  pose proof (pos_INR (Z.to_nat particleCount)) as Hn.
  assert (H3 : -B <= x2 (scale2 vel2 0.9) <= B ∧ -B <= y2 (scale2 vel2 0.9) <= B).
  { unfold scale2, B in *. cbn [x2 y2]. lra. }
  destruct H3 as [H3x H3y].
  pose proof (wallBounce_bound wrapAround (add2 pos (scale2 vel2 0.9))
                (scale2 vel2 0.9) B H3x H3y) as Hwall.
  destruct (wallBounce wrapAround (add2 pos (scale2 vel2 0.9)) (scale2 vel2 0.9))
    as [pos' vel']. cbn [snd z4 w4] in *. exact Hwall.
Qed.

(** In a square texture a fetch at an index outside the grid gives the
    zero record. *)
Lemma fetchFromIndex_grid (S : Z) (t : Texture) (i : Z) :
  square_texture S t → (0 < S)%Z →
  fetchFromIndex S t i = zero4 ∨ (0 ≤ i < S * S)%Z.
Proof.
  intros (Hw & Hh & _) HS.
  destruct (decide (0 ≤ Z.rem i S < S ∧ 0 ≤ Z.quot i S < S)%Z) as [Hin | Hout].
  - right. pose proof (Z.quot_rem i S ltac:(lia)). nia.
  - left. unfold fetchFromIndex. apply texelFetch_outside. rewrite Hw, Hh. lia.
Qed.

(** The cells of the property texture as seeded: gravity 0.00001 for a
    particle, 0 for a cell without one. *)
Lemma seeded_gravity PC hsv gl N p gl' (k : Z) :
  createParticles PC hsv gl N = Some (p, gl') →
  (0 ≤ k < textureSize p * textureSize p)%Z →
  0 <= x4 (particle p gl' (read (propertyTexture p)) k) <= 0.00001.
Proof.
  intros H Hk.
  destruct (createParticles_storage _ _ _ _ _ _ H)
    as (HS & _ & _ & _ & _ & _ & HrP & _).
  rewrite particle_storage, HrP, seededTexture_fetch by lia.
  destruct (Z.lt_ge_cases k N) as [Hlt | Hge].
  - rewrite (seedData_texel _ _ k 0.00001 0 0 0); [cbn; lra | lia | |].
    + intros j Hj. unfold initProperties. destruct (Z.ltb_spec j N); [eauto | lia].
    + unfold initProperties. destruct (Z.ltb_spec k N); [reflexivity | lia].
  - rewrite (seedData_stops _ _ k k); [cbn; lra | lia |].
    unfold initProperties. destruct (Z.ltb_spec k N); [lia | reflexivity].
Qed.

(** Both copies of the transform texture are seeded at rest. *)
Lemma seeded_at_rest PC hsv gl N p gl' (k : Z) name :
  createParticles PC hsv gl N = Some (p, gl') →
  (0 ≤ k < textureSize p * textureSize p)%Z →
  name = read (transformTexture p) ∨ name = write (transformTexture p) →
  z4 (particle p gl' name k) = 0 ∧ w4 (particle p gl' name k) = 0.
Proof.
  intros H Hk Hname.
  destruct (createParticles_storage _ _ _ _ _ _ H) as (HS & _ & HrT & HwT & _).
  rewrite particle_storage.
  assert (Hst : storage gl' name = seededTexture (textureSize p) (initTransform N))
    by (destruct Hname as [-> | ->]; assumption).
  rewrite Hst, seededTexture_fetch by lia.
  destruct (Z.lt_ge_cases k N) as [Hlt | Hge].
  - rewrite (seedData_texel _ _ k (sin (IZR k / IZR N * PI * 2) / 2)
               (cos (IZR k / IZR N * PI * 2) / 2) 0 0); [auto | lia | |].
    + intros j Hj. unfold initTransform. destruct (Z.ltb_spec j N); [eauto | lia].
    + unfold initTransform. destruct (Z.ltb_spec k N); [reflexivity | lia].
  - rewrite (seedData_stops _ _ k k); [auto | lia |].
    unfold initTransform. destruct (Z.ltb_spec k N); [lia | reflexivity].
Qed.

(** One step keeps the velocity of a cell within the bound, in both
    copies of the transform texture, when every position is in the box and
    the gravity of the cell is as seeded. *)
Lemma update_speed PC p gl mx my pressed (k : Z) :
  Consistent PC p gl →
  (0 ≤ k < textureSize p * textureSize p)%Z →
  -1 <= pressed <= 1 →
  (∀ i, (0 ≤ i < textureSize p * textureSize p)%Z →
        in_box (xy (particle p gl (read (transformTexture p)) i))) →
  0 <= x4 (particle p gl (read (propertyTexture p)) k) <= 0.00001 →
  let B := 1.8 * INR (Z.to_nat PC) + 9000 in
  (∀ name, name = read (transformTexture p) ∨ name = write (transformTexture p) →
     -B <= z4 (particle p gl name k) <= B ∧ -B <= w4 (particle p gl name k) <= B) →
  let s' := update p mx my pressed gl in
  ∀ name, name = read (transformTexture s'.1) ∨ name = write (transformTexture s'.1) →
    -B <= z4 (particle s'.1 s'.2 name k) <= B ∧
    -B <= w4 (particle s'.1 s'.2 name k) <= B.
Proof.
  intros HC Hk Hz Hbox Hg B Hv s' name Hname.
  pose proof (consistent_side _ _ _ HC) as HS.
  destruct (dispatch_cells _ _ _ mx my pressed k HC Hk) as (HrT & _ & _ & HwT & _).
  unfold s', update in *. cbn [fst snd swapAll publish transformTexture swap
                               read write] in *.
  rewrite (particle_side (swapAll (publish p)) p) by reflexivity.
  destruct Hname as [-> | ->]; [| rewrite HrT; apply Hv; auto].
  rewrite HwT. destruct (k >? PC)%Z; [apply Hv; auto |].
  apply updateTransform_speed.
  - intros i. unfold getTransform.
    destruct (fetchFromIndex_grid (textureSize p)
                (storage gl (read (transformTexture p))) i) as [-> | Hi];
      [| exact HS | |].
    + apply (Consistent_storage _ _ _ _ HC).
      rewrite names_six, !elem_of_cons. tauto.
    + unfold in_box, zero4. cbn. lra.
    + rewrite <- particle_storage. apply Hbox, Hi.
  - unfold getProperties. rewrite <- particle_storage. exact Hg.
  - exact Hz.
  - unfold getTransform. rewrite <- particle_storage. apply Hv. auto.
  - unfold getTransform. rewrite <- particle_storage. apply Hv. auto.
Qed.

(** X27: velocities do not run away.  Through a run in which the colours
    seeded have their components in [0,1] and every pointer sample has a
    strength between -1 and 1, each component of the velocity of every
    cell of the published transform texture stays between [-B] and [B],
    for [B = 1.8 * PARTICLE_COUNT + 9000]: in one step the pairwise loop
    adds at most 0.2 per particle and the pointer at most 1000, and
    friction takes a tenth away. *)
Theorem velocities_stay_bounded PC hsv gl0 N p0 gl1 pointer (k : Z) :
  createParticles PC hsv gl0 N = Some (p0, gl1) →
  unit_colors hsv → gentle pointer →
  (0 ≤ k < textureSize p0 * textureSize p0)%Z →
  let s := run (p0, gl1) pointer in
  let B := 1.8 * INR (Z.to_nat PC) + 9000 in
  ∃ t, getParticleState s.1 s.2 k (textureTransform s.1) = Some t ∧
       -B <= z4 t <= B ∧ -B <= w4 t <= B.
Proof.
  intros Hcreate _ Hgentle Hk s B.
  pose proof (createParticles_Consistent _ _ _ _ _ _ Hcreate) as HC0.
  destruct (createParticles_storage _ _ _ _ _ _ Hcreate)
    as (_ & _ & _ & _ & HrC & HwC & HrP & HwP).
  pose proof (pos_INR (Z.to_nat PC)) as Hn.
  set (c := λ i, particle p0 gl1 (read (colorTexture p0)) i).
  set (q := λ i, particle p0 gl1 (read (propertyTexture p0)) i).
  set (I := λ (p : Particles) (gl : GL),
         textureSize p = textureSize p0 ∧
         ∀ i, (0 ≤ i < textureSize p0 * textureSize p0)%Z →
           (∀ name, name = read (transformTexture p) ∨
                    name = write (transformTexture p) →
              -1 <= x4 (particle p gl name i) <= 1 ∧
              -1 <= y4 (particle p gl name i) <= 1) ∧
           (∀ name, name = read (transformTexture p) ∨
                    name = write (transformTexture p) →
              -B <= z4 (particle p gl name i) <= B ∧
              -B <= w4 (particle p gl name i) <= B) ∧
           (particle p gl (read (colorTexture p)) i = c i ∧
            particle p gl (write (colorTexture p)) i = c i) ∧
           (particle p gl (read (propertyTexture p)) i = q i ∧
            particle p gl (write (propertyTexture p)) i = q i)).
  assert (Hrun : I s.1 s.2).
  { apply (run_invariant PC (λ sample, -1 <= sample.2 <= 1) I);
      [| exact Hgentle | exact HC0 |].
    - intros p gl mx my pressed Hz HC [Hside HI]. split; [exact Hside |].
      intros i Hi. destruct (HI i Hi) as (Hbox & Hvel & Hc & Hq).
      rewrite <- Hside in Hi. split; [| split].
      + apply (update_box PC); assumption.
      + apply (update_speed PC); try assumption.
        * intros j Hj. rewrite Hside in Hj.
          destruct (HI j Hj) as (Hboxj & _). apply Hboxj. auto.
        * destruct Hq as [-> _]. unfold q.
          apply (seeded_gravity _ _ _ _ _ _ _ Hcreate). rewrite <- Hside. exact Hi.
      + apply (update_constant_cell PC p gl mx my pressed i (c i) (q i));
          try assumption; intros db ->; assumption.
    - split; [reflexivity |]. intros i Hi. cbn [fst snd]. split; [| split].
      + intros name Hname.
        apply (seeded_transform_box _ _ _ _ _ _ _ _ Hcreate Hi Hname).
      + intros name Hname.
        destruct (seeded_at_rest _ _ _ _ _ _ _ _ Hcreate Hi Hname) as [-> ->].
        unfold B. lra.
      + unfold c, q. rewrite !particle_storage, HrC, HwC, HrP, HwP. auto. }
  destruct Hrun as [_ HI]. destruct (HI k Hk) as (_ & Hvel & _).
  pose proof (run_Consistent PC pointer (p0, gl1) HC0) as HC. fold s in HC.
  pose proof (consistent_published _ _ _ HC) as Hpub. injection Hpub as HpT _ _.
  exists (particle s.1 s.2 (textureTransform s.1) k). split.
  - apply (getParticleState_particle _ _ _ _ _ HC).
    rewrite HpT, names_six, !elem_of_cons. unfold getRead. tauto.
  - rewrite HpT. apply Hvel. auto.
Qed.

Lemma velocities_stay_bounded_witness :
  ∃ p0 gl1,
    createParticles 4 all_red freshContext 4 = Some (p0, gl1) ∧
    unit_colors all_red ∧ gentle [(0.5, 0.5, 1); (0, 0, -1)] ∧
    (0 ≤ 1 < textureSize p0 * textureSize p0)%Z ∧
    let s := run (p0, gl1) [(0.5, 0.5, 1); (0, 0, -1)] in
    ∃ t, getParticleState s.1 s.2 1 (textureTransform s.1) = Some t ∧
         - (1.8 * INR (Z.to_nat 4) + 9000) <= z4 t <= 1.8 * INR (Z.to_nat 4) + 9000.
Proof.
  destruct (createParticles_fresh 4 all_red 4) as [[p0 gl1] H].
  exists p0, gl1. split; [exact H |].
  assert (HS : textureSize p0 = 2%Z).
  { pose proof (createParticles_Some _ _ _ _ _ _ H) as (HS & _).
    assert (Hrun : initialTextureSize 4 = Some 2%Z) by reflexivity.
    congruence. }
  assert (Hk : (0 ≤ 1 < textureSize p0 * textureSize p0)%Z) by (rewrite HS; lia).
  assert (Hg : gentle [(0.5, 0.5, 1); (0, 0, -1)]).
  { repeat (apply Forall_cons; split; [cbn; lra |]). apply Forall_nil_2. }
  split; [exact all_red_unit |]. split; [exact Hg |]. split; [exact Hk |].
  destruct (velocities_stay_bounded 4 all_red freshContext 4 p0 gl1
              [(0.5, 0.5, 1); (0, 0, -1)] 1 H all_red_unit Hg Hk)
    as (t & Ht & Hz & _).
  exists t. split; [exact Ht | exact Hz].
Defined.

End RunSpeed.

(** ** What [update] leaves alone *)

Section Frame.

Lemma writeAttachment_contextLost i frag out gl :
  gl_contextLost (writeAttachment i frag out gl) = gl_contextLost gl.
Proof.
  unfold writeAttachment. destruct (gl_attachments gl !! i) as [texture |];
    [| reflexivity].
  destruct (gl_textures gl !! texture); reflexivity.
Qed.

Lemma dispatch_contextLost p mx my pressed gl :
  gl_contextLost (dispatch p mx my pressed gl) = gl_contextLost gl.
Proof.
  unfold dispatch, drawArrays. cbv zeta.
  repeat match goal with
         | |- context [match sampled ?g ?u with _ => _ end] =>
             destruct (sampled g u)
         end;
    rewrite ?writeAttachment_contextLost; reflexivity.
Qed.

(** X17: [update] allocates nothing and frees nothing: the context holds
    the same texture objects after the step as before, the context is not
    lost by it, every texture other than the three write sides keeps its
    storage, and the object keeps its count, its grid side and its
    program. *)
Theorem update_frame PC p gl mx my pressed :
  Consistent PC p gl →
  let s' := update p mx my pressed gl in
  dom (gl_textures s'.2) = dom (gl_textures gl) ∧
  gl_contextLost s'.2 = gl_contextLost gl ∧
  (∀ name, name ∉ getWrite <$> buffers p →
           gl_textures s'.2 !! name = gl_textures gl !! name) ∧
  count s'.1 = count p ∧ textureSize s'.1 = textureSize p ∧
  program s'.1 = program p.
Proof.
  intros HC s'. unfold s', update. cbn [fst snd].
  assert (Hall : ∀ name, name ∈ names p → is_Some (gl_textures gl !! name)).
  { intros name Hin. destruct (Consistent_storage _ _ _ _ HC Hin) as [-> _]. eauto. }
  rewrite names_six in Hall.
  split_and!; try reflexivity.
  - rewrite (dispatch_textures _ _ _ _ _ _ HC). unfold getWrite.
    rewrite dom_insert_lookup_L; [reflexivity |].
    apply Hall. rewrite !elem_of_cons. tauto.
  - apply dispatch_contextLost.
  - intros name Hname. rewrite (dispatch_textures _ _ _ _ _ _ HC).
    unfold buffers, textures in Hname. cbn in Hname.
    rewrite !not_elem_of_cons in Hname. destruct_and!.
    rewrite !lookup_insert_ne by congruence. reflexivity.
Qed.

Lemma update_frame_witness :
  ∃ p gl,
    createParticles 4 all_red freshContext 4 = Some (p, gl) ∧
    Consistent 4 p gl ∧
    dom (gl_textures (update p 0.5 0.5 1 gl).2) = dom (gl_textures gl).
Proof.
  destruct (createParticles_fresh 4 all_red 4)
    as [[p gl] H].
  exists p, gl. split; [exact H |].
  pose proof (createParticles_Consistent _ _ _ _ _ _ H) as HC.
  split; [exact HC |].
  apply (update_frame 4 p gl 0.5 0.5 1 HC).
Defined.

Lemma swap_swap (db : DoubleBuffer) : swap (swap db) = db.
Proof. destruct db. reflexivity. Qed.

(** X18: the double buffers ping-pong with period two: the textures
    published by a step are not the ones published before it, and after a
    second step the double buffers and the published textures are again
    those held before the first. *)
Theorem update_ping_pong PC p gl mx my pressed mx' my' pressed' :
  Consistent PC p gl →
  let s1 := update p mx my pressed gl in
  let s2 := update s1.1 mx' my' pressed' s1.2 in
  Forall (λ name, name ∉ published p) (published s1.1) ∧
  buffers s2.1 = buffers p ∧
  published s2.1 = published p.
Proof.
  intros HC s1 s2.
  pose proof (Consistent_distinct _ _ _ HC) as Hd. cbv zeta in Hd.
  pose proof (consistent_published _ _ _ HC) as Hpub.
  destruct_and!.
  split_and!.
  - rewrite Hpub. unfold s1, update, published, buffers, textures.
    cbn. unfold getRead, getWrite.
    repeat (apply Forall_cons; split;
            [rewrite !not_elem_of_cons; split_and?;
             first [apply not_elem_of_nil | congruence] |]).
    apply Forall_nil_2.
  - unfold s2, s1, update, buffers, textures. cbn. rewrite !swap_swap. reflexivity.
  - rewrite Hpub. unfold s2, s1, update, published, buffers, textures. cbn.
    reflexivity.
Qed.

Lemma update_ping_pong_witness :
  ∃ p gl,
    createParticles 4 all_red freshContext 4 = Some (p, gl) ∧
    Consistent 4 p gl ∧
    published (update (update p 0.5 0.5 1 gl).1 0 0 0 (update p 0.5 0.5 1 gl).2).1
    = published p.
Proof.
  destruct (createParticles_fresh 4 all_red 4)
    as [[p gl] H].
  exists p, gl. split; [exact H |].
  pose proof (createParticles_Consistent _ _ _ _ _ _ H) as HC.
  split; [exact HC |].
  apply (update_ping_pong 4 p gl 0.5 0.5 1 0 0 0 HC).
Defined.

End Frame.

(** ** The pointer and the frame loop of [createSimulation] *)

Section FrameLoop.
Local Open Scope R_scope.

(** X19: [mouseMove] maps the rectangle of the canvas onto the square
    [-1,1] x [-1,1] with the vertical axis turned over: the left edge goes
    to -1 and the right edge to 1, the top edge to 1 and the bottom edge to
    -1, a pointer inside the rectangle lands inside the square, and the
    client coordinates can be recovered from the result.  Nothing but the
    pointer position changes. *)
Theorem mouseMove_maps_canvas (e : MouseEvent) (rect : DOMRect) (s : Simulation) :
  0 < rect_width rect → 0 < rect_height rect →
  let s' := mouseMove e rect s in
  (rect_left rect <= clientX e <= rect_left rect + rect_width rect →
   -1 <= sim_mx s' <= 1) ∧
  (rect_top rect <= clientY e <= rect_top rect + rect_height rect →
   -1 <= sim_my s' <= 1) ∧
  (clientX e = rect_left rect → sim_mx s' = -1) ∧
  (clientX e = rect_left rect + rect_width rect → sim_mx s' = 1) ∧
  (clientY e = rect_top rect → sim_my s' = 1) ∧
  (clientY e = rect_top rect + rect_height rect → sim_my s' = -1) ∧
  clientX e = rect_left rect + (sim_mx s' + 1) / 2 * rect_width rect ∧
  clientY e = rect_top rect + (1 - sim_my s') / 2 * rect_height rect ∧
  sim_pressed s' = sim_pressed s ∧ sim_particles s' = sim_particles s ∧
  sim_gl s' = sim_gl s.
Proof.
  intros Hw Hh s'. unfold s', mouseMove. cbn.
  set (w := rect_width rect) in *. set (h := rect_height rect) in *.
  set (dx := clientX e - rect_left rect). set (dy := clientY e - rect_top rect).
  assert (Hx : dx / w * w = dx) by (field; lra).
  assert (Hy : dy / h * h = dy) by (field; lra).
  assert (Hw' : 0 < / w) by (apply Rinv_0_lt_compat; exact Hw).
  assert (Hh' : 0 < / h) by (apply Rinv_0_lt_compat; exact Hh).
  split_and!; try reflexivity.
  - intros Hin. assert (0 <= dx <= w) by (unfold dx; lra).
    unfold Rdiv in *. nra.
  - intros Hin. assert (0 <= dy <= h) by (unfold dy; lra).
    unfold Rdiv in *. nra.
  - intros Heq. replace dx with 0 by (unfold dx; lra). unfold Rdiv. lra.
  - intros Heq. replace dx with w by (unfold dx; lra).
    replace (w / w) with 1 by (field; lra). lra.
  - intros Heq. replace dy with 0 by (unfold dy; lra). unfold Rdiv. lra.
  - intros Heq. replace dy with h by (unfold dy; lra).
    replace (h / h) with 1 by (field; lra). lra.
  - unfold dx in *. lra.
  - unfold dy in *. lra.
Qed.

Lemma mouseMove_maps_canvas_witness :
  let rect := MkDOMRect 10 20 200 100 in
  let e := MkMouseEvent 110 20 0 in
  0 < rect_width rect ∧ 0 < rect_height rect ∧
  clientX e = rect_left rect + (0 + 1) / 2 * rect_width rect ∧
  ∀ s, sim_pressed (mouseMove e rect s) = sim_pressed s.
Proof.
  cbv zeta. cbn. split; [lra |]. split; [lra |]. split; [lra |].
  intros s.
  apply (mouseMove_maps_canvas (MkMouseEvent 110 20 0) (MkDOMRect 10 20 200 100) s);
    cbn; lra.
Defined.

(** The fields after a [tick] of a simulation that is not destroyed. *)
Lemma tick_live (s : Simulation) :
  sim_destroyed s = false →
  let u := update (sim_particles s) (sim_mx s) (sim_my s) (sim_pressed s)
                  (sim_gl s) in
  sim_particles (tick s) = u.1 ∧ sim_gl (tick s) = renderPass u.1 u.2 ∧
  sim_mx (tick s) = sim_mx s ∧ sim_my (tick s) = sim_my s ∧
  sim_pressed (tick s) = sim_pressed s ∧ sim_destroyed (tick s) = false ∧
  sim_listening (tick s) = sim_listening s ∧ sim_scheduled (tick s) = true.
Proof.
  intros Hd u. unfold tick. rewrite Hd. subst u.
  destruct (update (sim_particles s) (sim_mx s) (sim_my s) (sim_pressed s)
                   (sim_gl s)) as [p gl].
  cbn [fst snd sim_particles sim_gl sim_mx sim_my sim_pressed sim_destroyed
       sim_listening sim_scheduled].
  auto 10.
Qed.

Lemma tick_pressed (s : Simulation) : sim_pressed (tick s) = sim_pressed s.
Proof.
  destruct (sim_destroyed s) eqn:Hd.
  - unfold tick. rewrite Hd. reflexivity.
  - apply (tick_live s Hd).
Qed.

(** Every handler leaves the strength in {-1, 0, 1}. *)
Lemma handle_pressed (s : Simulation) (ev : Event) :
  sim_pressed s = -1 ∨ sim_pressed s = 0 ∨ sim_pressed s = 1 →
  sim_pressed (handle s ev) = -1 ∨ sim_pressed (handle s ev) = 0 ∨
  sim_pressed (handle s ev) = 1.
Proof.
  intros H. destruct ev as [e rect | e | e | |]; cbn.
  - destruct (sim_listening s); exact H.
  - destruct (sim_listening s); [| exact H]. cbn.
    destruct (buttons e =? 4)%Z; auto.
  - destruct (sim_listening s); [cbn; auto | exact H].
  - destruct (sim_scheduled s); [| exact H]. rewrite tick_pressed. exact H.
  - exact H.
Qed.

Lemma createSimulation_Running PC hsv context s0 :
  createSimulation PC hsv context = Running s0 →
  ∃ gl0 p0 gl1,
    context = Some gl0 ∧
    createParticles PC hsv gl0 PC = Some (p0, gl1) ∧
    s0 = tick (MkSimulation gl1 0 0 0 p0 false true false).
Proof.
  unfold createSimulation. destruct context as [gl0 |]; [| discriminate].
  cbv zeta.
  destruct (createParticles PC hsv gl0 PC) as [[p0 gl1] |] eqn:H; [| discriminate].
  destruct (createShaderProgram gl1 RenderVertex RenderFragment);
    [| discriminate].
  destruct (count p0 * 12 <? 0)%Z; [discriminate |].
  intros [= <-]. eauto 6.
Qed.

(** [createSimulation] against [ready]. *)
Lemma createSimulation_ready PC hsv gl0 :
  if ready PC gl0
  then ∃ p0 gl1,
         createParticles PC hsv gl0 PC = Some (p0, gl1) ∧
         createSimulation PC hsv (Some gl0)
         = Running (tick (MkSimulation gl1 0 0 0 p0 false true false))
  else createSimulation PC hsv (Some gl0) = Thrown.
Proof.
  unfold createSimulation, ready. cbv zeta.
  pose proof (createParticles_is_Some PC hsv gl0 PC) as Hsome.
  destruct (initialTextureSize_total PC) as [S HS]. rewrite HS in *.
  destruct (createParticles PC hsv gl0 PC) as [[p0 gl1] |] eqn:H.
  - destruct (proj1 Hsome ltac:(eauto))
      as (S' & [= <-] & Ht & Hp & Hs & Hl & Hv & Hf).
    destruct (createParticles_flags _ _ _ _ _ _ H) as [Hlost Hplat].
    pose proof (createParticles_Some _ _ _ _ _ _ H) as (_ & Hcount & _).
    pose proof (createShaderProgram_Some gl1 RenderVertex RenderFragment)
      as Hrender.
    rewrite Hplat, Hlost in Hrender.
    rewrite Ht, Hp, Hs, Hl, Hv, Hf, Hcount. cbn [negb andb].
    rewrite !andb_true_r.
    destruct (createShaderProgram gl1 RenderVertex RenderFragment) as [prog |].
    + destruct (proj1 Hrender ltac:(eauto)) as (_ & _ & _ & -> & ->).
      rewrite !andb_true_r.
      destruct (Z.leb_spec 0 PC), (Z.ltb_spec (PC * 12) 0); try lia; eauto.
    + destruct (compile_status (gl_platform gl0) VERTEX_SHADER RenderVertex)
        eqn:Hrv; [| rewrite !andb_false_r; reflexivity].
      destruct (compile_status (gl_platform gl0) FRAGMENT_SHADER RenderFragment)
        eqn:Hrf; [| rewrite !andb_false_r; reflexivity].
      destruct (proj2 Hrender) as [x Hx]; [split_and!; auto | discriminate].
  - destruct (0 <=? PC)%Z; cbn [andb]; [| reflexivity].
    destruct (null_texture (gl_platform gl0)) eqn:Ht; cbn [negb andb];
      [reflexivity |].
    destruct (null_program (gl_platform gl0)) eqn:Hp; cbn [negb andb];
      [reflexivity |].
    destruct (null_shader (gl_platform gl0)) eqn:Hs; cbn [negb andb];
      [reflexivity |].
    destruct (gl_contextLost gl0) eqn:Hl; cbn [negb andb]; [reflexivity |].
    destruct (compile_status (gl_platform gl0) VERTEX_SHADER FullscreenVertex)
      eqn:Hv; cbn [andb]; [| reflexivity].
    destruct (compile_status (gl_platform gl0) FRAGMENT_SHADER
                (SimulationFragment PC S)) eqn:Hf; cbn [andb]; [| reflexivity].
    destruct (proj2 Hsome) as [x Hx]; [| discriminate].
    exists S. split_and!; auto.
Qed.

Lemma createSimulation_nonnegative PC hsv context s0 :
  createSimulation PC hsv context = Running s0 → (0 ≤ PC)%Z.
Proof.
  destruct context as [gl0 |]; [| discriminate].
  pose proof (createSimulation_ready PC hsv gl0) as H.
  destruct (ready PC gl0) eqn:Hready.
  - intros _. unfold ready in Hready. cbv zeta in Hready.
    destruct (Z.leb_spec 0 PC); [assumption | discriminate].
  - rewrite H. discriminate.
Qed.

Lemma createSimulation_fresh PC hsv :
  (0 ≤ PC)%Z →
  ∃ p0 gl1,
    createParticles PC hsv freshContext PC = Some (p0, gl1) ∧
    createSimulation PC hsv (Some freshContext)
    = Running (tick (MkSimulation gl1 0 0 0 p0 false true false)).
Proof.
  intros HPC.
  pose proof (createSimulation_ready PC hsv freshContext) as H.
  assert (Hready : ready PC freshContext = true).
  { unfold ready. destruct (initialTextureSize_total PC) as [S ->].
    cbn. rewrite !andb_true_r. apply Z.leb_le, HPC. }
  rewrite Hready in H. exact H.
Qed.

(** X20: the strength [update] is called with is always -1, 0 or 1: it
    starts at 0, a button press sets it to -1 when [buttons] is 4 and to 1
    otherwise, a release sets it back to 0, and nothing else writes it. *)
Theorem strength_is_a_sign PC hsv context s0 (events : list Event) :
  createSimulation PC hsv context = Running s0 →
  let s := handleAll s0 events in
  (sim_pressed s = -1 ∨ sim_pressed s = 0 ∨ sim_pressed s = 1) ∧
  Forall (λ sample : R * R * R, sample.2 = -1 ∨ sample.2 = 0 ∨ sample.2 = 1)
         (samples s0 events).
Proof.
  intros Hcreate s.
  destruct (createSimulation_Running _ _ _ _ Hcreate) as (gl0 & p0 & gl1 & _ & _ & Hs0).
  assert (H0 : sim_pressed s0 = -1 ∨ sim_pressed s0 = 0 ∨ sim_pressed s0 = 1).
  { rewrite Hs0, tick_pressed. cbn [sim_pressed]. auto. }
  clear Hcreate Hs0. unfold s. clear s.
  revert s0 H0. induction events as [| ev events IH]; intros s0 H0.
  - split; [exact H0 | apply Forall_nil_2].
  - destruct (IH (handle s0 ev) (handle_pressed s0 ev H0)) as [Hend Hall].
    split; [exact Hend |]. cbn [samples].
    destruct ev; try exact Hall.
    destruct (sim_scheduled s0 && negb (sim_destroyed s0)); [| exact Hall].
    apply Forall_cons. split; [exact H0 | exact Hall].
Qed.

Lemma strength_is_a_sign_witness :
  ∃ s0,
    createSimulation 4 all_red (Some freshContext) = Running s0 ∧
    let s := handleAll s0 [MouseDown (MkMouseEvent 0 0 4); AnimationFrame] in
    sim_pressed s = -1 ∨ sim_pressed s = 0 ∨ sim_pressed s = 1.
Proof.
  destruct (createSimulation_fresh 4 all_red ltac:(lia)) as (p0 & gl1 & H & Hcreate).
  exists (tick (MkSimulation gl1 0 0 0 p0 false true false)).
  split; [exact Hcreate |].
  apply (strength_is_a_sign 4 all_red (Some freshContext) _
           [MouseDown (MkMouseEvent 0 0 4); AnimationFrame] Hcreate).
Defined.

(** After [destroy] no handler touches the simulation. *)
Lemma handle_destroyed (s : Simulation) (ev : Event) :
  sim_destroyed s = true → sim_listening s = false →
  let s' := handle s ev in
  sim_destroyed s' = true ∧ sim_listening s' = false ∧
  sim_particles s' = sim_particles s ∧ sim_gl s' = sim_gl s ∧
  sim_mx s' = sim_mx s ∧ sim_my s' = sim_my s ∧ sim_pressed s' = sim_pressed s.
Proof.
  intros Hd Hl. destruct ev as [e rect | e | e | |]; cbn; rewrite ?Hl; auto 10.
  destruct (sim_scheduled s); [| auto 10]. unfold tick. rewrite Hd. cbn. auto 10.
Qed.

(** X21: once the function returned by [createSimulation] has been called,
    the simulation is frozen: whatever events follow, [update] is never
    called again, and the particles, the context and the pointer stay as
    they were. *)
Theorem destroy_freezes (s : Simulation) (events : list Event) :
  let s' := handleAll (destroy s) events in
  samples (destroy s) events = [] ∧
  sim_particles s' = sim_particles s ∧ sim_gl s' = sim_gl s ∧
  sim_mx s' = sim_mx s ∧ sim_my s' = sim_my s ∧ sim_pressed s' = sim_pressed s ∧
  sim_destroyed s' = true.
Proof.
  cbv zeta.
  assert (H : ∀ events d,
            sim_destroyed d = true → sim_listening d = false →
            samples d events = [] ∧
            sim_particles (handleAll d events) = sim_particles d ∧
            sim_gl (handleAll d events) = sim_gl d ∧
            sim_mx (handleAll d events) = sim_mx d ∧
            sim_my (handleAll d events) = sim_my d ∧
            sim_pressed (handleAll d events) = sim_pressed d ∧
            sim_destroyed (handleAll d events) = true).
  { clear. induction events as [| ev events IH]; intros d Hd Hl.
    - cbn. auto 10.
    - destruct (handle_destroyed d ev Hd Hl) as (Hd' & Hl' & Hp & Hg & Hx & Hy & Hz).
      destruct (IH (handle d ev) Hd' Hl') as (Hs & Hp' & Hg' & Hx' & Hy' & Hz' & Hd'').
      cbn [handleAll fold_left samples]. fold (handleAll (handle d ev) events).
      rewrite Hs, Hp', Hg', Hx', Hy', Hz', Hd'', Hp, Hg, Hx, Hy, Hz.
      split_and!; try reflexivity.
      destruct ev; try reflexivity.
      rewrite Hd, andb_false_r. reflexivity. }
  apply (H events (destroy s)); reflexivity.
Qed.

(** [Consistent] and the kernel look at the textures of the context only. *)
Lemma Consistent_textures PC p gl gl2 :
  gl_textures gl2 = gl_textures gl → Consistent PC p gl → Consistent PC p gl2.
Proof.
  intros HT [H1 H2 H3 H4 H5]. split; try assumption.
  intros name Hin. rewrite HT. apply H4, Hin.
Qed.

Lemma update_textures_only PC p gl gl2 mx my pressed :
  Consistent PC p gl → gl_textures gl2 = gl_textures gl →
  (update p mx my pressed gl2).1 = (update p mx my pressed gl).1 ∧
  gl_textures (update p mx my pressed gl2).2
  = gl_textures (update p mx my pressed gl).2.
Proof.
  intros HC HT. split; [reflexivity |].
  pose proof (Consistent_textures _ _ _ _ HT HC) as HC2.
  unfold update. cbn [snd].
  rewrite (dispatch_textures _ _ _ _ _ _ HC), (dispatch_textures _ _ _ _ _ _ HC2).
  assert (Hst : ∀ name, storage gl2 name = storage gl name).
  { intros name. unfold storage. rewrite HT. reflexivity. }
  unfold kernel. rewrite !Hst, HT. reflexivity.
Qed.

Lemma renderPass_textures p gl :
  gl_textures (renderPass p gl) = gl_textures gl.
Proof. reflexivity. Qed.

Lemma run_cons (r : Particles * GL) (mx my pressed : R) pointer :
  run r ((mx, my, pressed) :: pointer) = run (update r.1 mx my pressed r.2) pointer.
Proof. reflexivity. Qed.

(** The frame loop against a run of [update] over the sampled pointer. *)
Lemma handleAll_run PC (events : list Event) : ∀ s r,
  Consistent PC r.1 r.2 →
  sim_particles s = r.1 → gl_textures (sim_gl s) = gl_textures r.2 →
  let s' := handleAll s events in
  let r' := run r (samples s events) in
  Consistent PC r'.1 r'.2 ∧
  sim_particles s' = r'.1 ∧ gl_textures (sim_gl s') = gl_textures r'.2.
Proof.
  induction events as [| ev events IH]; intros s r HC Hp HT; [cbn; auto |].
  cbn [handleAll fold_left samples]. fold (handleAll (handle s ev) events).
  destruct ev as [e rect | e | e | |].
  - apply IH; try assumption; cbn; destruct (sim_listening s); assumption.
  - apply IH; try assumption; cbn; destruct (sim_listening s); assumption.
  - apply IH; try assumption; cbn; destruct (sim_listening s); assumption.
  - cbn [handle]. destruct (sim_scheduled s); cbn [andb];
      [| apply IH; assumption].
    destruct (sim_destroyed s) eqn:Hd; cbn [negb].
    + apply IH; try assumption; unfold tick; rewrite Hd; assumption.
    + rewrite run_cons.
      destruct (update_textures_only PC r.1 r.2 (sim_gl s)
                  (sim_mx s) (sim_my s) (sim_pressed s) HC HT) as [H1 H2].
      rewrite <- Hp in H1 at 1. rewrite <- Hp in H2 at 1.
      destruct (tick_live s Hd) as (Hp' & Hg' & _).
      apply IH; [apply update_Consistent, HC | |].
      * rewrite Hp'. exact H1.
      * rewrite Hg', renderPass_textures. exact H2.
  - apply IH; assumption.
Qed.

(** X22: the frame loop is a run of [update]: after any sequence of events
    the particles object and the textures of a simulation made by
    [createSimulation] are those of [createParticles] followed by one
    [update] with the pointer at (0, 0, 0), the first [tick], and one
    [update] per later animation frame with the pointer as the handlers
    left it; the render pass changes no texture, and the object and the
    context stay consistent. *)
Theorem frame_loop_is_a_run PC hsv gl0 s0 (events : list Event) :
  createSimulation PC hsv (Some gl0) = Running s0 →
  ∃ p0 gl1,
    createParticles PC hsv gl0 PC = Some (p0, gl1) ∧
    let s := handleAll s0 events in
    let r := run (p0, gl1) ((0, 0, 0) :: samples s0 events) in
    sim_particles s = r.1 ∧
    gl_textures (sim_gl s) = gl_textures r.2 ∧
    Consistent PC (sim_particles s) (sim_gl s).
Proof.
  intros Hcreate.
  destruct (createSimulation_Running _ _ _ _ Hcreate)
    as (gl0' & p0 & gl1 & [= <-] & Hparticles & Hs0).
  exists p0, gl1. split; [exact Hparticles |]. cbv zeta.
  pose proof (createParticles_Consistent _ _ _ _ _ _ Hparticles) as HC0.
  rewrite run_cons. cbn [fst snd].
  destruct (tick_live (MkSimulation gl1 0 0 0 p0 false true false) eq_refl)
    as (Hp & HT & _).
  cbn [sim_particles sim_gl sim_mx sim_my sim_pressed] in Hp, HT.
  rewrite <- Hs0 in Hp, HT.
  apply (f_equal gl_textures) in HT. rewrite renderPass_textures in HT.
  destruct (handleAll_run PC events s0 (update p0 0 0 0 gl1)
              (update_Consistent _ _ _ _ _ _ HC0) Hp HT) as (HC & Hp' & HT').
  split_and!; [exact Hp' | exact HT' |].
  rewrite Hp'. apply (Consistent_textures _ _ _ _ HT' HC).
Qed.

Lemma frame_loop_is_a_run_witness :
  ∃ s0 p0 gl1,
    createSimulation 4 all_red (Some freshContext) = Running s0 ∧
    createParticles 4 all_red freshContext 4 = Some (p0, gl1) ∧
    let events := [MouseDown (MkMouseEvent 0 0 1); AnimationFrame] in
    sim_particles (handleAll s0 events)
    = (run (p0, gl1) ((0, 0, 0) :: samples s0 events)).1.
Proof.
  destruct (createSimulation_fresh 4 all_red ltac:(lia)) as (p0 & gl1 & H & Hcreate).
  exists (tick (MkSimulation gl1 0 0 0 p0 false true false)), p0, gl1.
  split; [exact Hcreate |]. split; [exact H |].
  destruct (frame_loop_is_a_run 4 all_red freshContext _
              [MouseDown (MkMouseEvent 0 0 1); AnimationFrame] Hcreate)
    as (p0' & gl1' & H' & Hrun).
  rewrite H in H'. injection H' as <- <-. apply Hrun.
Defined.

(** X23: [createSimulation] returns nothing exactly when the canvas gives
    no WebGL 2 context.  With a context it throws exactly when the context
    is not [ready]: when [createTexture], [createProgram] or [createShader]
    returns null, when the context is lost (the compile status read back
    is then null), when one of the four shaders does not compile, or when
    the particle count is negative (no array has that length).  On a
    lost context it is the first [createShader] that throws, the textures
    having been created without complaint.  Otherwise the simulation it
    starts has already run its first frame, with the pointer at rest, has
    its listeners registered and the next frame requested. *)
Theorem createSimulation_outcome PC hsv (context : option GL) :
  (createSimulation PC hsv context = NoContext ↔ context = None) ∧
  (∀ gl0, context = Some gl0 →
     (createSimulation PC hsv context = Thrown ↔ ready PC gl0 = false) ∧
     (gl_contextLost gl0 = true →
      createSimulation PC hsv context = Thrown ∧
      (null_texture (gl_platform gl0) = false →
       ∀ size init, is_Some (createDoubleBufferTexture size init gl0)) ∧
      ∀ type source, createShader gl0 type source = None) ∧
     (ready PC gl0 = true →
      ∃ s0 p0 gl1,
        createSimulation PC hsv context = Running s0 ∧
        createParticles PC hsv gl0 PC = Some (p0, gl1) ∧
        sim_particles s0 = (update p0 0 0 0 gl1).1 ∧
        sim_destroyed s0 = false ∧ sim_listening s0 = true ∧
        sim_scheduled s0 = true ∧
        sim_mx s0 = 0 ∧ sim_my s0 = 0 ∧ sim_pressed s0 = 0)).
Proof.
  split.
  - destruct context as [gl0 |]; [| split; reflexivity].
    pose proof (createSimulation_ready PC hsv gl0) as H.
    destruct (ready PC gl0).
    + destruct H as (p0 & gl1 & _ & ->). split; discriminate.
    + rewrite H. split; discriminate.
  - intros gl0 ->.
    pose proof (createSimulation_ready PC hsv gl0) as H.
    split_and!.
    + destruct (ready PC gl0).
      * destruct H as (p0 & gl1 & _ & ->). split; discriminate.
      * rewrite H. split; reflexivity.
    + intros Hlost.
      assert (Hno : ready PC gl0 = false).
      { unfold ready. rewrite Hlost. cbn [negb]. rewrite !andb_false_r.
        reflexivity. }
      rewrite Hno in H. split_and!.
      * exact H.
      * intros Hnull size init.
        apply createDoubleBufferTexture_total, Hnull.
      * intros type source. unfold createShader. rewrite Hlost.
        destruct (null_shader (gl_platform gl0)); reflexivity.
    + intros Hready. rewrite Hready in H. destruct H as (p0 & gl1 & Hp & Hc).
      exists (tick (MkSimulation gl1 0 0 0 p0 false true false)), p0, gl1.
      split; [exact Hc |]. split; [exact Hp |].
      destruct (tick_live (MkSimulation gl1 0 0 0 p0 false true false) eq_refl)
        as (Hp' & _ & Hx & Hy & Hz & Hd & Hl & Hs).
      cbn [sim_particles sim_gl sim_mx sim_my sim_pressed sim_listening] in *.
      auto 10.
Qed.

End FrameLoop.

(** ** The vertex arrays of the render pass *)

Section VertexArrays.

Lemma writeBlock_length (vals : list R) : ∀ array idx,
  length (writeBlock array idx vals) = length array.
Proof.
  induction vals as [| v vals IH]; intros array idx; [reflexivity |].
  cbn [writeBlock]. rewrite IH. apply f32_set_length.
Qed.

Lemma f32_set_other (array : list R) (idx : Z) (v : R) (pos : nat) :
  (0 ≤ idx)%Z → pos ≠ Z.to_nat idx → f32_set array idx v !! pos = array !! pos.
Proof.
  intros Hidx Hne. unfold f32_set. destruct (0 <=? idx)%Z; [| reflexivity].
  apply list_lookup_insert_ne. congruence.
Qed.

Lemma f32_set_at (array : list R) (idx : Z) (v : R) :
  (0 ≤ idx)%Z → (Z.to_nat idx < length array)%nat →
  f32_set array idx v !! Z.to_nat idx = Some v.
Proof.
  intros Hidx Hlen. unfold f32_set. destruct (Z.leb_spec 0 idx); [| lia].
  apply list_lookup_insert_eq. exact Hlen.
Qed.

(** A block of stores changes nothing outside the block. *)
Lemma writeBlock_other (vals : list R) : ∀ array idx (pos : nat),
  (0 ≤ idx)%Z →
  (pos < Z.to_nat idx ∨ Z.to_nat idx + length vals ≤ pos)%nat →
  writeBlock array idx vals !! pos = array !! pos.
Proof.
  induction vals as [| v vals IH]; intros array idx pos Hidx Hpos; [reflexivity |].
  cbn [writeBlock length] in *. rewrite IH by lia.
  apply f32_set_other; lia.
Qed.

(** Inside the array, a block of stores leaves its values in place. *)
Lemma writeBlock_at (vals : list R) : ∀ array idx (j : nat),
  (0 ≤ idx)%Z → (Z.to_nat idx + length vals ≤ length array)%nat →
  (j < length vals)%nat →
  writeBlock array idx vals !! (Z.to_nat idx + j)%nat = vals !! j.
Proof.
  induction vals as [| v vals IH]; intros array idx j Hidx Hlen Hj;
    cbn [length] in *; [lia |].
  cbn [writeBlock]. destruct j as [| j].
  - rewrite writeBlock_other by lia. rewrite Nat.add_0_r.
    apply f32_set_at; lia.
  - replace (Z.to_nat idx + S j)%nat with (Z.to_nat (idx + 1) + j)%nat by lia.
    apply IH; [lia | rewrite f32_set_length; lia | lia].
Qed.

(** A loop that stores one block of twelve floats per element [z], at
    offset [12 * c z]. *)
Section BlockLoop.
Variable c : Z → Z.
Variable vals : Z → list R.
Hypothesis vals_length : ∀ z, length (vals z) = 12%nat.

Lemma blocks_cons (z : Z) (zs : list Z) (array : list R) :
  blocks c vals (z :: zs) array
  = blocks c vals zs (writeBlock array (c z * 12) (vals z)).
Proof. reflexivity. Qed.

Lemma blocks_length (zs : list Z) : ∀ array,
  length (blocks c vals zs array) = length array.
Proof.
  induction zs as [| z zs IH]; intros array; [reflexivity |].
  rewrite blocks_cons, IH. apply writeBlock_length.
Qed.

Lemma blocks_other (zs : list Z) : ∀ array (pos : nat),
  (∀ z, z ∈ zs → (0 ≤ c z)%Z ∧
        (pos < 12 * Z.to_nat (c z) ∨ 12 * Z.to_nat (c z) + 12 ≤ pos)%nat) →
  blocks c vals zs array !! pos = array !! pos.
Proof.
  induction zs as [| z zs IH]; intros array pos Hzs; [reflexivity |].
  rewrite blocks_cons.
  rewrite IH by (intros z' Hz'; apply Hzs; apply elem_of_cons; auto).
  destruct (Hzs z ltac:(apply elem_of_cons; auto)) as [Hc Hpos].
  apply writeBlock_other; [lia |]. rewrite vals_length. lia.
Qed.

Lemma blocks_at (zs : list Z) : ∀ array (z0 : Z) (j : nat),
  z0 ∈ zs →
  (∀ z, z ∈ zs → (0 ≤ c z)%Z) →
  (∀ z, z ∈ zs → z ≠ z0 → c z ≠ c z0) →
  (12 * Z.to_nat (c z0) + 12 ≤ length array)%nat → (j < 12)%nat →
  blocks c vals zs array !! (12 * Z.to_nat (c z0) + j)%nat = vals z0 !! j.
Proof.
  induction zs as [| z zs IH]; intros array z0 j Hin Hpos Hinj Hlen Hj.
  - by apply elem_of_nil in Hin.
  - rewrite blocks_cons.
    destruct (decide (z0 ∈ zs)) as [Hlater | Hlast].
    + apply IH; try assumption.
      * intros z' Hz'. apply Hpos, elem_of_cons. auto.
      * intros z' Hz'. apply Hinj, elem_of_cons. auto.
      * rewrite writeBlock_length. exact Hlen.
    + assert (z = z0) as -> by (apply elem_of_cons in Hin as [-> | ?]; [reflexivity | contradiction]).
      rewrite blocks_other.
      * replace (12 * Z.to_nat (c z0))%nat with (Z.to_nat (c z0 * 12)) by
          (pose proof (Hpos z0 ltac:(apply elem_of_cons; auto)); lia).
        apply writeBlock_at;
          [pose proof (Hpos z0 ltac:(apply elem_of_cons; auto)); lia
          | rewrite vals_length;
            pose proof (Hpos z0 ltac:(apply elem_of_cons; auto)); lia
          | rewrite vals_length; exact Hj].
      * intros z' Hz'.
        assert (z' ≠ z0) by (intros ->; contradiction).
        pose proof (Hpos z' ltac:(apply elem_of_cons; auto)).
        pose proof (Hpos z0 ltac:(apply elem_of_cons; auto)).
        pose proof (Hinj z' ltac:(apply elem_of_cons; auto) ltac:(assumption)).
        split; [assumption | lia].
Qed.

End BlockLoop.

Lemma elem_of_indices (n z : Z) : z ∈ indices n ↔ (0 ≤ z < n)%Z.
Proof.
  unfold indices. rewrite list_elem_of_fmap. split.
  - intros (k & -> & Hk). apply elem_of_seq in Hk. lia.
  - intros Hz. exists (Z.to_nat z). split; [lia |]. apply elem_of_seq. lia.
Qed.

Lemma fold_left_pointwise {A B} (f g : A → B → A) (l : list B) :
  (∀ a b, f a b = g a b) → ∀ a, fold_left f l a = fold_left g l a.
Proof.
  intros Hfg. induction l as [| b l IH]; intros a; [reflexivity |].
  cbn. rewrite Hfg. apply IH.
Qed.

Lemma setQuad_block (array : list R) (idx : Z) :
  setQuad array idx
  = writeBlock array idx
      [-1.0; -1.0; 1.0; -1.0; -1.0; 1.0; -1.0; 1.0; 1.0; -1.0; 1.0; 1.0]%R.
Proof.
  unfold setQuad. cbn [writeBlock]. rewrite Z.add_0_r, <- !Z.add_assoc.
  reflexivity.
Qed.

Lemma setIndices_block (array : list R) (idx x y : Z) :
  setIndices array idx x y
  = writeBlock array idx
      [IZR x; IZR y; IZR x; IZR y; IZR x; IZR y;
       IZR x; IZR y; IZR x; IZR y; IZR x; IZR y].
Proof.
  unfold setIndices. cbn [writeBlock]. rewrite Z.add_0_r, <- !Z.add_assoc.
  reflexivity.
Qed.

(** The twelve floats of particle [i] in [particleQuads]. *)
Lemma particleQuads_at (p : Particles) (i : Z) (j : nat) :
  (0 ≤ i < count p)%Z → (j < 12)%nat →
  particleQuads p !! (12 * Z.to_nat i + j)%nat
  = [-1.0; -1.0; 1.0; -1.0; -1.0; 1.0; -1.0; 1.0; 1.0; -1.0; 1.0; 1.0]%R !! j.
Proof.
  intros Hi Hj. unfold particleQuads.
  set (quad := [-1.0; -1.0; 1.0; -1.0; -1.0; 1.0;
                -1.0; 1.0; 1.0; -1.0; 1.0; 1.0]%R).
  rewrite (fold_left_pointwise _
             (λ array z, writeBlock array ((λ z, z) z * 12) ((λ _, quad) z)))
    by (intros; apply setQuad_block).
  apply (blocks_at (λ z, z) (λ _, quad) (λ _, eq_refl) (indices (count p)) _ i j).
  - apply elem_of_indices. exact Hi.
  - intros z Hz. apply elem_of_indices in Hz. lia.
  - auto.
  - rewrite length_replicate. lia.
  - exact Hj.
Qed.

Lemma particleQuads_length (p : Particles) :
  length (particleQuads p) = Z.to_nat (count p * 12).
Proof.
  unfold particleQuads.
  set (quad := [-1.0; -1.0; 1.0; -1.0; -1.0; 1.0;
                -1.0; 1.0; 1.0; -1.0; 1.0; 1.0]%R).
  rewrite (fold_left_pointwise _
             (λ array z, writeBlock array ((λ z, z) z * 12) ((λ _, quad) z)))
    by (intros; apply setQuad_block).
  exact (eq_trans (blocks_length (λ z, z) (λ _, quad) (indices (count p)) _)
                  (length_replicate _ _)).
Qed.

(** The rows of the grid: a loop over [xs] of the loop over [ys]. *)
Section Rows.
Variable c : Z → Z → Z.
Variable vals : Z → Z → list R.
Hypothesis vals_length : ∀ x y, length (vals x y) = 12%nat.
Variable ys : list Z.

Lemma rows_length (xs : list Z) : ∀ array,
  length (fold_left (λ array x, blocks (c x) (vals x) ys array) xs array)
  = length array.
Proof.
  induction xs as [| x xs IH]; intros array; [reflexivity |].
  cbn [fold_left]. rewrite IH. apply blocks_length.
Qed.

Lemma rows_other (xs : list Z) : ∀ array (pos : nat),
  (∀ x y, x ∈ xs → y ∈ ys → (0 ≤ c x y)%Z ∧
     (pos < 12 * Z.to_nat (c x y) ∨ 12 * Z.to_nat (c x y) + 12 ≤ pos)%nat) →
  fold_left (λ array x, blocks (c x) (vals x) ys array) xs array !! pos
  = array !! pos.
Proof.
  induction xs as [| x xs IH]; intros array pos Hcells; [reflexivity |].
  cbn [fold_left].
  rewrite IH by (intros x' y Hx' Hy; apply Hcells; [apply elem_of_cons; auto | exact Hy]).
  apply (blocks_other (c x) (vals x) (vals_length x)).
  intros y Hy. apply Hcells; [apply elem_of_cons; auto | exact Hy].
Qed.

Lemma rows_at (xs : list Z) : ∀ array (x0 y0 : Z) (j : nat),
  x0 ∈ xs → y0 ∈ ys →
  (∀ x y, x ∈ xs → y ∈ ys → (0 ≤ c x y)%Z) →
  (∀ x y, x ∈ xs → y ∈ ys → x ≠ x0 ∨ y ≠ y0 → c x y ≠ c x0 y0) →
  (12 * Z.to_nat (c x0 y0) + 12 ≤ length array)%nat → (j < 12)%nat →
  fold_left (λ array x, blocks (c x) (vals x) ys array) xs array
    !! (12 * Z.to_nat (c x0 y0) + j)%nat
  = vals x0 y0 !! j.
Proof.
  induction xs as [| x xs IH]; intros array x0 y0 j Hx0 Hy0 Hpos Hinj Hlen Hj.
  - by apply elem_of_nil in Hx0.
  - cbn [fold_left]. destruct (decide (x0 ∈ xs)) as [Hlater | Hlast].
    + apply IH; try assumption.
      * intros x' y Hx' Hy. apply Hpos; [apply elem_of_cons; auto | exact Hy].
      * intros x' y Hx' Hy. apply Hinj; [apply elem_of_cons; auto | exact Hy].
      * rewrite blocks_length. exact Hlen.
    + assert (x = x0) as ->
        by (apply elem_of_cons in Hx0 as [-> | ?]; [reflexivity | contradiction]).
      assert (Hhead : x0 ∈ x0 :: xs) by (apply elem_of_cons; auto).
      rewrite rows_other.
      * apply (blocks_at (c x0) (vals x0) (vals_length x0)); try assumption.
        -- intros y Hy. apply Hpos; assumption.
        -- intros y Hy Hne. apply Hinj; auto.
      * intros x' y Hx' Hy.
        assert (x' ≠ x0) by (intros ->; contradiction).
        assert (Hx'' : x' ∈ x0 :: xs) by (apply elem_of_cons; auto).
        pose proof (Hpos x' y Hx'' Hy).
        pose proof (Hpos x0 y0 Hhead Hy0).
        pose proof (Hinj x' y Hx'' Hy ltac:(auto)).
        split; [assumption | lia].
Qed.

End Rows.

Lemma cell_injective (S x y a b : Z) :
  (0 ≤ y < S)%Z → (0 ≤ b < S)%Z → (x * S + y = a * S + b)%Z → x = a ∧ y = b.
Proof.
  intros Hy Hb Heq.
  destruct (Z.lt_trichotomy x a) as [Hlt | [-> | Hgt]].
  - exfalso. assert (x + 1 ≤ a)%Z by lia. nia.
  - split; [reflexivity | lia].
  - exfalso. assert (a + 1 ≤ x)%Z by lia. nia.
Qed.

(** The twelve floats of cell [i] in [particleIndices]: the row and the
    column of the cell, six times. *)
Lemma particleIndices_at (p : Particles) (i : Z) (j : nat) :
  (0 < textureSize p)%Z → (0 ≤ i < count p)%Z →
  (count p ≤ textureSize p * textureSize p)%Z → (j < 12)%nat →
  particleIndices p !! (12 * Z.to_nat i + j)%nat
  = Some (if Nat.even j then IZR (i / textureSize p)
          else IZR (i mod textureSize p)).
Proof.
  intros HS Hi Hroom Hj. unfold particleIndices.
  set (S := textureSize p) in *.
  set (c := λ x y : Z, (x * S + y)%Z).
  set (vals := λ x y : Z, [IZR x; IZR y; IZR x; IZR y; IZR x; IZR y;
                           IZR x; IZR y; IZR x; IZR y; IZR x; IZR y]).
  rewrite (fold_left_pointwise _
             (λ array x, blocks (c x) (vals x) (indices S) array)).
  2:{ intros a x. unfold blocks. apply fold_left_pointwise.
      intros a' y. apply setIndices_block. }
  destruct (index_coordinates S i HS ltac:(lia)) as (_ & _ & Hy & Hx & Hsum).
  replace (Z.to_nat i) with (Z.to_nat (c (i / S) (i mod S)))%Z
    by (unfold c; rewrite Hsum; reflexivity).
  rewrite (rows_at c vals (λ _ _, eq_refl) (indices S) (indices S)).
  - do 12 (destruct j as [| j]; [reflexivity |]). lia.
  - apply elem_of_indices. lia.
  - apply elem_of_indices. lia.
  - intros x y Hx' Hy'. apply elem_of_indices in Hx', Hy'. unfold c. nia.
  - intros x y Hx' Hy' Hne. apply elem_of_indices in Hx', Hy'. unfold c.
    intros Heq. apply cell_injective in Heq as [? ?]; [| lia | lia].
    destruct Hne as [Hne | Hne]; apply Hne; assumption.
  - rewrite length_replicate. unfold c. rewrite Hsum. lia.
  - exact Hj.
Qed.

Lemma particleIndices_length (p : Particles) :
  length (particleIndices p) = Z.to_nat (count p * 12).
Proof.
  unfold particleIndices.
  set (S := textureSize p).
  set (c := λ x y : Z, (x * S + y)%Z).
  set (vals := λ x y : Z, [IZR x; IZR y; IZR x; IZR y; IZR x; IZR y;
                           IZR x; IZR y; IZR x; IZR y; IZR x; IZR y]).
  rewrite (fold_left_pointwise _
             (λ array x, blocks (c x) (vals x) (indices S) array)).
  2:{ intros a x. unfold blocks. apply fold_left_pointwise.
      intros a' y. apply setIndices_block. }
  rewrite (rows_length c vals). apply length_replicate.
Qed.

End VertexArrays.

(** ** The shaders of the render pass *)

Section RenderPass.
Local Open Scope R_scope.

Lemma truncate_IZR (z : Z) : truncate (IZR z) = z.
Proof.
  unfold truncate. destruct (Rle_dec 0 (IZR z)) as [Hpos | Hneg].
  - symmetry. apply Int_part_spec. lra.
  - rewrite <- opp_IZR.
    rewrite <- (Int_part_spec (IZR (- z)) (- z)%Z) by lra. lia.
Qed.

(** X24: the render pass draws particle [i] from its own records: each of
    the six vertices of particle [i] carries the row and the column of cell
    [i] as its index attribute, and what the vertex shader fetches with it
    from the published textures is what [getParticleState] returns for
    [i].  The index array has twelve floats per particle and no entry for
    the cells from [count] on. *)
Theorem render_vertex_reads_particle PC p gl (i : Z) (v : nat) :
  Consistent PC p gl →
  (0 ≤ i < count p)%Z → (count p ≤ textureSize p * textureSize p)%Z →
  (6 * Z.to_nat i ≤ v < 6 * Z.to_nat i + 6)%nat →
  let indexPos := vertexAttribute (particleIndices p) v in
  length (particleIndices p) = Z.to_nat (count p * 12) ∧
  indexPos = Vec2 (IZR (i / textureSize p)) (IZR (i mod textureSize p)) ∧
  ∀ pos,
    let out := renderVertex (storage gl (textureTransform p))
                 (storage gl (textureColor p))
                 (storage gl (textureProperties p)) indexPos pos in
    getParticleState p gl i (textureTransform p) = Some (outTransform out) ∧
    getParticleState p gl i (textureColor p) = Some (outColor out) ∧
    getParticleState p gl i (textureProperties p) = Some (outProperties out).
Proof.
  intros HC Hi Hroom Hv indexPos.
  pose proof (consistent_side _ _ _ HC) as HS.
  assert (Hattr : indexPos
                  = Vec2 (IZR (i / textureSize p)) (IZR (i mod textureSize p))).
  { assert (∃ k, (k < 6)%nat ∧ v = (6 * Z.to_nat i + k)%nat) as (k & Hk & ->)
      by (exists (v - 6 * Z.to_nat i)%nat; lia).
    unfold indexPos, vertexAttribute.
    replace (2 * (6 * Z.to_nat i + k))%nat with (12 * Z.to_nat i + 2 * k)%nat by lia.
    replace (12 * Z.to_nat i + 2 * k + 1)%nat
      with (12 * Z.to_nat i + (2 * k + 1))%nat by lia.
    rewrite !particleIndices_at by (try assumption; lia).
    do 6 (destruct k as [| k]; [reflexivity |]). lia. }
  split; [apply particleIndices_length |]. split; [exact Hattr |].
  intros pos out. unfold out, renderVertex. rewrite Hattr.
  cbn [x2 y2 outTransform outColor outProperties]. rewrite !truncate_IZR.
  pose proof (consistent_published _ _ _ HC) as Hpub.
  injection Hpub as HpT HpC HpP.
  destruct (index_coordinates (textureSize p) i HS ltac:(lia))
    as (Hrem & Hquot & _).
  rewrite !(getParticleState_storage _ _ _ _ _ HC)
    by (rewrite ?HpT, ?HpC, ?HpP, names_six, !elem_of_cons;
        unfold getRead; tauto).
  unfold fetchFromIndex. rewrite Hrem, Hquot. auto.
Qed.

Lemma render_vertex_reads_particle_witness :
  ∃ p gl,
    createParticles 4 all_red freshContext 4 = Some (p, gl) ∧
    Consistent 4 p gl ∧ (0 ≤ 3 < count p)%Z ∧
    (count p ≤ textureSize p * textureSize p)%Z ∧
    (6 * Z.to_nat 3 ≤ 20 < 6 * Z.to_nat 3 + 6)%nat ∧
    vertexAttribute (particleIndices p) 20
    = Vec2 (IZR (3 / textureSize p)) (IZR (3 mod textureSize p)).
Proof.
  destruct (createParticles_fresh 4 all_red 4)
    as [[p gl] H].
  exists p, gl. split; [exact H |].
  pose proof (createParticles_Consistent _ _ _ _ _ _ H) as HC.
  pose proof (createParticles_Some _ _ _ _ _ _ H) as (HS & Hcount & _).
  apply initialTextureSize_positive in HS as [_ Hroom].
  assert (Hi : (0 ≤ 3 < count p)%Z) by (rewrite Hcount; lia).
  assert (Hr : (count p ≤ textureSize p * textureSize p)%Z)
    by (rewrite Hcount; exact Hroom).
  assert (Hv : (6 * Z.to_nat 3 ≤ 20 < 6 * Z.to_nat 3 + 6)%nat) by lia.
  split; [exact HC |]. split; [exact Hi |]. split; [exact Hr |].
  split; [exact Hv |].
  apply (render_vertex_reads_particle 4 p gl 3 20 HC Hi Hr Hv).
Defined.

(** X25: every particle is drawn as the two triangles of a square of side
    [2 * SIZE] centred on its position: the six position attributes of
    particle [i] are the corners (-1,-1), (1,-1), (-1,1), (-1,1), (1,-1),
    (1,1), and the vertex shader places each at [SIZE] times the corner
    from the position it fetched. *)
Theorem particle_quad_corners (p : Particles) (i : Z) :
  (0 ≤ i < count p)%Z →
  length (particleQuads p) = Z.to_nat (count p * 12) ∧
  (λ k, vertexAttribute (particleQuads p) (6 * Z.to_nat i + k)) <$> seq 0 6
  = [Vec2 (-1.0) (-1.0); Vec2 1.0 (-1.0); Vec2 (-1.0) 1.0;
     Vec2 (-1.0) 1.0; Vec2 1.0 (-1.0); Vec2 1.0 1.0] ∧
  ∀ (k : nat) tT tC tP indexPos, (k < 6)%nat →
    let pos := vertexAttribute (particleQuads p) (6 * Z.to_nat i + k) in
    let out := renderVertex tT tC tP indexPos pos in
    (x4 (gl_Position out) - x4 (outTransform out) = SIZE ∨
     x4 (gl_Position out) - x4 (outTransform out) = - SIZE) ∧
    (y4 (gl_Position out) - y4 (outTransform out) = SIZE ∨
     y4 (gl_Position out) - y4 (outTransform out) = - SIZE) ∧
    z4 (gl_Position out) = 0 ∧ w4 (gl_Position out) = 1.
Proof.
  intros Hi.
  assert (Hattr : ∀ k, (k < 6)%nat →
            vertexAttribute (particleQuads p) (6 * Z.to_nat i + k)
            = default (Vec2 0 0)
                ([Vec2 (-1.0) (-1.0); Vec2 1.0 (-1.0); Vec2 (-1.0) 1.0;
                  Vec2 (-1.0) 1.0; Vec2 1.0 (-1.0); Vec2 1.0 1.0] !! k)).
  { intros k Hk. unfold vertexAttribute.
    replace (2 * (6 * Z.to_nat i + k))%nat with (12 * Z.to_nat i + 2 * k)%nat by lia.
    replace (12 * Z.to_nat i + 2 * k + 1)%nat
      with (12 * Z.to_nat i + (2 * k + 1))%nat by lia.
    rewrite !particleQuads_at by (try assumption; lia).
    do 6 (destruct k as [| k]; [reflexivity |]). lia. }
  split; [apply particleQuads_length |]. split.
  - cbn [fmap list_fmap seq]. rewrite !Hattr by lia. reflexivity.
  - intros k tT tC tP indexPos Hk pos out. unfold out, renderVertex, pos.
    rewrite Hattr by exact Hk. cbn [gl_Position outTransform x4 y4 z4 w4].
    unfold SIZE.
    do 6 (destruct k as [| k];
          [cbn [lookup list_lookup default from_option]; unfold Datatypes.id;
           cbn [x2 y2]; split_and!; first [reflexivity | left; lra | right; lra] |]).
    lia.
Qed.

Lemma particle_quad_corners_witness :
  ∃ p gl,
    createParticles 4 all_red freshContext 4 = Some (p, gl) ∧
    (0 ≤ 2 < count p)%Z ∧
    length (particleQuads p) = Z.to_nat (count p * 12).
Proof.
  destruct (createParticles_fresh 4 all_red 4)
    as [[p gl] H].
  exists p, gl. split; [exact H |].
  pose proof (createParticles_Some _ _ _ _ _ _ H) as (_ & Hcount & _).
  assert (Hi : (0 ≤ 2 < count p)%Z) by (rewrite Hcount; lia).
  split; [exact Hi |].
  apply (particle_quad_corners p 2 Hi).
Defined.

(** X26: inside the disc of radius [SIZE] around the particle the fragment
    shader of the render pass gives the particle's colour with its alpha
    scaled by the square root of [1 - d / SIZE], [d] the distance from the
    fragment to the particle: the full alpha at the centre, falling to 0 on
    the circle. *)
Theorem render_fragment_alpha (color transform : vec4) (gl_FragCoord : vec2) :
  let screenPos := Vec2 (x2 gl_FragCoord / 1024 * 2 - 1)
                        (y2 gl_FragCoord / 1024 * 2 - 1) in
  let d := length2 (sub2 (xy transform) screenPos) in
  d <= SIZE →
  let fragColor := renderFragment color transform gl_FragCoord in
  x4 fragColor = x4 color ∧ y4 fragColor = y4 color ∧ z4 fragColor = z4 color ∧
  w4 fragColor = sqrt (1 - d / SIZE) * w4 color ∧
  0 <= sqrt (1 - d / SIZE) <= 1 ∧
  (d = 0 → w4 fragColor = w4 color) ∧
  (d = SIZE → w4 fragColor = 0).
Proof.
  intros screenPos d Hd fragColor.
  assert (Hd0 : 0 <= d) by apply sqrt_pos.
  assert (Hsize : 0 < SIZE) by (unfold SIZE; lra).
  assert (Hbase : 0 <= 1 - d / SIZE <= 1).
  { assert (Hinv : 0 < / SIZE) by (apply Rinv_0_lt_compat; exact Hsize).
    assert (Hone : SIZE * / SIZE = 1) by (apply Rinv_r; lra).
    unfold Rdiv. nra. }
  assert (Halpha : w4 fragColor = sqrt (1 - d / SIZE) * w4 color).
  { unfold fragColor, renderFragment. cbn [w4 x2 y2].
    replace (Vec2 (x2 gl_FragCoord / 1024.0 * 2.0 - 1.0)
                  (y2 gl_FragCoord / 1024.0 * 2.0 - 1.0)) with screenPos
      by (unfold screenPos; f_equal; lra).
    fold d. replace (- d * (1.0 / SIZE) + 1.0) with (1 - d / SIZE)
      by (unfold Rdiv; lra).
    f_equal. destruct Hbase as [[Hpos | Hzero] _].
    - rewrite pow_defined by exact Hpos.
      replace 0.5 with (/ 2) by lra. apply Rpower_sqrt, Hpos.
    - rewrite <- Hzero, pow_zero_base, sqrt_0. reflexivity. }
  split_and!; try reflexivity.
  - exact Halpha.
  - apply sqrt_pos.
  - apply Rle_trans with (sqrt 1); [apply sqrt_le_1_alt; lra |].
    rewrite sqrt_1. lra.
  - intros H0. rewrite Halpha, H0.
    replace (1 - 0 / SIZE) with 1 by (unfold Rdiv; lra).
    rewrite sqrt_1. lra.
  - intros HS. rewrite Halpha, HS.
    replace (1 - SIZE / SIZE) with 0 by (field; lra).
    rewrite sqrt_0. lra.
Qed.

Lemma render_fragment_alpha_witness :
  let color := Vec4 1 0 0 1 in
  let transform := Vec4 0 0 0 0 in
  length2 (sub2 (xy transform) (Vec2 (512 / 1024 * 2 - 1) (512 / 1024 * 2 - 1)))
    <= SIZE ∧
  x4 (renderFragment color transform (Vec2 512 512)) = 1.
Proof.
  cbv zeta.
  assert (Hd : length2 (sub2 (xy (Vec4 0 0 0 0))
                 (Vec2 (512 / 1024 * 2 - 1) (512 / 1024 * 2 - 1))) <= SIZE).
  { unfold length2, sub2, xy, SIZE. cbn [x2 y2 x4 y4].
    replace ((0 - (512 / 1024 * 2 - 1)) * (0 - (512 / 1024 * 2 - 1)) +
             (0 - (512 / 1024 * 2 - 1)) * (0 - (512 / 1024 * 2 - 1)))
      with 0 by lra.
    rewrite sqrt_0. lra. }
  split; [exact Hd |].
  apply (render_fragment_alpha (Vec4 1 0 0 1) (Vec4 0 0 0 0) (Vec2 512 512) Hd).
Defined.

End RenderPass.
